(** * Market-intelligence pipeline: a shallow embedding of [market_intel.py]
      and [app.py].

    Text is modelled as a list of Unicode code points (Python [str]);
    JSON values as the tree [json]; Python objects that the stages build
    and share (lists and dicts) live in a heap [gmap N obj]; the pipeline
    runs in a state and exception monad whose state holds the heap and the
    trace of effects (queue writes and calls to the two services). *)

From Stdlib Require Import ZArith Ascii String List Bool Lia.
From stdpp Require Import base gmap list strings.
Import ListNotations.

Set Warnings "-register-all".
Local Open Scope Z_scope.

(* ------------------------------------------------------------------ *)
(** ** Text *)

Abbreviation text := (list Z).

(** A Rocq string literal read as code points (ASCII literals only). *)
Definition t (s : string) : text :=
  map (fun c => Z.of_nat (nat_of_ascii c)) (list_ascii_of_string s).
Arguments t : simpl never.

(** For writing JSON inputs in examples: [t] with each apostrophe read as
    a double quote. *)
Definition tj (s : string) : text := map (fun c => if c =? 39 then 34 else c) (t s).

(** [str.isspace] on one code point. *)
Definition py_isspace (c : Z) : bool :=
  ((9 <=? c) && (c <=? 13)) || ((28 <=? c) && (c <=? 32)) ||
  (c =? 133) || (c =? 160) || (c =? 5760) ||
  ((8192 <=? c) && (c <=? 8202)) || (c =? 8232) || (c =? 8233) ||
  (c =? 8239) || (c =? 8287) || (c =? 12288).

Fixpoint lstrip (s : text) : text :=
  match s with
  | c :: r => if py_isspace c then lstrip r else s
  | [] => []
  end.

(** [str.strip()] *)
Definition py_strip (s : text) : text := rev_append (lstrip (rev_append (lstrip s) [])) [].

Fixpoint startswith (s p : text) : bool :=
  match p, s with
  | [], _ => true
  | c :: p', d :: s' => (c =? d) && startswith s' p'
  | _ :: _, [] => false
  end.

Definition endswith (s p : text) : bool := startswith (rev_append s []) (rev_append p []).

(** [sep.join(xs)] on strings. *)
Fixpoint join (sep : text) (xs : list text) : text :=
  match xs with
  | [] => []
  | [x] => x
  | x :: r => x ++ sep ++ join sep r
  end.

(** [data.replace("\n", "\\n")] *)
Fixpoint escape_newlines (s : text) : text :=
  match s with
  | [] => []
  | c :: r => if c =? 10 then 92 :: 110 :: escape_newlines r
              else c :: escape_newlines r
  end.

(** Decimal rendering of a natural number ([str(i)] of an [enumerate]
    counter). *)
Fixpoint nat_text_aux (fuel n : nat) (acc : text) : text :=
  match fuel with
  | O => acc
  | S f =>
    let acc' := (48 + Z.of_nat (Nat.modulo n 10)) :: acc in
    if Nat.eqb (Nat.div n 10) 0 then acc' else nat_text_aux f (Nat.div n 10) acc'
  end.

Definition nat_text (n : nat) : text := nat_text_aux (S n) n [].

(* ------------------------------------------------------------------ *)
(** ** Exceptions *)

Inductive exc_kind :=
  | JSONDecodeError        (** subclass of [ValueError] *)
  | ValueError
  | RecursionError
  | TypeError
  | AttributeError
  | KeyError
  | ServiceError.          (** a failure raised by a network call *)

Record exc := Exn { exc_kind_of : exc_kind; exc_msg : text }.

Inductive res (A : Type) :=
  | Ok (a : A)
  | Exc (e : exc).
Arguments Ok {A} a.
Arguments Exc {A} e.

(** [except (json.JSONDecodeError, ValueError)] *)
Definition is_value_error (k : exc_kind) : bool :=
  match k with
  | JSONDecodeError | ValueError => true
  | _ => false
  end.

(* ------------------------------------------------------------------ *)
(** ** JSON values and [json.loads] (CPython's C scanner) *)

Inductive json :=
  | JNull
  | JBool (b : bool)
  | JNum (lexeme : text)
  | JStr (s : text)
  | JArr (xs : list json)
  | JObj (kvs : list (text * json)).

(** [d[k] = v] on a dict kept as its ordered item list: an existing key
    keeps its position and takes the new value. *)
Fixpoint dict_set {V} (k : text) (v : V) (kvs : list (text * V)) : list (text * V) :=
  match kvs with
  | [] => [(k, v)]
  | (k', v') :: r =>
      if decide (k = k') then (k, v) :: r else (k', v') :: dict_set k v r
  end.

Definition dict_of_pairs {V} (ps : list (text * V)) : list (text * V) :=
  fold_left (fun d kv => dict_set (fst kv) (snd kv) d) ps [].

Fixpoint dict_lookup {V} (k : text) (kvs : list (text * V)) : option V :=
  match kvs with
  | [] => None
  | (k', v) :: r => if decide (k = k') then Some v else dict_lookup k r
  end.

Definition decode_error (m : string) : exc := Exn JSONDecodeError (t m).

Definition is_json_ws (c : Z) : bool := (c =? 32) || (c =? 9) || (c =? 10) || (c =? 13).

Fixpoint skip_ws (s : text) : text :=
  match s with
  | c :: r => if is_json_ws c then skip_ws r else s
  | [] => []
  end.

Definition hexval (c : Z) : option Z :=
  if (48 <=? c) && (c <=? 57) then Some (c - 48)
  else if (97 <=? c) && (c <=? 102) then Some (c - 87)
  else if (65 <=? c) && (c <=? 70) then Some (c - 55)
  else None.

Definition hex4 (a b c d : Z) : option Z :=
  match hexval a, hexval b, hexval c, hexval d with
  | Some w, Some x, Some y, Some z => Some (w * 4096 + x * 256 + y * 16 + z)
  | _, _, _, _ => None
  end.

Definition is_high_surrogate (u : Z) : bool := (55296 <=? u) && (u <=? 56319).
Definition is_low_surrogate (u : Z) : bool := (56320 <=? u) && (u <=? 57343).

Definition join_surrogates (hi lo : Z) : Z := 65536 + (hi - 55296) * 1024 + (lo - 56320).

Definition simple_escape (e : Z) : option Z :=
  if e =? 34 then Some 34 else if e =? 92 then Some 92
  else if e =? 47 then Some 47 else if e =? 98 then Some 8
  else if e =? 102 then Some 12 else if e =? 110 then Some 10
  else if e =? 114 then Some 13 else if e =? 116 then Some 9
  else None.

Definition cons_res (u : Z) (r : res (text * text)) : res (text * text) :=
  match r with
  | Ok (str, rest) => Ok (u :: str, rest)
  | Exc e => Exc e
  end.

(** [scanstring_unicode] in strict mode, from just after the opening quote. *)
Fixpoint scanstring (s : text) : res (text * text) :=
  match s with
  | [] => Exc (decode_error "Unterminated string starting at")
  | c :: r =>
    if c =? 34 then Ok ([], r)
    else if c =? 92 then
      match r with
      | [] => Exc (decode_error "Unterminated string starting at")
      | e :: r1 =>
        if e =? 117 then
          match r1 with
          | a :: b :: c1 :: d :: r2 =>
            match hex4 a b c1 d with
            | None => Exc (decode_error "Invalid \uXXXX escape")
            | Some u =>
              if is_high_surrogate u then
                match r2 with
                | x1 :: x2 :: a2 :: b2 :: c2 :: d2 :: r3 =>
                  if (x1 =? 92) && (x2 =? 117) then
                    match hex4 a2 b2 c2 d2 with
                    | None => Exc (decode_error "Invalid \uXXXX escape")
                    | Some u2 =>
                      if is_low_surrogate u2
                      then cons_res (join_surrogates u u2) (scanstring r3)
                      else cons_res u (scanstring r2)
                    end
                  else cons_res u (scanstring r2)
                | _ => cons_res u (scanstring r2)
                end
              else cons_res u (scanstring r2)
            end
          | _ => Exc (decode_error "Invalid \uXXXX escape")
          end
        else
          match simple_escape e with
          | Some u => cons_res u (scanstring r1)
          | None => Exc (decode_error "Invalid \escape")
          end
      end
    else if c <? 32 then Exc (decode_error "Invalid control character at")
    else cons_res c (scanstring r)
  end.

Definition is_digit (c : Z) : bool := (48 <=? c) && (c <=? 57).

Fixpoint span_digits (s : text) : text * text :=
  match s with
  | c :: r => if is_digit c then let (ds, rest) := span_digits r in (c :: ds, rest)
              else ([], s)
  | [] => ([], [])
  end.

(** The fraction and exponent parts of [_match_number_unicode]: a part is
    taken only when it is complete, otherwise the number ends before it. *)
Definition match_frac (s : text) : text * text :=
  match s with
  | c :: d :: r =>
    if (c =? 46) && is_digit d then let (ds, rest) := span_digits r in (c :: d :: ds, rest)
    else ([], s)
  | _ => ([], s)
  end.

Definition match_exp (s : text) : text * text :=
  match s with
  | e :: r =>
    if (e =? 101) || (e =? 69) then
      let (sign, r1) :=
        match r with
        | c :: r' => if (c =? 43) || (c =? 45) then ([c], r') else ([], r)
        | [] => ([], r)
        end in
      match span_digits r1 with
      | ([], _) => ([], s)
      | (ds, rest) => (e :: sign ++ ds, rest)
      end
    else ([], s)
  | [] => ([], s)
  end.

(** [_match_number_unicode]: [-?(0|[1-9][0-9]* )(\.[0-9]+)?([eE][-+]?[0-9]+)?] *)
Definition match_number (s : text) : option (text * text) :=
  let '(sign, s1) :=
    match s with
    | c :: r => if c =? 45 then ([c], r) else ([], s)
    | [] => ([], s)
    end in
  let int_part :=
    match s1 with
    | c :: r =>
      if (49 <=? c) && (c <=? 57) then let (ds, rest) := span_digits r in Some (c :: ds, rest)
      else if c =? 48 then Some ([c], r)
      else None
    | [] => None
    end in
  match int_part with
  | None => None
  | Some (ip, r2) =>
    let (fp, r3) := match_frac r2 in
    let (ep, r4) := match_exp r3 in
    Some (sign ++ ip ++ fp ++ ep, r4)
  end.

(** Nesting depth at which [Py_EnterRecursiveCall] fails, taken as the
    default [sys.getrecursionlimit()].  CPython also counts the frames
    already on the stack, so it fails a few levels earlier (about 990 in the
    pipeline's thread on 3.10/3.11); the model is exact only for nesting
    well below the limit, which statements about runs assume
    ([shallow]). *)
Definition py_recursion_limit : nat := 1000.

(** [PyLong_FromString] refuses a decimal literal of more than
    [sys.get_int_max_str_digits()] digits (4300 by default, since 3.10.7
    and 3.11) with a [ValueError]; [_match_number_unicode] converts a number
    lexeme without fraction and exponent with it. *)
Definition int_max_str_digits : nat := 4300.

Definition int_lexeme_too_long (lex : text) : bool :=
  negb (existsb (fun c => (c =? 46) || (c =? 101) || (c =? 69)) lex) &&
  Nat.ltb int_max_str_digits (length (filter is_digit lex)).

Definition recursion_error (what : string) : exc :=
  Exn RecursionError (t "maximum recursion depth exceeded" ++ t what).

(** [scan_once_unicode] with [_parse_object_unicode] and
    [_parse_array_unicode].  [fuel] bounds the call nesting; [json_loads]
    gives it twice the input length, more than any call chain needs, since
    every pair of nested calls consumes input. *)
Fixpoint scan_once (fuel depth : nat) (s : text) : res (json * text) :=
  match fuel with
  | O => Exc (decode_error "Expecting value")
  | S f =>
    match s with
    | [] => Exc (decode_error "Expecting value")
    | c :: r =>
      if c =? 34 then
        match scanstring r with
        | Ok (str, rest) => Ok (JStr str, rest)
        | Exc e => Exc e
        end
      else if c =? 123 then
        if Nat.leb py_recursion_limit depth
        then Exc (recursion_error " while decoding a JSON object from a unicode string")
        else
          match skip_ws r with
          | d :: r' =>
            if d =? 125 then Ok (JObj [], r')
            else match parse_object f (S depth) (d :: r') with
                 | Ok (ps, rest) => Ok (JObj (dict_of_pairs ps), rest)
                 | Exc e => Exc e
                 end
          | [] => Exc (decode_error "Expecting property name enclosed in double quotes")
          end
      else if c =? 91 then
        if Nat.leb py_recursion_limit depth
        then Exc (recursion_error " while decoding a JSON array from a unicode string")
        else
          match skip_ws r with
          | d :: r' =>
            if d =? 93 then Ok (JArr [], r')
            else match parse_array f (S depth) (d :: r') with
                 | Ok (vs, rest) => Ok (JArr vs, rest)
                 | Exc e => Exc e
                 end
          | [] => Exc (decode_error "Expecting value")
          end
      else if startswith s (t "null") then Ok (JNull, skipn 4 s)
      else if startswith s (t "true") then Ok (JBool true, skipn 4 s)
      else if startswith s (t "false") then Ok (JBool false, skipn 5 s)
      else if startswith s (t "NaN") then Ok (JNum (t "NaN"), skipn 3 s)
      else if startswith s (t "Infinity") then Ok (JNum (t "Infinity"), skipn 8 s)
      else if startswith s (t "-Infinity") then Ok (JNum (t "-Infinity"), skipn 9 s)
      else
        match match_number s with
        | Some (lex, rest) =>
          if int_lexeme_too_long lex
          then Exc (Exn ValueError (t "Exceeds the limit (4300 digits) for integer string conversion"))
          else Ok (JNum lex, rest)
        | None => Exc (decode_error "Expecting value")
        end
    end
  end
(** array items, from the first item (whitespace skipped) *)
with parse_array (fuel depth : nat) (s : text) : res (list json * text) :=
  match fuel with
  | O => Exc (decode_error "Expecting value")
  | S f =>
    match scan_once f depth s with
    | Exc e => Exc e
    | Ok (v, r) =>
      match skip_ws r with
      | c :: r2 =>
        if c =? 93 then Ok ([v], r2)
        else if c =? 44 then
          match parse_array f depth (skip_ws r2) with
          | Ok (vs, rest) => Ok (v :: vs, rest)
          | Exc e => Exc e
          end
        else Exc (decode_error "Expecting ',' delimiter")
      | [] => Exc (decode_error "Expecting ',' delimiter")
      end
    end
  end
(** object members, from the first key (whitespace skipped) *)
with parse_object (fuel depth : nat) (s : text) : res (list (text * json) * text) :=
  match fuel with
  | O => Exc (decode_error "Expecting value")
  | S f =>
    match s with
    | q :: r =>
      if q =? 34 then
        match scanstring r with
        | Exc e => Exc e
        | Ok (key, r1) =>
          match skip_ws r1 with
          | col :: r2 =>
            if col =? 58 then
              match scan_once f depth (skip_ws r2) with
              | Exc e => Exc e
              | Ok (v, r3) =>
                match skip_ws r3 with
                | c :: r4 =>
                  if c =? 125 then Ok ([(key, v)], r4)
                  else if c =? 44 then
                    match parse_object f depth (skip_ws r4) with
                    | Ok (ps, rest) => Ok ((key, v) :: ps, rest)
                    | Exc e => Exc e
                    end
                  else Exc (decode_error "Expecting ',' delimiter")
                | [] => Exc (decode_error "Expecting ',' delimiter")
                end
              end
            else Exc (decode_error "Expecting ':' delimiter")
          | [] => Exc (decode_error "Expecting ':' delimiter")
          end
        end
      else Exc (decode_error "Expecting property name enclosed in double quotes")
    | [] => Exc (decode_error "Expecting property name enclosed in double quotes")
    end
  end.

(** [json.loads(s)] for a [str] argument. *)
Definition json_loads (s : text) : res json :=
  if startswith s [65279] then Exc (decode_error "Unexpected UTF-8 BOM (decode using utf-8-sig)")
  else
    match scan_once (2 * length s + 2)%nat 0 (skip_ws s) with
    | Exc e => Exc e
    | Ok (v, r) =>
      match skip_ws r with
      | [] => Ok v
      | _ => Exc (decode_error "Extra data")
      end
    end.

(** [_parse_json] (market_intel.py, lines 56-71). *)
Definition _parse_json (raw : text) : res json :=
  let text0 := py_strip raw in
  let text1 :=
    if startswith text0 (t "```") then
      let x := skipn 3 text0 in
      let x := if startswith x (t "json") then skipn 4 x else x in
      py_strip x
    else text0 in
  let text2 :=
    if endswith text1 (t "```") then py_strip (firstn (length text1 - 3) text1)
    else text1 in
  json_loads text2.




(* ------------------------------------------------------------------ *)
(** ** [json.dumps] with the default options
      ([ensure_ascii=True], separators [", "] and [": "]) *)

Definition hex_digit (n : Z) : Z := if n <? 10 then 48 + n else 87 + n.

Definition u_escape (u : Z) : text :=
  [92; 117; hex_digit (u / 4096 mod 16); hex_digit (u / 256 mod 16);
   hex_digit (u / 16 mod 16); hex_digit (u mod 16)].

(** [ascii_escape_unichar] *)
Definition ascii_escape_char (c : Z) : text :=
  if (32 <=? c) && (c <=? 126) && negb (c =? 92) && negb (c =? 34) then [c]
  else if c =? 92 then [92; 92]
  else if c =? 34 then [92; 34]
  else if c =? 8 then [92; 98]
  else if c =? 12 then [92; 102]
  else if c =? 10 then [92; 110]
  else if c =? 13 then [92; 114]
  else if c =? 9 then [92; 116]
  else if 65536 <=? c then
    let v := c - 65536 in
    u_escape (55296 + v / 1024 mod 1024) ++ u_escape (56320 + v mod 1024)
  else u_escape c.

Definition encode_str (s : text) : text := [34] ++ flat_map ascii_escape_char s ++ [34].

(** Numbers are written back as their lexeme (CPython writes the [repr] of
    the [int] or [float] it decoded). *)
Fixpoint json_dumps (v : json) : text :=
  match v with
  | JNull => t "null"
  | JBool true => t "true"
  | JBool false => t "false"
  | JNum lex => lex
  | JStr s => encode_str s
  | JArr xs => [91] ++ join (t ", ") (map json_dumps xs) ++ [93]
  | JObj kvs =>
    [123] ++ join (t ", ") (map (fun '(k, x) => encode_str k ++ t ": " ++ json_dumps x) kvs)
    ++ [125]
  end.


(* ------------------------------------------------------------------ *)
(** ** Python objects, the heap and the run monad *)

(** A Python value: an immutable scalar, or a reference to a list or dict. *)
Inductive pv :=
  | PNone
  | PBool (b : bool)
  | PNum (lexeme : text)
  | PStr (s : text)
  | PRef (l : N).

Inductive obj :=
  | OList (xs : list pv)
  | ODict (kvs : list (text * pv)).

Abbreviation heap := (gmap N obj).

(** The stage whose code performs an effect (ghost information: the
    executor's own announcement of a stage counts for that stage). *)
Inductive stage := SPipeline | SData | STrend | SStrategy | SRisk | SVoice | SReport.

(** An SSE message as [_sse] formats it. *)
Record sse := SSE { sse_event : text; sse_data : text }.

Definition _sse (event data : text) : sse := SSE event (escape_newlines data).

Definition sse_wire (m : sse) : text :=
  t "event: " ++ sse_event m ++ [10] ++ t "data: " ++ sse_data m ++ [10; 10].

(** A line terminator of the SSE format: a line ends at LF, at CR, or at
    CR LF. *)
Definition is_line_end (c : Z) : bool := (c =? 10) || (c =? 13).

Inductive effect :=
  | EPut (tag : stage) (item : option sse)   (** [q.put(item)]; [None] is the sentinel *)
  | ESearch (query : text) (max_results : nat)
  | EChat (tag : stage) (content : text).

Record state := St { st_heap : heap; st_next : N; st_trace : list effect }.

Definition M (A : Type) := state -> res A * state.

Definition ret {A} (a : A) : M A := fun s => (Ok a, s).
Definition raise {A} (e : exc) : M A := fun s => (Exc e, s).
Definition bind {A B} (m : M A) (f : A -> M B) : M B :=
  fun s => match m s with
           | (Ok a, s') => f a s'
           | (Exc e, s') => (Exc e, s')
           end.
Definition lift {A} (r : res A) : M A := fun s => (r, s).

Notation "'let!' x := m 'in' k" := (bind m (fun x => k))
  (at level 200, x name, m at level 100, k at level 200).
Notation "'do!' m 'in' k" := (bind m (fun _ : unit => k))
  (at level 200, m at level 100, k at level 200).

Definition record (e : effect) : M unit :=
  fun s => (Ok tt, St (st_heap s) (st_next s) (st_trace s ++ [e])).

Definition alloc (o : obj) : M N :=
  fun s => (Ok (st_next s), St (<[st_next s := o]> (st_heap s)) (N.succ (st_next s)) (st_trace s)).

Definition read (l : N) : M obj :=
  fun s => match st_heap s !! l with
           | Some o => (Ok o, s)
           | None => (Exc (Exn TypeError (t "dangling reference")), s)
           end.

(** [lst.append(v)] *)
Definition py_append (l : N) (v : pv) : M unit :=
  fun s => match st_heap s !! l with
           | Some (OList xs) =>
             (Ok tt, St (<[l := OList (xs ++ [v])]> (st_heap s)) (st_next s) (st_trace s))
           | _ => (Exc (Exn AttributeError (t "object has no attribute 'append'")), s)
           end.

Fixpoint mapM {A B} (f : A -> M B) (xs : list A) : M (list B) :=
  match xs with
  | [] => ret []
  | x :: r => let! y := f x in let! ys := mapM f r in ret (y :: ys)
  end.

Fixpoint iterM {A} (f : A -> M unit) (xs : list A) : M unit :=
  match xs with
  | [] => ret tt
  | x :: r => do! f x in iterM f r
  end.

(** [for i, x in enumerate(xs, 1)] *)
Fixpoint iter_enum {A} (f : nat -> A -> M unit) (i : nat) (xs : list A) : M unit :=
  match xs with
  | [] => ret tt
  | x :: r => do! f i x in iter_enum f (S i) r
  end.

(** [json.loads] builds fresh objects: the decoded tree is allocated. *)
Fixpoint alloc_json (v : json) : M pv :=
  match v with
  | JNull => ret PNone
  | JBool b => ret (PBool b)
  | JNum lex => ret (PNum lex)
  | JStr s => ret (PStr s)
  | JArr xs =>
    let! ys := mapM alloc_json xs in
    let! l := alloc (OList ys) in ret (PRef l)
  | JObj kvs =>
    let! ys := mapM (fun '(k, x) => let! y := alloc_json x in ret (k, y)) kvs in
    let! l := alloc (ODict ys) in ret (PRef l)
  end.

(** [map] in the error monad: the first failure wins. *)
Fixpoint res_mapM {A B} (f : A -> res B) (xs : list A) : res (list B) :=
  match xs with
  | [] => Ok []
  | x :: r =>
    match f x with
    | Exc e => Exc e
    | Ok y => match res_mapM f r with Ok ys => Ok (y :: ys) | Exc e => Exc e end
    end
  end.

(** The deep read [json.dumps] performs; it fails as CPython does once the
    nesting passes the recursion limit. *)
Fixpoint heap_json (fuel : nat) (h : heap) (v : pv) : res json :=
  match v with
  | PNone => Ok JNull
  | PBool b => Ok (JBool b)
  | PNum lex => Ok (JNum lex)
  | PStr s => Ok (JStr s)
  | PRef l =>
    match fuel with
    | O => Exc (recursion_error " while encoding a JSON object")
    | S f =>
      match h !! l with
      | Some (OList xs) =>
        match res_mapM (heap_json f h) xs with
        | Ok ys => Ok (JArr ys)
        | Exc e => Exc e
        end
      | Some (ODict kvs) =>
        match res_mapM (fun '(k, x) => match heap_json f h x with
                                       | Ok y => Ok (k, y)
                                       | Exc e => Exc e
                                       end) kvs with
        | Ok ys => Ok (JObj ys)
        | Exc e => Exc e
        end
      | None => Exc (Exn TypeError (t "dangling reference"))
      end
    end
  end.

(** [json.dumps(v)] of a heap value. *)
Definition py_dumps (v : pv) : M text :=
  fun s => match heap_json py_recursion_limit (st_heap s) v with
           | Ok j => (Ok (json_dumps j), s)
           | Exc e => (Exc e, s)
           end.

(** [type(v).__name__] *)
Definition type_name (v : pv) (h : heap) : text :=
  match v with
  | PNone => t "NoneType"
  | PBool _ => t "bool"
  | PNum _ => t "number"
  | PStr _ => t "str"
  | PRef l => match h !! l with
              | Some (OList _) => t "list"
              | _ => t "dict"
              end
  end.

Definition type_error {A} (v : pv) (what : string) : M A :=
  fun s => (Exc (Exn TypeError (t "'" ++ type_name v (st_heap s) ++ t "' " ++ t what)), s).

(** [v.get(k, default)] *)
Definition py_get (v : pv) (k : text) (default : pv) : M pv :=
  match v with
  | PRef l =>
    let! o := read l in
    match o with
    | ODict kvs => ret (match dict_lookup k kvs with Some x => x | None => default end)
    | OList _ => raise (Exn AttributeError (t "'list' object has no attribute 'get'"))
    end
  | _ => fun s => (Exc (Exn AttributeError
                          (t "'" ++ type_name v (st_heap s) ++ t "' object has no attribute 'get'")), s)
  end.

(** [v[k]] with a string key *)
Definition py_getitem (v : pv) (k : text) : M pv :=
  match v with
  | PRef l =>
    let! o := read l in
    match o with
    | ODict kvs => match dict_lookup k kvs with
                   | Some x => ret x
                   | None => raise (Exn KeyError k)
                   end
    | OList _ => raise (Exn TypeError (t "list indices must be integers or slices, not str"))
    end
  | PStr _ => raise (Exn TypeError (t "string indices must be integers, not 'str'"))
  | _ => type_error v "object is not subscriptable"
  end.

(** [iter(v)]: the items a [for] loop visits. *)
Definition py_iter (v : pv) : M (list pv) :=
  match v with
  | PRef l =>
    let! o := read l in
    match o with
    | OList xs => ret xs
    | ODict kvs => ret (map (fun kv => PStr (fst kv)) kvs)
    end
  | PStr s => ret (map (fun c => PStr [c]) s)
  | _ => type_error v "object is not iterable"
  end.

(** [f"{v}"].  Exact for [None], booleans and strings.  The text of a
    container's [repr] is not modelled: a fixed placeholder stands for it;
    a number is shown as its JSON lexeme, which is the [str] of the decoded
    [int] or [float] only when the lexeme is in that form. *)
Definition py_format (v : pv) : text :=
  match v with
  | PNone => t "None"
  | PBool true => t "True"
  | PBool false => t "False"
  | PNum lex => lex
  | PStr s => s
  | PRef _ => t "<container>"
  end.

Fixpoint all_str (xs : list pv) : option (list text) :=
  match xs with
  | [] => Some []
  | PStr x :: r => match all_str r with Some ys => Some (x :: ys) | None => None end
  | _ :: _ => None
  end.

(** [sep.join(iterable)] *)
Definition py_join (sep : text) (v : pv) : M text :=
  let! xs := py_iter v in
  match all_str xs with
  | Some ss => ret (join sep ss)
  | None => raise (Exn TypeError (t "sequence item: expected str instance"))
  end.

(** [not v] for the list the Data stage returns *)
Definition py_is_empty_list (v : pv) : M bool :=
  let! xs := py_iter v in ret (match xs with [] => true | _ => false end).

(* ------------------------------------------------------------------ *)
(** ** The external services *)

(** A search hit as the Data stage reads it ([item.get(...)]). *)
Record hit := Hit {
  hit_title : option text;
  hit_url : option text;
  hit_content : option text;
  hit_snippet : option text }.

Record services := Services {
  (** [requests.post(TAVILY_ENDPOINT, json=payload)], [raise_for_status()],
      [.json().get("results", [])], for the query and [max_results] *)
  tavily_search : text -> nat -> res (list hit);
  (** [client.chat.create(...)]: the content of the first response for
      the one user message *)
  reka_chat : text -> res text }.

(* ------------------------------------------------------------------ *)
(** ** market_intel.py *)

Definition MAX_ARTICLES : nat := 5.

Definition E_SEARCH : text := [128269].
Definition E_WARN : text := [9888; 65039].
Definition E_CHECK : text := [10004].
Definition E_CHART : text := [128200].
Definition E_BULB : text := [128161].
Definition E_MIC : text := [127897; 65039].
Definition E_ROCKET : text := [128640].
Definition E_DONE : text := [9989].

Definition NL : text := [10].

(** The stages' [log(msg)]: [print(msg)], then [emit(msg)], which
    [_run_pipeline] makes [q.put(_sse("log", msg))].  Only the [emit] is
    modelled: [print] writes to standard output and returns, except that it
    raises [UnicodeEncodeError] on a surrogate code point (U+D800..U+DFFF)
    with a UTF-8 standard output; statements about runs therefore assume
    the printed texts hold none ([no_surrogate]). *)
Definition log (tag : stage) (msg : text) : M unit :=
  record (EPut tag (Some (_sse (t "log") msg))).

(** [_chat] *)
Definition _chat (svc : services) (tag : stage) (system user : text) : M text :=
  let content := t "System Instruction: " ++ system ++ NL ++ NL ++ t "User Question: " ++ user in
  do! record (EChat tag content) in
  match reka_chat svc content with
  | Ok c => ret (py_strip c)
  | Exc e => raise e
  end.

Definition opt_default (o : option text) (d : text) : text :=
  match o with Some x => x | None => d end.

Definition DATA_SYSTEM : text :=
  t "You are a concise financial news analyst. Summarise the article in one sentence.".

(** One iteration of the loop over [raw_results[:MAX_ARTICLES]]. *)
Definition data_item (svc : services) (articles : N) (item : hit) : M unit :=
  let headline := opt_default (hit_title item) (t "No title") in
  let source := opt_default (hit_url item) (t "Unknown source") in
  let content := opt_default (hit_content item) (opt_default (hit_snippet item) []) in
  let! summary := _chat svc SData DATA_SYSTEM
                    (t "Article title: " ++ headline ++ NL ++ NL ++ t "Content: " ++ firstn 1500 content) in
  let! a := alloc (ODict [(t "headline", PStr headline); (t "source", PStr source);
                          (t "summary", PStr summary)]) in
  do! py_append articles (PRef a) in
  log SData (t "  " ++ E_CHECK ++ t " " ++ firstn 80 headline).

(** [data_agent] *)
Definition data_agent (svc : services) (topic : text) : M pv :=
  do! log SData (t "[Data Agent] " ++ E_SEARCH ++ t " Searching news for: '" ++ topic ++ t "' ...") in
  do! record (ESearch topic MAX_ARTICLES) in
  let! raw_results := lift (tavily_search svc topic MAX_ARTICLES) in
  match raw_results with
  | [] =>
    do! log SData (t "[Data Agent] " ++ E_WARN ++ t "  No results returned from Tavily.") in
    let! l := alloc (OList []) in ret (PRef l)
  | _ =>
    let! articles := alloc (OList []) in
    do! iterM (data_item svc articles) (firstn MAX_ARTICLES raw_results) in
    ret (PRef articles)
  end.

Definition PARSE_SENTINEL : text := t "Unable to parse structured output.".

(** The [try: _parse_json(raw) except (json.JSONDecodeError, ValueError)]
    block each structured stage inlines, with that stage's fallback. *)
Definition extract_with (fallback : text -> json) (raw : text) : res json :=
  match _parse_json raw with
  | Ok v => Ok v
  | Exc e => if is_value_error (exc_kind_of e) then Ok (fallback raw) else Exc e
  end.

Definition trend_fallback (raw : text) : json :=
  JObj [(t "trends", JArr [JStr raw]); (t "sentiment_shifts", JArr [JStr PARSE_SENTINEL])].

Definition strategy_fallback (raw : text) : json :=
  JObj [(t "opportunities", JArr [JStr raw]); (t "recommendations", JArr [JStr PARSE_SENTINEL])].

Definition risk_fallback (raw : text) : json :=
  JObj [(t "risks", JArr [JStr raw]); (t "weak_signals", JArr [JStr PARSE_SENTINEL]);
        (t "uncertainties", JArr [JStr PARSE_SENTINEL])].

Definition trend_extract := extract_with trend_fallback.
Definition strategy_extract := extract_with strategy_fallback.
Definition risk_extract := extract_with risk_fallback.

(** [result.get(key, [])] followed by a [for] over it: the default [[]] is
    a fresh list. *)
Definition get_items (v : pv) (key : text) : M (list pv) :=
  let! d := alloc (OList []) in
  let! x := py_get v key (PRef d) in
  py_iter x.

(** [for i, x in enumerate(items, 1): log(f"{prefix}{i}: {x}")] *)
Definition log_enum (tag : stage) (prefix : text) (items : list pv) : M unit :=
  iter_enum (fun i x => log tag (prefix ++ nat_text i ++ t ": " ++ py_format x)) 1%nat items.

(** [f"- {x}"] lines joined by newlines *)
Definition bullets (items : list pv) : text :=
  join NL (map (fun x => t "- " ++ py_format x) items).

Definition TREND_SYSTEM : text :=
  tj "You are a market research analyst specialising in trend detection. Return ONLY valid JSON with two keys: 'trends' (list of 3 strings) and 'sentiment_shifts' (list of strings describing sentiment changes). No markdown, no code fences.".

Definition article_line (a : pv) : M text :=
  let! src := py_getitem a (t "source") in
  let! hd := py_getitem a (t "headline") in
  let! sm := py_getitem a (t "summary") in
  ret (t "- [" ++ py_format src ++ t "] " ++ py_format hd ++ t ": " ++ py_format sm).

(** [trend_agent] *)
Definition trend_agent (svc : services) (articles : pv) : M pv :=
  do! log STrend (t "[Trend Agent] " ++ E_CHART ++ t " Detecting trends and sentiment shifts ...") in
  let! arts := py_iter articles in
  let! lines := mapM article_line arts in
  let brief := join NL lines in
  let! raw := _chat svc STrend TREND_SYSTEM
                (t "News summaries:" ++ NL ++ brief ++ NL ++ NL ++
                 t "Identify 3 major market trends and any notable sentiment shifts.") in
  let! v := lift (trend_extract raw) in
  let! result := alloc_json v in
  let! ts := get_items result (t "trends") in
  do! log_enum STrend (t "  Trend ") ts in
  ret result.

Definition STRATEGY_SYSTEM : text :=
  tj "You are a senior business strategist. Return ONLY valid JSON with two keys: 'opportunities' (list of 3 business opportunity strings) and 'recommendations' (list of 3 strategic recommendation strings). No markdown, no code fences.".

(** [strategy_agent] *)
Definition strategy_agent (svc : services) (trend_data : pv) : M pv :=
  do! log SStrategy (t "[Strategy Agent] " ++ E_BULB ++ t " Generating strategic opportunities ...") in
  let! ts := get_items trend_data (t "trends") in
  let! ss := get_items trend_data (t "sentiment_shifts") in
  let! raw := _chat svc SStrategy STRATEGY_SYSTEM
                (t "Market Trends:" ++ NL ++ bullets ts ++ NL ++ NL ++
                 t "Sentiment Shifts:" ++ NL ++ bullets ss ++ NL ++ NL ++
                 t "Generate concrete business opportunities and strategic recommendations.") in
  let! v := lift (strategy_extract raw) in
  let! result := alloc_json v in
  let! os := get_items result (t "opportunities") in
  do! log_enum SStrategy (t "  Opportunity ") os in
  ret result.

Definition RISK_SYSTEM : text :=
  tj "You are a risk analyst specialising in emerging market threats. Return ONLY valid JSON with three keys: 'risks' (list of 3 market risk strings), 'weak_signals' (list of 2 early warning signals), and 'uncertainties' (list of 2 major uncertainty factors). No markdown, no code fences.".

(** [risk_agent] *)
Definition risk_agent (svc : services) (trend_data strategy_data : pv) : M pv :=
  do! log SRisk (t "[Risk Agent] " ++ E_WARN ++ t "  Identifying risks and weak signals ...") in
  let! ts := get_items trend_data (t "trends") in
  let! rs := get_items strategy_data (t "recommendations") in
  let! raw := _chat svc SRisk RISK_SYSTEM
                (t "Market Trends:" ++ NL ++ bullets ts ++ NL ++ NL ++
                 t "Proposed Strategies:" ++ NL ++ bullets rs ++ NL ++ NL ++
                 t "Identify the key risks, weak signals, and uncertainties.") in
  let! v := lift (risk_extract raw) in
  let! result := alloc_json v in
  let! ks := get_items result (t "risks") in
  do! log_enum SRisk (t "  Risk ") ks in
  ret result.

Definition VOICE_SYSTEM : text :=
  t "You are a professional radio broadcaster. Convert the market intelligence report into a concise 60-second verbal briefing. Use natural, spoken language.".

(** [voice_agent] *)
Definition voice_agent (svc : services) (report_text : text) : M text :=
  do! log SVoice (t "[Voice Agent] " ++ E_MIC ++ t "  Writing voice script ...") in
  _chat svc SVoice VOICE_SYSTEM report_text.

(* ------------------------------------------------------------------ *)
(** ** app.py *)

(** [emit(msg)] of [_run_pipeline] *)
Definition emit (tag : stage) (msg : text) : M unit := log tag msg.

(** Lines 67-90 of [_run_pipeline]: the optional Voice stage, the report
    and the [done] event. *)
Definition pipeline_tail (svc : services) (topic : text) (include_voice : bool)
    (articles trends strategy risks : pv) : M unit :=
  let! voice_script :=
    if include_voice then
      do! emit SVoice (E_MIC ++ t "  [Voice Agent] Writing broadcast script...") in
      let! d1 := alloc (OList []) in
      let! tr := py_get trends (t "trends") (PRef d1) in
      let! j1 := py_join (t " | ") tr in
      let! d2 := alloc (OList []) in
      let! op := py_get strategy (t "opportunities") (PRef d2) in
      let! j2 := py_join (t "; ") op in
      let! d3 := alloc (OList []) in
      let! rk := py_get risks (t "risks") (PRef d3) in
      let! j3 := py_join (t "; ") rk in
      let brief :=
        t "Market Intelligence on '" ++ topic ++ t "': " ++ j1 ++ t ". " ++
        t "Opportunities: " ++ j2 ++ t ". " ++ t "Key Risks: " ++ j3 in
      let! script := voice_agent svc brief in
      ret (PStr script)
    else ret PNone in
  let! report := alloc (ODict [(t "topic", PStr topic); (t "articles", articles);
                               (t "trends", trends); (t "strategy", strategy);
                               (t "risks", risks); (t "voice_script", voice_script)]) in
  do! emit SReport (E_DONE ++ t " Pipeline complete.") in
  let! payload := py_dumps (PRef report) in
  record (EPut SReport (Some (_sse (t "done") payload))).

(** The body of the [try] block of [_run_pipeline]. *)
Definition pipeline_body (svc : services) (topic : text) (include_voice : bool) : M unit :=
  do! emit SPipeline (E_ROCKET ++ t " Pipeline started for topic: '" ++ topic ++ t "'") in
  do! emit SData (E_SEARCH ++ t " [Data Agent] Searching for recent news...") in
  let! articles := data_agent svc topic in
  let! empty := py_is_empty_list articles in
  if empty then
    record (EPut SPipeline (Some (_sse (t "error") (t "No news articles retrieved. Pipeline aborted."))))
  else
    do! emit STrend (E_CHART ++ t " [Trend Agent] Detecting market trends and sentiment shifts...") in
    let! trends := trend_agent svc articles in
    do! emit SStrategy (E_BULB ++ t " [Strategy Agent] Generating strategic opportunities...") in
    let! strategy := strategy_agent svc trends in
    do! emit SRisk (E_WARN ++ t "  [Risk Agent] Identifying risks and weak signals...") in
    let! risks := risk_agent svc trends strategy in
    pipeline_tail svc topic include_voice articles trends strategy risks.

(** [_run_pipeline]: [try] / [except Exception as exc] / [finally]. *)
Definition _run_pipeline (svc : services) (topic : text) (include_voice : bool) : M unit :=
  fun s =>
    let '(r, s1) := pipeline_body svc topic include_voice s in
    let s2 :=
      match r with
      | Ok _ => s1
      | Exc e => snd (record (EPut SPipeline
                               (Some (_sse (t "error") (t "Pipeline error: " ++ exc_msg e)))) s1)
      end in
    record (EPut SPipeline None) s2.

(** The writes [_run_pipeline] makes to the run's queue, in order. *)
Fixpoint queue_writes (tr : list effect) : list (option sse) :=
  match tr with
  | [] => []
  | EPut _ item :: r => item :: queue_writes r
  | _ :: r => queue_writes r
  end.

Definition init_state : state := St ∅ 0%N [].

(** The trace of a whole run, from a fresh interpreter state. *)
Definition run_trace (svc : services) (topic : text) (include_voice : bool) : list effect :=
  st_trace (snd (_run_pipeline svc topic include_voice init_state)).

(** The digits before the exponent of a number lexeme. *)
Fixpoint mantissa_digits (lex : text) : text :=
  match lex with
  | [] => []
  | c :: r => if (c =? 101) || (c =? 69) then []
              else if is_digit c then c :: mantissa_digits r else mantissa_digits r
  end.

(** [bool(x)] of a decoded JSON value; [NaN] and the infinities have no
    digits and are true. *)
Definition json_truthy (v : json) : bool :=
  match v with
  | JNull => false
  | JBool b => b
  | JNum lex => match mantissa_digits lex with
                | [] => true
                | ds => negb (forallb (fun c => c =? 48) ds)
                end
  | JStr s => negb (bool_decide (s = []))
  | JArr xs => negb (bool_decide (xs = []))
  | JObj kvs => negb (bool_decide (kvs = []))
  end.

Definition json_type_name (v : json) : text :=
  match v with
  | JNull => t "NoneType" | JBool _ => t "bool" | JNum _ => t "number"
  | JStr _ => t "str" | JArr _ => t "list" | JObj _ => t "dict"
  end.

Record response := Response { status : Z; body : json }.

(** The module-level [_runs] table and the pipeline threads started so far
    (run id, topic, include_voice). *)
Record server := Server {
  runs : gmap text (list (option sse));
  threads : list (text * text * bool) }.

(** [start_run] (app.py, lines 108-122): [data] is the request body as
    [request.get_json(force=True)] decoded it and [fresh_id] the value
    [str(uuid.uuid4())] returns.  Not modelled: a body that does not decode,
    which [get_json] refuses with [BadRequest] (400) before line 110, and a
    [RuntimeError] from [t.start()], raised after [_runs[run_id]] is set;
    the thread is taken to start. *)
Definition start_run (data : json) (fresh_id : text) (sv : server) : res response * server :=
  match data with
  | JObj kvs =>
    let topic_v := match dict_lookup (t "topic") kvs with Some v => v | None => JStr [] end in
    match topic_v with
    | JStr raw_topic =>
      let topic := py_strip raw_topic in
      match topic with
      | [] => (Ok (Response 400 (JObj [(t "error", JStr (t "topic is required"))])), sv)
      | _ =>
        let include_voice :=
          json_truthy (match dict_lookup (t "include_voice") kvs with
                       | Some v => v | None => JBool true end) in
        (Ok (Response 200 (JObj [(t "run_id", JStr fresh_id)])),
         Server (<[fresh_id := []]> (runs sv)) (threads sv ++ [(fresh_id, topic, include_voice)]))
      end
    | v => (Exc (Exn AttributeError (t "'" ++ json_type_name v ++ t "' object has no attribute 'strip'")), sv)
    end
  | v => (Exc (Exn AttributeError (t "'" ++ json_type_name v ++ t "' object has no attribute 'get'")), sv)
  end.

(** One run's queue between the pipeline thread (producer) and the
    [generate] loop of [stream] (consumer): the writes the producer has
    still to make, the queue contents, the messages yielded so far, and
    whether the loop has left on the sentinel. *)
Record channel := Chan {
  ch_pending : list (option sse);
  ch_queue : list (option sse);
  ch_seen : list sse;
  ch_closed : bool }.

Inductive chan_step : channel -> channel -> Prop :=
  | step_put x p q o c :
      chan_step (Chan (x :: p) q o c) (Chan p (q ++ [x]) o c)
  | step_yield p m q o :
      chan_step (Chan p (Some m :: q) o false) (Chan p q (o ++ [m]) false)
  | step_close p q o :
      chan_step (Chan p (None :: q) o false) (Chan p q o true).

Inductive chan_reachable (ws : list (option sse)) : channel -> Prop :=
  | reach_init : chan_reachable ws (Chan ws [] [] false)
  | reach_step c c' : chan_reachable ws c -> chan_step c c' -> chan_reachable ws c'.

(* ------------------------------------------------------------------ *)
(** ** Observations on a run's trace *)

(** The stage an effect belongs to. *)
Definition effect_stage (e : effect) : stage :=
  match e with
  | EPut tag _ => tag
  | ESearch _ _ => SData
  | EChat tag _ => tag
  end.

(** Is the effect a queue write of an SSE event of the given kind? *)
Definition is_event (kind : string) (e : effect) : bool :=
  match e with
  | EPut _ (Some m) => bool_decide (sse_event m = t kind)
  | _ => false
  end.

Definition count_events (kind : string) (tr : list effect) : nat :=
  length (filter (fun e => is_event kind e = true) tr).

Definition is_chat (e : effect) : bool :=
  match e with EChat _ _ => true | _ => false end.

(** The queue writes of a run whose search returns no hit. *)
Definition empty_search_trace (topic : text) : list effect :=
  [EPut SPipeline (Some (_sse (t "log") (E_ROCKET ++ t " Pipeline started for topic: '" ++ topic ++ t "'")));
   EPut SData (Some (_sse (t "log") (E_SEARCH ++ t " [Data Agent] Searching for recent news...")));
   EPut SData (Some (_sse (t "log") (t "[Data Agent] " ++ E_SEARCH ++ t " Searching news for: '" ++ topic ++ t "' ...")));
   ESearch topic MAX_ARTICLES;
   EPut SData (Some (_sse (t "log") (t "[Data Agent] " ++ E_WARN ++ t "  No results returned from Tavily.")));
   EPut SPipeline (Some (_sse (t "error") (t "No news articles retrieved. Pipeline aborted.")));
   EPut SPipeline None].

(** A text of [n] opening brackets. *)
Definition deep_brackets (n : positive) : text := Pos.iter (cons 91) [] n.

(** The response [start_run] gives for a missing or blank topic. *)
Definition topic_required : response :=
  Response 400 (JObj [(t "error", JStr (t "topic is required"))]).

(** The value shape the Trend, Strategy and Risk stages ask for: an
    object whose members are lists of strings, as an item list. *)
Definition shape_json (d : list (text * list text)) : json :=
  JObj (map (fun '(k, xs) => (k, JArr (map JStr xs))) d).

(** A code point a Python [str] can hold. *)
Definition code_point_ok (c : Z) : bool := (0 <=? c) && (c <=? 1114111).

(** No high surrogate directly followed by a low surrogate. *)
Fixpoint no_surrogate_pair (s : text) : bool :=
  match s with
  | c :: ((c' :: _) as r) => negb (is_high_surrogate c && is_low_surrogate c') && no_surrogate_pair r
  | _ => true
  end.

Definition str_ok (s : text) : bool := forallb code_point_ok s && no_surrogate_pair s.

(** The text after a code point's escape does not start with a [\uXXXX]
    escape of a low surrogate. *)
Definition no_low_escape (r : text) : Prop :=
  forall a b c d r3, r = 92 :: 117 :: a :: b :: c :: d :: r3 ->
  exists u2, hex4 a b c d = Some u2 /\ is_low_surrogate u2 = false.

(** One member of an object of the expected shape, as [json.dumps] writes it. *)
Definition member_text (kx : text * list text) : text :=
  encode_str (fst kx) ++ t ": " ++ json_dumps (JArr (map JStr (snd kx))).

(** [m] relates its start and end states by [R] on every run. *)
Definition preserves (R : state -> state -> Prop) {A} (m : M A) : Prop :=
  forall s r s', m s = (r, s') -> R s s'.

(** The trace only grows, by effects satisfying [P]. *)
Definition trace_ext (P : effect -> Prop) (s s' : state) : Prop :=
  exists ext, st_trace s' = st_trace s ++ ext /\ Forall P ext.

(** Every location at or past [st_next] is free. *)
Definition heap_wf (s : state) : Prop :=
  forall l, (st_next s <= l)%N -> st_heap s !! l = None.

(** Every object of [s] is still there, with the same contents, in [s']. *)
Definition unchanged (s s' : state) : Prop :=
  forall l o, st_heap s !! l = Some o -> st_heap s' !! l = Some o.

Definition frame (s s' : state) : Prop :=
  heap_wf s -> heap_wf s' /\ unchanged s s' /\ (st_next s <= st_next s')%N.

(** A stage's result is an object allocated after the state [s]. *)
Definition new_value (s : state) (r : res pv) : Prop :=
  forall v, r = Ok v -> exists l, v = PRef l /\ (st_next s <= l)%N.

Definition no_sentinel (e : effect) : Prop :=
  match e with EPut _ None => False | _ => True end.

Definition terminal (e : effect) : Prop :=
  match e with
  | EPut _ (Some m) => sse_event m = t "done" \/ sse_event m = t "error"
  | _ => False
  end.

(** When [m] returns normally, its last effect satisfies [P]. *)
Definition ends_with (P : effect -> Prop) {A} (m : M A) : Prop :=
  forall s a s', m s = (Ok a, s') -> exists pre e, st_trace s' = pre ++ [e] /\ P e.

(** The channel's contents are always the producer's writes in order:
    the messages yielded, [None] once the loop has left, the queue, then
    the writes still to come. *)
Definition chan_inv (ws : list (option sse)) (c : channel) : Prop :=
  (ch_closed c = false /\ map Some (ch_seen c) ++ ch_queue c ++ ch_pending c = ws) \/
  (ch_closed c = true /\ map Some (ch_seen c) ++ None :: ch_queue c ++ ch_pending c = ws).

(** The [done] payload is the [json.dumps] of a dict whose [voice_script]
    is [null]. *)
Definition done_report_without_voice (m : sse) : Prop :=
  exists ys, sse_data m = escape_newlines (json_dumps (JObj ys))
             /\ dict_lookup (t "voice_script") ys = Some JNull.

Definition novoice_effect (e : effect) : Prop :=
  effect_stage e <> SVoice /\
  match e with
  | EPut _ (Some m) => sse_event m = t "done" -> done_report_without_voice m
  | _ => True
  end.

(** Two heap values whose objects match: a key of a dict and its decoded
    entry. *)
Definition entry_rel (kx : text * pv) (ky : text * json) : Prop :=
  fst kx = fst ky /\ (snd kx = PNone -> snd ky = JNull).

(** The allocation counter never goes back. *)
Definition next_le (s s' : state) : Prop := (st_next s <= st_next s')%N.

(** The article dict the Data stage builds for a hit, with the summary the
    reasoning service gave. *)
Definition article_of (h : heap) (x : pv) (item : hit) : Prop :=
  exists a summary,
    x = PRef a /\
    h !! a = Some (ODict [(t "headline", PStr (opt_default (hit_title item) (t "No title")));
                         (t "source", PStr (opt_default (hit_url item) (t "Unknown source")));
                         (t "summary", PStr summary)]).

(** A search service returning seven hits, and a reasoning service that
    always answers. *)
Definition sample_hits : list hit :=
  map (fun c => Hit (Some [c]) (Some (t "https://news.example/")) None (Some (t "snippet")))
      [65; 66; 67; 68; 69; 70; 71].

Definition sample_services : services :=
  Services (fun _ _ => Ok sample_hits) (fun _ => Ok (t " One-sentence summary. ")).

(** An articles list (0) whose first article (1) has all three keys,
    with values of any type, and whose second (2) lacks [source]. *)
Definition incomplete_articles_state : state :=
  St (<[0%N := OList [PRef 1; PRef 2]]>
     (<[1%N := ODict [(t "headline", PNum (t "7")); (t "source", PNone); (t "summary", PStr [])]]>
     (<[2%N := ODict [(t "headline", PStr (t "Chip demand")); (t "summary", PNone)]]>
     (<[3%N := ODict []]> ∅))))
     4 [].

(** A state as the later stages find it: the articles list (0) holding one
    article dict (1), a trend dict (2) whose lists are 3 and 4, a strategy
    dict (5) and a risk dict (6). *)
Definition staged_state : state :=
  St (<[0%N := OList [PRef 1]]>
     (<[1%N := ODict [(t "headline", PStr (t "Chip demand rises")); (t "source", PStr (t "https://news.example/"));
                      (t "summary", PStr (t "Demand for chips rose."))]]>
     (<[2%N := ODict [(t "trends", PRef 3); (t "sentiment_shifts", PRef 4)]]>
     (<[3%N := OList [PStr (t "AI chips")]]>
     (<[4%N := OList []]>
     (<[5%N := ODict [(t "opportunities", PRef 4); (t "recommendations", PRef 4)]]>
     (<[6%N := ODict [(t "risks", PRef 4); (t "weak_signals", PRef 4); (t "uncertainties", PRef 4)]]>
      ∅)))))))
     7 [].

(** [m] returns normally from [s], in a state and with a value
    satisfying [Q]. *)
Definition wp {A} (m : M A) (Q : A -> state -> Prop) (s : state) : Prop :=
  match m s with
  | (Ok a, s') => Q a s'
  | (Exc _, _) => False
  end.

(** A reasoning-service answer the extractor cannot decode: [json.loads]
    raises a [JSONDecodeError] or a [ValueError]. *)
Definition malformed (raw : text) : Prop :=
  exists e, _parse_json raw = Exc e /\ is_value_error (exc_kind_of e) = true.

(** No surrogate code point (U+D800..U+DFFF): [print] writes such a text to
    a UTF-8 standard output without raising. *)
Definition no_surrogate (s : text) : bool :=
  forallb (fun c => negb ((55296 <=? c) && (c <=? 57343))) s.

(** At most 100 opening brackets: [json.loads] nests at most 100 levels
    deep on it, far below the recursion limit of any CPython. *)
Definition shallow (s : text) : bool :=
  Nat.leb (length (filter (fun c => (c =? 91) || (c =? 123)) s)) 100.

(** An effect that is neither an [error] nor a [done] event. *)
Definition progress_effect (e : effect) : Prop :=
  is_event "error" e = false /\ is_event "done" e = false.

Definition run_frame (s s' : state) : Prop := trace_ext progress_effect s s' /\ frame s s'.

(** Heap shapes: a list of strings; a dict of such lists under the given
    keys; the list of article dicts of the Data stage. *)
Definition str_list (h : heap) (v : pv) : Prop :=
  exists l ss, v = PRef l /\ h !! l = Some (OList (map PStr ss)).

Definition str_dict (h : heap) (keys : list text) (v : pv) : Prop :=
  exists l vs, v = PRef l /\ h !! l = Some (ODict (combine keys vs))
               /\ Forall2 (fun _ x => str_list h x) keys vs.

Definition article_dict (h : heap) (x : pv) : Prop :=
  exists a hd src sm,
    x = PRef a /\ h !! a = Some (ODict [(t "headline", PStr hd); (t "source", PStr src);
                                       (t "summary", PStr sm)]).

(** The keys [render_report] reads from an article, in that order. *)
Definition ARTICLE_KEYS : list text := [t "headline"; t "source"; t "summary"].

(** The first of [keys] that the dict [kvs] lacks. *)
Fixpoint first_missing (keys : list text) (kvs : list (text * pv)) : option text :=
  match keys with
  | [] => None
  | k :: r => match dict_lookup k kvs with None => Some k | Some _ => first_missing r kvs end
  end.

(** An article dict with the three keys the report reads (any values). *)
Definition full_article (h : heap) (x : pv) : Prop :=
  exists a kvs, x = PRef a /\ h !! a = Some (ODict kvs) /\ first_missing ARTICLE_KEYS kvs = None.

Definition article_list (h : heap) (v : pv) : Prop :=
  exists l xs, v = PRef l /\ h !! l = Some (OList xs) /\ xs <> [] /\ Forall (article_dict h) xs.

(** The keys the Trend, Strategy and Risk stages ask for. *)
Definition TREND_KEYS : list text := [t "trends"; t "sentiment_shifts"].
Definition STRATEGY_KEYS : list text := [t "opportunities"; t "recommendations"].
Definition RISK_KEYS : list text := [t "risks"; t "weak_signals"; t "uncertainties"].

(** The [voice_script] value of [_run_pipeline] (app.py, lines 67-81), the
    first step of [pipeline_tail]. *)
Definition tail_voice (svc : services) (topic : text) (include_voice : bool)
    (trends strategy risks : pv) : M pv :=
  if include_voice then
    do! emit SVoice (E_MIC ++ t "  [Voice Agent] Writing broadcast script...") in
    let! d1 := alloc (OList []) in
    let! tr := py_get trends (t "trends") (PRef d1) in
    let! j1 := py_join (t " | ") tr in
    let! d2 := alloc (OList []) in
    let! op := py_get strategy (t "opportunities") (PRef d2) in
    let! j2 := py_join (t "; ") op in
    let! d3 := alloc (OList []) in
    let! rk := py_get risks (t "risks") (PRef d3) in
    let! j3 := py_join (t "; ") rk in
    let brief :=
      t "Market Intelligence on '" ++ topic ++ t "': " ++ j1 ++ t ". " ++
      t "Opportunities: " ++ j2 ++ t ". " ++ t "Key Risks: " ++ j3 in
    let! script := voice_agent svc brief in
    ret (PStr script)
  else ret PNone.

(** From [s] to [s'] the run writes progress effects only, then one [done]
    event of the Report stage. *)
Definition ends_done (s s' : state) : Prop :=
  exists ext m, st_trace s' = st_trace s ++ ext ++ [EPut SReport (Some m)]
                /\ Forall progress_effect ext /\ sse_event m = t "done".

(** The sample search service with a reasoning service that answers text
    that is not JSON, or the JSON list [[1]]. *)
Definition garbled_services : services :=
  Services (fun _ _ => Ok sample_hits) (fun _ => Ok (t "not json")).

Definition list_answer_services : services :=
  Services (fun _ _ => Ok sample_hits) (fun _ => Ok (t "[1]")).

(* ------------------------------------------------------------------ *)
(** ** app.py: the [stream] route *)

(** What [stream] (app.py, lines 125-142) answers: a plain response, or a
    response streaming [generate()] over the run's queue. *)
Inductive stream_response :=
  | PlainResponse (status_code : Z) (text_body : text)
  | EventStream (run_id : text) (mimetype : text) (headers : list (text * text)).

Definition stream (run_id : text) (sv : server) : stream_response :=
  match runs sv !! run_id with
  | None => PlainResponse 404 (t "Unknown run_id")
  | Some _ => EventStream run_id (t "text/event-stream")
                [(t "Cache-Control", t "no-cache"); (t "X-Accel-Buffering", t "no")]
  end.

(** The [generate] loop of [stream] over the items [q.get()] returns, in
    order: the messages it yields, whether it has left the loop on the
    sentinel (when the items run out first, [q.get()] blocks), and the
    server afterwards ([_runs.pop(run_id, None)] on the sentinel). *)
Fixpoint generate (run_id : text) (items : list (option sse)) (sv : server)
    : list sse * bool * server :=
  match items with
  | [] => ([], false, sv)
  | None :: _ => ([], true, Server (delete run_id (runs sv)) (threads sv))
  | Some m :: r => let '(ys, closed, sv') := generate run_id r sv in (m :: ys, closed, sv')
  end.

(* ------------------------------------------------------------------ *)
(** ** market_intel.py: the command-line report *)

Definition E_NEWS : text := [128240].

(** ["─" * 60] *)
Definition SEP : text := repeat 9472 60.

(** ["═" * n] *)
Definition DOUBLE_BAR (n : nat) : text := repeat 9552 n.

(** [f"{s:^w}"]: the padding is split with the odd space on the right;
    a longer text is not cut. *)
Definition center (w : nat) (s : text) : text :=
  let pad := (w - length s)%nat in
  repeat 32 (Nat.div pad 2) ++ s ++ repeat 32 (pad - Nat.div pad 2).

(** [f"  {mark} {x}"] *)
Definition report_item (mark : text) (x : pv) : text := t "  " ++ mark ++ t " " ++ py_format x.

(** The four lines of one article. *)
Definition article_block (a : pv) : M (list text) :=
  let! hd := py_getitem a (t "headline") in
  let! src := py_getitem a (t "source") in
  let! sm := py_getitem a (t "summary") in
  ret [t "  " ++ [8226] ++ t " " ++ py_format hd; t "    Source : " ++ py_format src;
       t "    Summary: " ++ py_format sm; []].

(** [render_report] (market_intel.py, lines 322-392); [now] is the text
    [datetime.datetime.now().strftime("%Y-%m-%d %H:%M")] gives.  The lines
    are computed in the order the source appends them; building the list
    itself has no effect. *)
Definition render_report (topic now : text) (articles trends strategy risks : pv)
    (voice_script : option text) : M text :=
  let header :=
    [[]; [9556] ++ DOUBLE_BAR 58 ++ [9559];
     [9553] ++ center 58 (t "MARKET INTELLIGENCE REPORT") ++ [9553];
     [9553] ++ center 58 (t "Topic: " ++ topic) ++ [9553];
     [9553] ++ center 58 now ++ [9553];
     [9562] ++ DOUBLE_BAR 58 ++ [9565];
     []; E_NEWS ++ t " LATEST NEWS"; SEP] in
  let! arts := py_iter articles in
  let! news := mapM article_block arts in
  let! ts := get_items trends (t "trends") in
  let! ss := get_items trends (t "sentiment_shifts") in
  let! os := get_items strategy (t "opportunities") in
  let! rs := get_items strategy (t "recommendations") in
  let! ks := get_items risks (t "risks") in
  let! ws := get_items risks (t "weak_signals") in
  let! us := get_items risks (t "uncertainties") in
  let voice :=
    match voice_script with
    | Some ((_ :: _) as v) => [E_MIC ++ t "  VOICE BRIEFING"; SEP; v; []]
    | _ => []
    end in
  ret (join NL
    (header ++ concat news ++
     [E_CHART ++ t " MARKET TRENDS"; SEP] ++ map (report_item [8226]) ts ++
     [[]; t "  Sentiment Shifts:"] ++ map (report_item [8627]) ss ++ [[]] ++
     [E_BULB ++ t " STRATEGIC OPPORTUNITIES"; SEP] ++ map (report_item [10022]) os ++
     [[]; t "  Recommendations:"] ++ map (report_item [8594]) rs ++ [[]] ++
     [E_WARN ++ t "  RISKS & SIGNALS"; SEP; t "  Market Risks:"] ++ map (report_item [10007]) ks ++
     [[]; t "  Weak Signals:"] ++ map (report_item (t "~")) ws ++
     [[]; t "  Uncertainties:"] ++ map (report_item (t "?")) us ++ [[]] ++
     voice ++
     [DOUBLE_BAR 60; t "  End of Report"; DOUBLE_BAR 60; []])).

Definition is_put (e : effect) : bool := match e with EPut _ _ => true | _ => false end.

(** A stage called without an [emit] callback, as the command line calls
    them: its [log] only prints, so the queue writes it would make are
    not effects of the call. *)
Definition silent {A} (m : M A) : M A :=
  fun s => let '(r, s') := m s in
           (r, St (st_heap s') (st_next s')
                  (st_trace s ++ List.filter (fun e => negb (is_put e))
                                              (skipn (length (st_trace s)) (st_trace s')))).

(** [run_pipeline] (market_intel.py, lines 398-437), the command-line entry
    point; [now] is the time [render_report] reads.  Its [print] calls are
    not modelled. *)
Definition run_pipeline (svc : services) (now topic : text) (include_voice : bool) : M text :=
  let! articles := silent (data_agent svc topic) in
  let! empty := py_is_empty_list articles in
  if empty then ret (t "Pipeline aborted: no news articles retrieved.")
  else
    let! trends := silent (trend_agent svc articles) in
    let! strategy := silent (strategy_agent svc trends) in
    let! risks := silent (risk_agent svc trends strategy) in
    let! voice_script :=
      if include_voice then
        let! d1 := alloc (OList []) in
        let! tr := py_get trends (t "trends") (PRef d1) in
        let! j1 := py_join (t " | ") tr in
        let! d2 := alloc (OList []) in
        let! op := py_get strategy (t "opportunities") (PRef d2) in
        let! j2 := py_join (t "; ") op in
        let! d3 := alloc (OList []) in
        let! rk := py_get risks (t "risks") (PRef d3) in
        let! j3 := py_join (t "; ") rk in
        let brief :=
          t "Market Intelligence on '" ++ topic ++ t "': " ++ j1 ++ t ". " ++
          t "Opportunities: " ++ j2 ++ t ". " ++ t "Key Risks: " ++ j3 in
        let! script := silent (voice_agent svc brief) in
        ret (Some script)
      else ret None in
    render_report topic now articles trends strategy risks voice_script.

(** A printable ASCII character. *)
Definition printable (c : Z) : bool := (32 <=? c) && (c <=? 126).

(** Every number lexeme of the value is printable ASCII (the lexemes the
    decoder produces are). *)
Fixpoint lexemes_printable (v : json) : bool :=
  match v with
  | JNum lex => forallb printable lex
  | JArr xs => forallb lexemes_printable xs
  | JObj kvs => forallb (fun kv => lexemes_printable (snd kv)) kvs
  | _ => true
  end.

(* ================================================================== *)
(** * Proofs *)

(** Tests of the JSON decoder and encoder. *)
Example parse_json_fenced :
  _parse_json (tj " ```json {'a': [1, 'x\n'], 'b': {}, 'a': -0.5e3} ``` ") =
  Ok (JObj [(t "a", JNum (t "-0.5e3")); (t "b", JObj [])]).
Proof. vm_compute. reflexivity. Qed.

Example parse_json_surrogates :
  _parse_json (tj "['\ud83d\ude80\ud800x', 01]") =
  Exc (decode_error "Expecting ',' delimiter").
Proof. vm_compute. reflexivity. Qed.

Example parse_json_pair :
  _parse_json (tj "['\ud83d\ude80\ud800x']") = Ok (JArr [JStr [128640; 55296; 120]]).
Proof. vm_compute. reflexivity. Qed.

Example dumps_test :
  json_dumps (JObj [(t "k", JArr [JStr [34; 233; 128640]; JNull])]) =
  tj "{'k': ['\'\u00e9\ud83d\ude80', null]}".
Proof. vm_compute. reflexivity. Qed.


Ltac run_cbv :=
  cbv beta iota zeta delta [bind ret raise record emit log lift alloc read
    py_is_empty_list py_iter st_trace st_heap st_next snd fst init_state].

Lemma lstrip_all_space (s : text) : forallb py_isspace s = true -> lstrip s = [].
Proof.
  induction s as [|c s IH]; simpl; [reflexivity|].
  intros H. apply andb_prop in H as [H1 H2]. rewrite H1. auto.
Qed.

Lemma py_strip_all_space (s : text) : forallb py_isspace s = true -> py_strip s = [].
Proof. intros H. unfold py_strip. rewrite (lstrip_all_space s H). reflexivity. Qed.

(** C6: a request whose topic is missing or empty is refused with the
    [400] response; the server state (run table, started threads) is left
    as it was, so no run id, no queue and no pipeline thread exist. *)
Theorem start_run_empty_topic (kvs : list (text * json)) (fresh_id : text) (sv : server) :
  dict_lookup (t "topic") kvs = None \/ dict_lookup (t "topic") kvs = Some (JStr []) ->
  start_run (JObj kvs) fresh_id sv = (Ok topic_required, sv).
Proof.
  intros [H | H]; unfold start_run; rewrite H; reflexivity.
Qed.

Lemma start_run_empty_topic_witness :
  (dict_lookup (t "topic") [(t "topic", JStr [])] = None \/
   dict_lookup (t "topic") [(t "topic", JStr [])] = Some (JStr [])) /\
  start_run (JObj [(t "topic", JStr [])]) (t "id-1") (Server ∅ []) = (Ok topic_required, Server ∅ []).
Proof.
  assert (H : dict_lookup (t "topic") [(t "topic", JStr [])] = None \/
              dict_lookup (t "topic") [(t "topic", JStr [])] = Some (JStr [])).
  { right. vm_compute. reflexivity. }
  split; [exact H | apply (start_run_empty_topic _ _ _ H)].
Defined.

(** C10: a topic made only of whitespace is stripped to the empty text and
    refused exactly like an empty topic. *)
Theorem start_run_blank_topic (kvs : list (text * json)) (s : text) (fresh_id : text) (sv : server) :
  dict_lookup (t "topic") kvs = Some (JStr s) ->
  forallb py_isspace s = true ->
  start_run (JObj kvs) fresh_id sv = (Ok topic_required, sv).
Proof.
  intros H Hs. unfold start_run. rewrite H, (py_strip_all_space s Hs). reflexivity.
Qed.

Lemma start_run_blank_topic_witness :
  dict_lookup (t "topic") [(t "topic", JStr [32; 9; 10; 12288])] = Some (JStr [32; 9; 10; 12288]) /\
  forallb py_isspace [32; 9; 10; 12288] = true /\
  start_run (JObj [(t "topic", JStr [32; 9; 10; 12288])]) (t "id-1") (Server ∅ []) =
    (Ok topic_required, Server ∅ []).
Proof.
  assert (H1 : dict_lookup (t "topic") [(t "topic", JStr [32; 9; 10; 12288])] =
               Some (JStr [32; 9; 10; 12288])) by (vm_compute; reflexivity).
  assert (H2 : forallb py_isspace [32; 9; 10; 12288] = true) by (vm_compute; reflexivity).
  split; [exact H1 | split; [exact H2 | apply (start_run_blank_topic _ _ _ _ H1 H2)]].
Defined.

Lemma run_trace_empty_search (svc : services) (topic : text) (include_voice : bool) :
  tavily_search svc topic MAX_ARTICLES = Ok [] ->
  run_trace svc topic include_voice = empty_search_trace topic.
Proof.
  intros H. unfold run_trace, _run_pipeline, pipeline_body, data_agent.
  run_cbv. rewrite H. reflexivity.
Qed.



(* ------------------------------------------------------------------ *)
(** ** [json.loads] inverts [json.dumps] on the expected shape *)

Lemma hexval_hex_digit (n : Z) : 0 <= n < 16 -> hexval (hex_digit n) = Some n.
Proof.
  intros Hn. unfold hex_digit, hexval.
  destruct (Z.ltb_spec n 10).
  - replace ((48 <=? 48 + n) && (48 + n <=? 57)) with true
      by (symmetry; apply andb_true_intro; split; apply Z.leb_le; lia).
    f_equal. lia.
  - replace ((48 <=? 87 + n) && (87 + n <=? 57)) with false
      by (symmetry; apply andb_false_intro2, Z.leb_gt; lia).
    replace ((97 <=? 87 + n) && (87 + n <=? 102)) with true
      by (symmetry; apply andb_true_intro; split; apply Z.leb_le; lia).
    f_equal. lia.
Qed.

Lemma hex_digits_sum (u : Z) : 0 <= u < 65536 ->
  (u / 4096 mod 16) * 4096 + (u / 256 mod 16) * 256 + (u / 16 mod 16) * 16 + u mod 16 = u.
Proof.
  intros Hu.
  replace (u / 4096) with (u / 16 / 16 / 16) by (rewrite !Z.div_div by lia; reflexivity).
  replace (u / 256) with (u / 16 / 16) by (rewrite !Z.div_div by lia; reflexivity).
  pose proof (Z.div_mod u 16 ltac:(lia)). pose proof (Z.mod_pos_bound u 16 ltac:(lia)).
  set (a := u / 16) in *.
  pose proof (Z.div_mod a 16 ltac:(lia)). pose proof (Z.mod_pos_bound a 16 ltac:(lia)).
  set (b := a / 16) in *.
  pose proof (Z.div_mod b 16 ltac:(lia)). pose proof (Z.mod_pos_bound b 16 ltac:(lia)).
  set (c := b / 16) in *.
  assert (c < 16).
  { subst c b a. apply Z.div_lt_upper_bound; [lia|].
    apply Z.div_lt_upper_bound; [lia|]. apply Z.div_lt_upper_bound; lia. }
  assert (0 <= c).
  { subst c b a. apply Z.div_pos; [|lia]. apply Z.div_pos; [|lia]. apply Z.div_pos; lia. }
  rewrite (Z.mod_small c 16) by lia. lia.
Qed.

Lemma hex4_u_escape (u : Z) : 0 <= u < 65536 ->
  hex4 (hex_digit (u / 4096 mod 16)) (hex_digit (u / 256 mod 16))
       (hex_digit (u / 16 mod 16)) (hex_digit (u mod 16)) = Some u.
Proof.
  intros Hu. unfold hex4.
  rewrite !hexval_hex_digit by (apply Z.mod_pos_bound; lia).
  f_equal. apply hex_digits_sum; exact Hu.
Qed.

Lemma surrogate_split (c : Z) : 65536 <= c <= 1114111 ->
  is_high_surrogate (55296 + (c - 65536) / 1024 mod 1024) = true /\
  is_low_surrogate (56320 + (c - 65536) mod 1024) = true /\
  0 <= 55296 + (c - 65536) / 1024 mod 1024 < 65536 /\
  0 <= 56320 + (c - 65536) mod 1024 < 65536 /\
  join_surrogates (55296 + (c - 65536) / 1024 mod 1024) (56320 + (c - 65536) mod 1024) = c.
Proof.
  intros Hc.
  pose proof (Z.div_mod (c - 65536) 1024 ltac:(lia)).
  pose proof (Z.mod_pos_bound (c - 65536) 1024 ltac:(lia)).
  assert (0 <= (c - 65536) / 1024 < 1024)
    by (split; [apply Z.div_pos | apply Z.div_lt_upper_bound]; lia).
  rewrite (Z.mod_small ((c - 65536) / 1024)) by lia.
  unfold is_high_surrogate, is_low_surrogate, join_surrogates.
  repeat split; try lia; apply andb_true_intro; split; apply Z.leb_le; lia.
Qed.

Lemma scan_escape_single (a b c d u : Z) (r : text) :
  hex4 a b c d = Some u -> (is_high_surrogate u = true -> no_low_escape r) ->
  scanstring (92 :: 117 :: a :: b :: c :: d :: r) = cons_res u (scanstring r).
Proof.
  intros H Hn. simpl scanstring at 1. rewrite H.
  destruct (is_high_surrogate u) eqn:Eh; [|reflexivity].
  specialize (Hn eq_refl).
  destruct r as [|x1 [|x2 [|a2 [|b2 [|c2 [|d2 r3]]]]]]; try reflexivity.
  destruct ((x1 =? 92) && (x2 =? 117)) eqn:E; [|reflexivity].
  apply andb_prop in E as [E1 E2]. apply Z.eqb_eq in E1, E2. subst.
  destruct (Hn _ _ _ _ _ eq_refl) as [u2 [H2 H3]]. rewrite H2, H3. reflexivity.
Qed.

Lemma scan_escape_pair (a b c d a2 b2 c2 d2 hi lo : Z) (r : text) :
  hex4 a b c d = Some hi -> is_high_surrogate hi = true ->
  hex4 a2 b2 c2 d2 = Some lo -> is_low_surrogate lo = true ->
  scanstring (92 :: 117 :: a :: b :: c :: d :: 92 :: 117 :: a2 :: b2 :: c2 :: d2 :: r) =
  cons_res (join_surrogates hi lo) (scanstring r).
Proof.
  intros H1 Hh H2 Hl. simpl scanstring at 1. rewrite H1, Hh. simpl.
  rewrite H2, Hl. reflexivity.
Qed.

Lemma code_point_bounds (c : Z) : code_point_ok c = true -> 0 <= c <= 1114111.
Proof. unfold code_point_ok. intros H. apply andb_prop in H as [H1 H2]. lia. Qed.

Lemma scan_char (c : Z) (r : text) : code_point_ok c = true ->
  (is_high_surrogate c = true -> no_low_escape r) ->
  scanstring (ascii_escape_char c ++ r) = cons_res c (scanstring r).
Proof.
  intros Hc Hn. apply code_point_bounds in Hc.
  unfold ascii_escape_char.
  destruct ((32 <=? c) && (c <=? 126) && negb (c =? 92) && negb (c =? 34)) eqn:E1.
  { repeat rewrite andb_true_iff in E1. destruct E1 as [[[E1 E2] E3] E4].
    rewrite negb_true_iff in E3, E4. apply Z.leb_le in E1.
    simpl. rewrite E3, E4. destruct (Z.ltb_spec c 32); [lia|]. reflexivity. }
  destruct (Z.eqb_spec c 92); [subst; reflexivity|].
  destruct (Z.eqb_spec c 34); [subst; reflexivity|].
  destruct (Z.eqb_spec c 8); [subst; reflexivity|].
  destruct (Z.eqb_spec c 12); [subst; reflexivity|].
  destruct (Z.eqb_spec c 10); [subst; reflexivity|].
  destruct (Z.eqb_spec c 13); [subst; reflexivity|].
  destruct (Z.eqb_spec c 9); [subst; reflexivity|].
  destruct (Z.leb_spec 65536 c).
  - destruct (surrogate_split c ltac:(lia)) as [Hh [Hl [Bh [Bl Hj]]]].
    rewrite <- app_assoc. unfold u_escape at 1. simpl app.
    unfold u_escape.
    rewrite (scan_escape_pair _ _ _ _ _ _ _ _ _ _ r (hex4_u_escape _ Bh) Hh (hex4_u_escape _ Bl) Hl).
    rewrite Hj. reflexivity.
  - unfold u_escape. simpl app.
    apply scan_escape_single; [apply hex4_u_escape; lia | exact Hn].
Qed.

Lemma no_low_escape_char (c : Z) (r : text) : code_point_ok c = true ->
  is_low_surrogate c = false -> no_low_escape (ascii_escape_char c ++ r).
Proof.
  intros Hc Hl a b c1 d r3 Heq. apply code_point_bounds in Hc.
  unfold ascii_escape_char in Heq.
  destruct ((32 <=? c) && (c <=? 126) && negb (c =? 92) && negb (c =? 34)) eqn:E1.
  { repeat rewrite andb_true_iff in E1. destruct E1 as [[[E1 E2] E3] E4].
    rewrite negb_true_iff in E3. simpl in Heq. injection Heq as Hc92 _.
    subst c. discriminate E3. }
  destruct (Z.eqb_spec c 92); [simpl in Heq; discriminate Heq|].
  destruct (Z.eqb_spec c 34); [simpl in Heq; discriminate Heq|].
  destruct (Z.eqb_spec c 8); [simpl in Heq; discriminate Heq|].
  destruct (Z.eqb_spec c 12); [simpl in Heq; discriminate Heq|].
  destruct (Z.eqb_spec c 10); [simpl in Heq; discriminate Heq|].
  destruct (Z.eqb_spec c 13); [simpl in Heq; discriminate Heq|].
  destruct (Z.eqb_spec c 9); [simpl in Heq; discriminate Heq|].
  destruct (Z.leb_spec 65536 c).
  - destruct (surrogate_split c ltac:(lia)) as [Hh [_ [Bh _]]].
    unfold u_escape in Heq. simpl in Heq.
    injection Heq as <- <- <- <- _.
    exists (55296 + (c - 65536) / 1024 mod 1024). split; [apply hex4_u_escape; exact Bh|].
    unfold is_high_surrogate, is_low_surrogate in *.
    apply andb_prop in Hh as [Hh1 Hh2]. apply Z.leb_le in Hh1, Hh2.
    destruct (Z.leb_spec 56320 (55296 + (c - 65536) / 1024 mod 1024)); [lia|reflexivity].
  - unfold u_escape in Heq. simpl in Heq.
    injection Heq as <- <- <- <- _.
    exists c. split; [apply hex4_u_escape; lia | exact Hl].
Qed.

Lemma str_ok_cons (c : Z) (s : text) : str_ok (c :: s) = true ->
  code_point_ok c = true /\ str_ok s = true /\
  (forall c' s', s = c' :: s' -> is_high_surrogate c && is_low_surrogate c' = false).
Proof.
  unfold str_ok. simpl. intros H.
  apply andb_prop in H as [H1 H2]. apply andb_prop in H1 as [Hc Hs].
  destruct s as [|c0 s0].
  - repeat split; auto. intros ? ? Heq; discriminate.
  - apply andb_prop in H2 as [Hp H2]. rewrite Hs, H2. repeat split; auto.
    intros c' s' Heq. injection Heq as -> ->. apply negb_true_iff in Hp. exact Hp.
Qed.

Lemma scanstring_encode (s rest : text) : str_ok s = true ->
  scanstring (flat_map ascii_escape_char s ++ 34 :: rest) = Ok (s, rest).
Proof.
  induction s as [|c s IH]; intros Hs; [reflexivity|].
  destruct (str_ok_cons c s Hs) as [Hc [Hs' Hp]].
  assert (Hn : is_high_surrogate c = true ->
               no_low_escape (flat_map ascii_escape_char s ++ 34 :: rest)).
  { intros Hh. destruct s as [|c' s'].
    - intros ? ? ? ? ? Heq. discriminate Heq.
    - simpl flat_map. rewrite <- app_assoc.
      destruct (str_ok_cons c' s' Hs') as [Hc' _].
      apply no_low_escape_char; [exact Hc'|].
      specialize (Hp c' s' eq_refl). rewrite Hh in Hp. exact Hp. }
  simpl flat_map. rewrite <- app_assoc. rewrite (scan_char c _ Hc Hn).
  rewrite (IH Hs'). reflexivity.
Qed.

Lemma scan_once_str (f d : nat) (s rest : text) : str_ok s = true ->
  scan_once (S f) d (encode_str s ++ rest) = Ok (JStr s, rest).
Proof.
  intros Hs. unfold encode_str. rewrite <- !app_assoc. simpl.
  rewrite scanstring_encode by exact Hs. reflexivity.
Qed.

Lemma scan_once_S_arr (f d : nat) (r : text) :
  scan_once (S f) d (91 :: r) =
  if Nat.leb py_recursion_limit d
  then Exc (recursion_error " while decoding a JSON array from a unicode string")
  else
    match skip_ws r with
    | d' :: r' =>
      if d' =? 93 then Ok (JArr [], r')
      else match parse_array f (S d) (d' :: r') with
           | Ok (vs, rest) => Ok (JArr vs, rest)
           | Exc e => Exc e
           end
    | [] => Exc (decode_error "Expecting value")
    end.
Proof. reflexivity. Qed.

Lemma scan_once_S_obj (f d : nat) (r : text) :
  scan_once (S f) d (123 :: r) =
  if Nat.leb py_recursion_limit d
  then Exc (recursion_error " while decoding a JSON object from a unicode string")
  else
    match skip_ws r with
    | d' :: r' =>
      if d' =? 125 then Ok (JObj [], r')
      else match parse_object f (S d) (d' :: r') with
           | Ok (ps, rest) => Ok (JObj (dict_of_pairs ps), rest)
           | Exc e => Exc e
           end
    | [] => Exc (decode_error "Expecting property name enclosed in double quotes")
    end.
Proof. reflexivity. Qed.

Lemma parse_array_S (f d : nat) (s : text) :
  parse_array (S f) d s =
  match scan_once f d s with
  | Exc e => Exc e
  | Ok (v, r) =>
    match skip_ws r with
    | c :: r2 =>
      if c =? 93 then Ok ([v], r2)
      else if c =? 44 then
        match parse_array f d (skip_ws r2) with
        | Ok (vs, rest) => Ok (v :: vs, rest)
        | Exc e => Exc e
        end
      else Exc (decode_error "Expecting ',' delimiter")
    | [] => Exc (decode_error "Expecting ',' delimiter")
    end
  end.
Proof. reflexivity. Qed.

Lemma parse_object_S (f d : nat) (s : text) :
  parse_object (S f) d s =
    match s with
    | q :: r =>
      if q =? 34 then
        match scanstring r with
        | Exc e => Exc e
        | Ok (key, r1) =>
          match skip_ws r1 with
          | col :: r2 =>
            if col =? 58 then
              match scan_once f d (skip_ws r2) with
              | Exc e => Exc e
              | Ok (v, r3) =>
                match skip_ws r3 with
                | c :: r4 =>
                  if c =? 125 then Ok ([(key, v)], r4)
                  else if c =? 44 then
                    match parse_object f d (skip_ws r4) with
                    | Ok (ps, rest) => Ok ((key, v) :: ps, rest)
                    | Exc e => Exc e
                    end
                  else Exc (decode_error "Expecting ',' delimiter")
                | [] => Exc (decode_error "Expecting ',' delimiter")
                end
              end
            else Exc (decode_error "Expecting ':' delimiter")
          | [] => Exc (decode_error "Expecting ':' delimiter")
          end
        end
      else Exc (decode_error "Expecting property name enclosed in double quotes")
    | [] => Exc (decode_error "Expecting property name enclosed in double quotes")
    end.
Proof. reflexivity. Qed.

Lemma encode_str_length (s : text) : (2 <= length (encode_str s))%nat.
Proof. unfold encode_str. rewrite !length_app. simpl. lia. Qed.

Lemma join_encode_head (y : text) (ys : list text) :
  exists tl, join [44; 32] (map encode_str (y :: ys)) = 34 :: tl.
Proof. destruct ys; simpl; unfold encode_str; simpl; eexists; reflexivity. Qed.

Lemma skip_ws_quote (tl : text) : skip_ws (34 :: tl) = 34 :: tl.
Proof. reflexivity. Qed.

Lemma parse_array_items (xs : list text) (f d : nat) (rest : text) :
  xs <> [] -> Forall (fun x => str_ok x = true) xs ->
  lt (length (join [44; 32] (map encode_str xs))) f ->
  parse_array f d (join [44; 32] (map encode_str xs) ++ 93 :: rest) = Ok (map JStr xs, rest).
Proof.
  revert f. induction xs as [|x xs IH]; intros f Hne Hall Hlen; [congruence|].
  apply Forall_cons_iff in Hall as [Hx Hxs].
  destruct xs as [|y ys].
  - simpl join in *. pose proof (encode_str_length x).
    destruct f as [|[|f]]; [lia|lia|].
    rewrite parse_array_S, scan_once_str by exact Hx. reflexivity.
  - destruct (join_encode_head y ys) as [tl Htl].
    change (join [44; 32] (map encode_str (x :: y :: ys)))
      with (encode_str x ++ [44; 32] ++ join [44; 32] (map encode_str (y :: ys))) in *.
    rewrite !length_app in Hlen. pose proof (encode_str_length x).
    change (length [44; 32]) with 2%nat in Hlen.
    destruct f as [|[|f]]; [lia|lia|].
    rewrite <- !app_assoc, parse_array_S, scan_once_str by exact Hx.
    rewrite Htl. simpl skip_ws.
    change (44 =? 93) with false. change (44 =? 44) with true. cbv iota beta.
    simpl skip_ws. rewrite app_comm_cons, <- Htl.
    rewrite IH; [reflexivity | discriminate | exact Hxs | lia].
Qed.

Lemma dumps_arr (xs : list text) :
  json_dumps (JArr (map JStr xs)) = 91 :: join [44; 32] (map encode_str xs) ++ [93].
Proof. simpl. rewrite map_map. reflexivity. Qed.

Lemma scan_once_arr (xs : list text) (f d : nat) (rest : text) :
  Forall (fun x => str_ok x = true) xs -> (d < py_recursion_limit)%nat ->
  lt (length (json_dumps (JArr (map JStr xs)))) f ->
  scan_once f d (json_dumps (JArr (map JStr xs)) ++ rest) = Ok (JArr (map JStr xs), rest).
Proof.
  intros Hall Hd Hlen. rewrite dumps_arr in *. rewrite length_cons, length_app in Hlen.
  change (length [93]) with 1%nat in Hlen.
  destruct f as [|f]; [lia|].
  rewrite <- app_comm_cons, <- app_assoc, scan_once_S_arr.
  replace (Nat.leb py_recursion_limit d) with false by (symmetry; apply Nat.leb_gt; exact Hd).
  destruct xs as [|y ys]; [reflexivity|].
  destruct (join_encode_head y ys) as [tl Htl].
  rewrite Htl. simpl skip_ws. change (34 =? 93) with false. cbv iota beta.
  rewrite app_comm_cons, <- Htl.
  rewrite parse_array_items; [reflexivity | discriminate | exact Hall | lia].
Qed.

Lemma encode_str_app (s r : text) :
  encode_str s ++ r = 34 :: flat_map ascii_escape_char s ++ 34 :: r.
Proof. unfold encode_str. rewrite <- !app_assoc. reflexivity. Qed.

Lemma skip_ws_arr (ys : list json) (r : text) :
  skip_ws (json_dumps (JArr ys) ++ r) = json_dumps (JArr ys) ++ r.
Proof. reflexivity. Qed.

Lemma join_member_head (kx : text * list text) (dl : list (text * list text)) :
  exists tl, join [44; 32] (map member_text (kx :: dl)) = 34 :: tl.
Proof.
  destruct dl; simpl; unfold member_text at 1; rewrite ?encode_str_app;
  unfold encode_str; simpl; eexists; reflexivity.
Qed.

Lemma skip_ws_members (kx : text * list text) (dl : list (text * list text)) (r : text) :
  skip_ws (join [44; 32] (map member_text (kx :: dl)) ++ r) =
  join [44; 32] (map member_text (kx :: dl)) ++ r.
Proof. destruct (join_member_head kx dl) as [tl H]. rewrite H. reflexivity. Qed.

Lemma member_text_length (kx : text * list text) :
  (4 + length (json_dumps (JArr (map JStr (snd kx)))) <= length (member_text kx))%nat.
Proof.
  unfold member_text. rewrite !length_app. pose proof (encode_str_length (fst kx)).
  change (length (t ": ")) with 2%nat. lia.
Qed.

Lemma parse_object_members (dl : list (text * list text)) (f d : nat) (rest : text) :
  dl <> [] ->
  Forall (fun kx => str_ok (fst kx) = true /\ Forall (fun x => str_ok x = true) (snd kx)) dl ->
  (d < py_recursion_limit)%nat ->
  lt (length (join [44; 32] (map member_text dl))) f ->
  parse_object f d (join [44; 32] (map member_text dl) ++ 125 :: rest) =
  Ok (map (fun '(k, xs) => (k, JArr (map JStr xs))) dl, rest).
Proof.
  revert f. induction dl as [|[k xs] dl IH]; intros f Hne Hall Hd Hlen; [congruence|].
  apply Forall_cons_iff in Hall as [[Hk Hxs] Hall]. simpl fst in Hk. simpl snd in Hxs.
  pose proof (member_text_length (k, xs)) as Hm. simpl snd in Hm.
  destruct dl as [|kx' dl].
  - change (join [44; 32] (map member_text [(k, xs)])) with (member_text (k, xs)) in *.
    destruct f as [|f]; [lia|].
    unfold member_text. simpl fst. simpl snd. rewrite <- !app_assoc, encode_str_app.
    rewrite parse_object_S. change (34 =? 34) with true. cbv iota beta.
    rewrite scanstring_encode by exact Hk.
    remember (json_dumps (JArr (map JStr xs))) as A eqn:HA.
    change (t ": ") with [58; 32]. simpl. subst A.
    rewrite skip_ws_arr, scan_once_arr by (auto; lia).
    reflexivity.
  - destruct (join_member_head kx' dl) as [tl Htl].
    change (join [44; 32] (map member_text ((k, xs) :: kx' :: dl)))
      with (member_text (k, xs) ++ [44; 32] ++ join [44; 32] (map member_text (kx' :: dl))) in *.
    rewrite !length_app in Hlen. change (length [44; 32]) with 2%nat in Hlen.
    destruct f as [|f]; [lia|].
    unfold member_text at 1. simpl fst. simpl snd. rewrite <- !app_assoc, encode_str_app.
    rewrite parse_object_S. change (34 =? 34) with true. cbv iota beta.
    rewrite scanstring_encode by exact Hk.
    remember (json_dumps (JArr (map JStr xs))) as A eqn:HA.
    remember (join [44; 32] (map member_text (kx' :: dl))) as J eqn:HJ.
    change (t ": ") with [58; 32]. simpl. subst A.
    rewrite skip_ws_arr, scan_once_arr by (auto; lia).
    simpl. subst J. rewrite skip_ws_members.
    rewrite IH; [reflexivity | discriminate | exact Hall | exact Hd | lia].
Qed.

Lemma dict_set_fresh {V} (k : text) (v : V) (acc : list (text * V)) :
  ~ In k (map fst acc) -> dict_set k v acc = acc ++ [(k, v)].
Proof.
  induction acc as [|[k' v'] acc IH]; intros Hn; [reflexivity|].
  simpl in *. destruct (decide (k = k')) as [->|Hne]; [exfalso; tauto|].
  rewrite IH by tauto. reflexivity.
Qed.

Lemma fold_dict_set_fresh {V} (ps acc : list (text * V)) :
  List.NoDup (map fst (acc ++ ps)) ->
  fold_left (fun d kv => dict_set (fst kv) (snd kv) d) ps acc = acc ++ ps.
Proof.
  revert acc. induction ps as [|[k v] ps IH]; intros acc Hnd; simpl.
  - rewrite app_nil_r. reflexivity.
  - rewrite dict_set_fresh.
    + rewrite IH; [rewrite <- app_assoc; reflexivity|]. rewrite <- app_assoc. exact Hnd.
    + rewrite map_app in Hnd. simpl in Hnd. apply NoDup_remove_2 in Hnd.
      rewrite in_app_iff in Hnd. tauto.
Qed.

Lemma dict_of_pairs_nodup {V} (ps : list (text * V)) :
  List.NoDup (map fst ps) -> dict_of_pairs ps = ps.
Proof. intros H. apply (fold_dict_set_fresh ps []). exact H. Qed.

Lemma dumps_shape (dl : list (text * list text)) :
  json_dumps (shape_json dl) = 123 :: join [44; 32] (map member_text dl) ++ [125].
Proof.
  unfold shape_json. simpl json_dumps. rewrite map_map.
  rewrite (map_ext _ member_text); [reflexivity|]. intros [k xs]. reflexivity.
Qed.

Lemma scan_once_shape (dl : list (text * list text)) (f : nat) (rest : text) :
  List.NoDup (map fst dl) ->
  Forall (fun kx => str_ok (fst kx) = true /\ Forall (fun x => str_ok x = true) (snd kx)) dl ->
  lt (length (json_dumps (shape_json dl))) f ->
  scan_once f 0 (json_dumps (shape_json dl) ++ rest) = Ok (shape_json dl, rest).
Proof.
  intros Hnd Hall Hlen. rewrite dumps_shape in *.
  rewrite length_cons, length_app in Hlen. change (length [125]) with 1%nat in Hlen.
  destruct f as [|f]; [lia|].
  rewrite <- app_comm_cons, <- app_assoc, scan_once_S_obj.
  change (Nat.leb py_recursion_limit 0) with false. cbv iota beta.
  destruct dl as [|kx dl]; [reflexivity|].
  destruct (join_member_head kx dl) as [tl Htl].
  rewrite Htl. simpl skip_ws. change (34 =? 125) with false. cbv iota beta.
  rewrite app_comm_cons, <- Htl.
  rewrite parse_object_members;
    [| discriminate | exact Hall | unfold py_recursion_limit; lia | lia].
  unfold shape_json. rewrite dict_of_pairs_nodup; [reflexivity|].
  rewrite map_map. erewrite map_ext; [exact Hnd|]. intros [k xs]. reflexivity.
Qed.

Lemma py_strip_braces (m : text) : py_strip (123 :: m ++ [125]) = 123 :: m ++ [125].
Proof.
  unfold py_strip. rewrite <- !rev_alt.
  change (lstrip (123 :: m ++ [125])) with (123 :: m ++ [125]).
  replace (rev (123 :: m ++ [125])) with (125 :: rev m ++ [123])
    by (simpl; rewrite rev_app_distr; reflexivity).
  change (lstrip (125 :: rev m ++ [123])) with (125 :: rev m ++ [123]).
  change (125 :: rev m ++ [123]) with ([125] ++ rev m ++ [123]).
  rewrite !rev_app_distr, rev_involutive. reflexivity.
Qed.

Lemma parse_json_shape (dl : list (text * list text)) :
  List.NoDup (map fst dl) ->
  Forall (fun kx => str_ok (fst kx) = true /\ Forall (fun x => str_ok x = true) (snd kx)) dl ->
  _parse_json (json_dumps (shape_json dl)) = Ok (shape_json dl).
Proof.
  intros Hnd Hall.
  assert (Hl := scan_once_shape dl (2 * length (json_dumps (shape_json dl) ++ []) + 2) [] Hnd Hall).
  unfold _parse_json. cbv zeta.
  rewrite dumps_shape in *. set (m := join [44; 32] (map member_text dl)) in *.
  rewrite py_strip_braces.
  replace (startswith (123 :: m ++ [125]) (t "```")) with false by reflexivity.
  replace (endswith (123 :: m ++ [125]) (t "```")) with false.
  2:{ unfold endswith. rewrite <- !rev_alt. simpl rev. rewrite rev_app_distr. reflexivity. }
  unfold json_loads.
  replace (startswith (123 :: m ++ [125]) [65279]) with false by reflexivity.
  change (skip_ws (123 :: m ++ [125])) with (123 :: m ++ [125]).
  rewrite app_nil_r in Hl. rewrite Hl by (simpl; lia).
  reflexivity.
Qed.

(** C5 (amended): a value of the expected shape (an object with distinct
    keys whose members are lists of strings) in which no string holds a
    high surrogate directly followed by a low surrogate comes back
    unchanged from [json.dumps] followed by the extractor of each stage. *)
Theorem extract_roundtrip (d : list (text * list text)) :
  List.NoDup (map fst d) ->
  Forall (fun kx => str_ok (fst kx) = true /\ Forall (fun x => str_ok x = true) (snd kx)) d ->
  trend_extract (json_dumps (shape_json d)) = Ok (shape_json d) /\
  strategy_extract (json_dumps (shape_json d)) = Ok (shape_json d) /\
  risk_extract (json_dumps (shape_json d)) = Ok (shape_json d).
Proof.
  intros Hnd Hall. unfold trend_extract, strategy_extract, risk_extract, extract_with.
  rewrite (parse_json_shape d Hnd Hall). auto.
Qed.

Lemma extract_roundtrip_witness :
  let d := [(t "trends", [t "AI chips"; [233; 128640; 10; 34]]);
            (t "sentiment_shifts", [[55296; 120]; []])] in
  List.NoDup (map fst d) /\
  Forall (fun kx => str_ok (fst kx) = true /\ Forall (fun x => str_ok x = true) (snd kx)) d /\
  trend_extract (json_dumps (shape_json d)) = Ok (shape_json d).
Proof.
  intros d.
  assert (H1 : List.NoDup (map fst d)).
  { constructor; [|constructor; [intros []|constructor]].
    intros [H|[]]. vm_compute in H. congruence. }
  assert (H2 : Forall (fun kx => str_ok (fst kx) = true /\
                                 Forall (fun x => str_ok x = true) (snd kx)) d).
  { apply (bool_decide_unpack _). vm_compute. reflexivity. }
  split; [exact H1 | split; [exact H2 | apply (extract_roundtrip d H1 H2)]].
Defined.

(** C5: a string holding the surrogate pair U+D800 U+DC00 is written as two
    [\uXXXX] escapes, which [json.loads] joins into the single code point
    U+10000: the round trip changes the value. *)
Lemma extract_roundtrip_counterexample :
  trend_extract (json_dumps (shape_json [(t "trends", [[55296; 56320]])])) =
    Ok (shape_json [(t "trends", [[65536]])]) /\
  shape_json [(t "trends", [[65536]])] <> shape_json [(t "trends", [[55296; 56320]])].
Proof.
  split; [vm_compute; reflexivity|].
  intros H. vm_compute in H. congruence.
Qed.

(** C4: [json.loads] raises [RecursionError], which is not a [ValueError],
    on a text of a million opening brackets; the [except] clause of the
    Trend, Strategy and Risk stages does not catch it, so no fallback is
    returned. *)
Theorem extract_deep_nesting_raises :
  let raw := deep_brackets 1000000 in
  _parse_json raw = Exc (recursion_error " while decoding a JSON array from a unicode string") /\
  is_value_error RecursionError = false /\
  trend_extract raw = Exc (recursion_error " while decoding a JSON array from a unicode string") /\
  strategy_extract raw = Exc (recursion_error " while decoding a JSON array from a unicode string") /\
  risk_extract raw = Exc (recursion_error " while decoding a JSON array from a unicode string").
Proof.
  intros raw.
  assert (H : _parse_json raw =
              Exc (recursion_error " while decoding a JSON array from a unicode string"))
    by (vm_compute; reflexivity).
  unfold trend_extract, strategy_extract, risk_extract, extract_with.
  rewrite H. repeat split; reflexivity.
Qed.

(* ------------------------------------------------------------------ *)
(** ** Reasoning about the run monad *)

Lemma json_ind' (P : json -> Prop) :
  P JNull -> (forall b, P (JBool b)) -> (forall lex, P (JNum lex)) -> (forall s, P (JStr s)) ->
  (forall xs, Forall P xs -> P (JArr xs)) ->
  (forall kvs, Forall (fun kv => P (snd kv)) kvs -> P (JObj kvs)) ->
  forall v, P v.
Proof.
  intros Hn Hb Hnum Hs Ha Ho. fix IH 1. intros [| b | lex | s | xs | kvs].
  - exact Hn.
  - apply Hb.
  - apply Hnum.
  - apply Hs.
  - apply Ha. revert xs. fix go 1. intros [|x xs]; constructor; [apply IH | apply go].
  - apply Ho. revert kvs. fix go 1. intros [|[k x] kvs]; constructor; [apply IH | apply go].
Qed.

Lemma bind_Ok_inv {A B} (m : M A) (f : A -> M B) s b s' :
  bind m f s = (Ok b, s') -> exists a s1, m s = (Ok a, s1) /\ f a s1 = (Ok b, s').
Proof. unfold bind. destruct (m s) as [[a|e] s1]; intros H; [eauto|discriminate]. Qed.

Section Preserves.
Variable R : state -> state -> Prop.
Hypothesis R_refl : forall s, R s s.
Hypothesis R_trans : forall s1 s2 s3, R s1 s2 -> R s2 s3 -> R s1 s3.

Lemma pres_pure {A} (m : M A) : (forall s r s', m s = (r, s') -> s' = s) -> preserves R m.
Proof. intros H s r s' E. rewrite (H _ _ _ E). apply R_refl. Qed.

Lemma pres_ret {A} (a : A) : preserves R (ret a).
Proof. apply pres_pure. intros s r s' H. injection H as _ <-. reflexivity. Qed.

Lemma pres_raise {A} (e : exc) : preserves R (@raise A e).
Proof. apply pres_pure. intros s r s' H. injection H as _ <-. reflexivity. Qed.

Lemma pres_lift {A} (r0 : res A) : preserves R (lift r0).
Proof. apply pres_pure. intros s r s' H. injection H as _ <-. reflexivity. Qed.

Lemma pres_bind {A B} (m : M A) (f : A -> M B) :
  preserves R m -> (forall a, preserves R (f a)) -> preserves R (bind m f).
Proof.
  intros Hm Hf s r s' H. unfold bind in H. destruct (m s) as [[a|e] s1] eqn:E.
  - exact (R_trans _ _ _ (Hm _ _ _ E) (Hf _ _ _ _ H)).
  - injection H as _ <-. exact (Hm _ _ _ E).
Qed.

Lemma pres_read (l : N) : preserves R (read l).
Proof.
  apply pres_pure. intros s r s' H. unfold read in H.
  destruct (st_heap s !! l); injection H as _ <-; reflexivity.
Qed.

Lemma pres_type_error {A} (v : pv) (what : string) : preserves R (@type_error A v what).
Proof. apply pres_pure. intros s r s' H. injection H as _ <-. reflexivity. Qed.

Lemma pres_py_get (v : pv) (k : text) (d : pv) : preserves R (py_get v k d).
Proof.
  destruct v; try (apply pres_pure; intros st r st' H; simpl in H; injection H as _ <-; reflexivity).
  apply pres_bind; [apply pres_read|]. intros [xs|kvs]; [apply pres_raise|apply pres_ret].
Qed.

Lemma pres_py_getitem (v : pv) (k : text) : preserves R (py_getitem v k).
Proof.
  destruct v; try apply pres_type_error; try apply pres_raise.
  apply pres_bind; [apply pres_read|]. intros [xs|kvs]; [apply pres_raise|].
  destruct (dict_lookup k kvs); [apply pres_ret|apply pres_raise].
Qed.

Lemma pres_py_iter (v : pv) : preserves R (py_iter v).
Proof.
  destruct v; try apply pres_type_error; try apply pres_ret.
  apply pres_bind; [apply pres_read|]. intros [xs|kvs]; apply pres_ret.
Qed.

Lemma pres_py_join (sep : text) (v : pv) : preserves R (py_join sep v).
Proof.
  apply pres_bind; [apply pres_py_iter|]. intros xs.
  destruct (all_str xs); [apply pres_ret|apply pres_raise].
Qed.

Lemma pres_py_dumps (v : pv) : preserves R (py_dumps v).
Proof.
  intros s r s'. unfold py_dumps.
  destruct (heap_json py_recursion_limit (st_heap s) v); intros H; injection H as _ <-; apply R_refl.
Qed.

Lemma pres_py_is_empty_list (v : pv) : preserves R (py_is_empty_list v).
Proof. apply pres_bind; [apply pres_py_iter|]. intros xs. apply pres_ret. Qed.

Lemma pres_mapM {A B} (f : A -> M B) (xs : list A) :
  (forall x, In x xs -> preserves R (f x)) -> preserves R (mapM f xs).
Proof.
  induction xs as [|x xs IH]; intros Hf; simpl; [apply pres_ret|].
  apply pres_bind; [apply Hf; left; reflexivity|]. intros y.
  apply pres_bind; [apply IH; intros; apply Hf; right; assumption|]. intros ys. apply pres_ret.
Qed.

Lemma pres_iterM {A} (f : A -> M unit) (xs : list A) :
  (forall x, preserves R (f x)) -> preserves R (iterM f xs).
Proof.
  intros Hf. induction xs as [|x xs IH]; simpl; [apply pres_ret|].
  apply pres_bind; [apply Hf|]. intros _. exact IH.
Qed.

Lemma pres_iter_enum {A} (f : nat -> A -> M unit) (i : nat) (xs : list A) :
  (forall i x, preserves R (f i x)) -> preserves R (iter_enum f i xs).
Proof.
  intros Hf. revert i. induction xs as [|x xs IH]; intros i; simpl; [apply pres_ret|].
  apply pres_bind; [apply Hf|]. intros _. apply IH.
Qed.

Lemma pres_article_line (a : pv) : preserves R (article_line a).
Proof.
  unfold article_line.
  apply pres_bind; [apply pres_py_getitem|]; intros.
  apply pres_bind; [apply pres_py_getitem|]; intros.
  apply pres_bind; [apply pres_py_getitem|]; intros.
  apply pres_ret.
Qed.

Hypothesis R_alloc : forall o, preserves R (alloc o).

Lemma pres_alloc_json (v : json) : preserves R (alloc_json v).
Proof.
  induction v as [| | | | xs IH | kvs IH] using json_ind'; simpl; try apply pres_ret.
  - apply pres_bind; [|intros; apply pres_bind; [apply R_alloc | intros; apply pres_ret]].
    apply pres_mapM. intros x Hx. rewrite List.Forall_forall in IH. apply IH, Hx.
  - apply pres_bind; [|intros; apply pres_bind; [apply R_alloc | intros; apply pres_ret]].
    apply pres_mapM. intros [k x] Hx. rewrite List.Forall_forall in IH.
    apply pres_bind; [apply (IH (k, x) Hx)|]. intros. apply pres_ret.
Qed.

Lemma pres_get_items (v : pv) (k : text) : preserves R (get_items v k).
Proof.
  unfold get_items. apply pres_bind; [apply R_alloc|]. intros d.
  apply pres_bind; [apply pres_py_get|]. intros x. apply pres_py_iter.
Qed.

Variable P : effect -> Prop.
Hypothesis R_record : forall e, P e -> preserves R (record e).

Lemma pres_log (tag : stage) (msg : text) :
  P (EPut tag (Some (_sse (t "log") msg))) -> preserves R (log tag msg).
Proof. apply R_record. Qed.

Lemma pres_chat (svc : services) (tag : stage) (system user : text) :
  (forall c, P (EChat tag c)) -> preserves R (_chat svc tag system user).
Proof.
  intros Hc. unfold _chat. apply pres_bind; [apply R_record, Hc|]. intros _.
  destruct (reka_chat svc _); [apply pres_ret|apply pres_raise].
Qed.

Lemma pres_log_enum (tag : stage) (prefix : text) (items : list pv) :
  (forall msg, P (EPut tag (Some (_sse (t "log") msg)))) -> preserves R (log_enum tag prefix items).
Proof. intros Hl. unfold log_enum. apply pres_iter_enum. intros. apply pres_log, Hl. Qed.

Ltac pres_step :=
  match goal with
  | |- forall _, _ => intro
  | |- preserves _ (bind _ _) => apply pres_bind
  | |- preserves _ (ret _) => apply pres_ret
  | |- preserves _ (raise _) => apply pres_raise
  | |- preserves _ (lift _) => apply pres_lift
  | |- preserves _ (py_iter _) => apply pres_py_iter
  | |- preserves _ (py_get _ _ _) => apply pres_py_get
  | |- preserves _ (py_join _ _) => apply pres_py_join
  | |- preserves _ (py_dumps _) => apply pres_py_dumps
  | |- preserves _ (py_is_empty_list _) => apply pres_py_is_empty_list
  | |- preserves _ (get_items _ _) => apply pres_get_items
  | |- preserves _ (alloc_json _) => apply pres_alloc_json
  | |- preserves _ (alloc _) => apply R_alloc
  | |- preserves _ (log_enum _ _ _) => apply pres_log_enum; assumption
  | |- preserves _ (_chat _ _ _ _) => apply pres_chat; assumption
  | |- preserves _ (log _ _) => apply pres_log; auto
  | |- preserves _ (emit _ _) => apply pres_log; auto
  | |- preserves _ (record _) => apply R_record; auto
  | |- preserves _ (mapM article_line _) => apply pres_mapM; intros; apply pres_article_line
  | |- preserves _ (match ?x with _ => _ end) => destruct x
  end.

Lemma pres_trend_agent (svc : services) (a : pv) :
  (forall msg, P (EPut STrend (Some (_sse (t "log") msg)))) -> (forall c, P (EChat STrend c)) ->
  preserves R (trend_agent svc a).
Proof. intros Hl Hc. unfold trend_agent. repeat pres_step. Qed.

Lemma pres_strategy_agent (svc : services) (a : pv) :
  (forall msg, P (EPut SStrategy (Some (_sse (t "log") msg)))) -> (forall c, P (EChat SStrategy c)) ->
  preserves R (strategy_agent svc a).
Proof. intros Hl Hc. unfold strategy_agent. repeat pres_step. Qed.

Lemma pres_risk_agent (svc : services) (a b : pv) :
  (forall msg, P (EPut SRisk (Some (_sse (t "log") msg)))) -> (forall c, P (EChat SRisk c)) ->
  preserves R (risk_agent svc a b).
Proof. intros Hl Hc. unfold risk_agent. repeat pres_step. Qed.

Lemma pres_voice_agent (svc : services) (brief : text) :
  (forall msg, P (EPut SVoice (Some (_sse (t "log") msg)))) -> (forall c, P (EChat SVoice c)) ->
  preserves R (voice_agent svc brief).
Proof. intros Hl Hc. unfold voice_agent. repeat pres_step. Qed.

Lemma pres_data_agent (svc : services) (topic : text) :
  (forall msg, P (EPut SData (Some (_sse (t "log") msg)))) -> (forall c, P (EChat SData c)) ->
  (forall q n, P (ESearch q n)) -> (forall l v, preserves R (py_append l v)) ->
  preserves R (data_agent svc topic).
Proof.
  intros Hl Hc Hs Ha. unfold data_agent.
  repeat match goal with
         | |- preserves _ (py_append _ _) => apply Ha
         | |- preserves _ (iterM _ _) => apply pres_iterM; intro; unfold data_item
         | _ => pres_step
         end.
Qed.

Lemma pres_pipeline_tail (svc : services) (topic : text) (include_voice : bool) (a tr st rk : pv) :
  (forall msg, P (EPut SVoice (Some (_sse (t "log") msg)))) -> (forall c, P (EChat SVoice c)) ->
  (forall m, P (EPut SReport (Some m))) ->
  preserves R (pipeline_tail svc topic include_voice a tr st rk).
Proof.
  intros Hl Hc Hr. unfold pipeline_tail.
  repeat match goal with
         | |- preserves _ (voice_agent _ _) => apply pres_voice_agent; assumption
         | _ => pres_step
         end.
Qed.

Lemma pres_pipeline_body (svc : services) (topic : text) (include_voice : bool) :
  (forall tag m, P (EPut tag (Some m))) -> (forall tag c, P (EChat tag c)) ->
  (forall q n, P (ESearch q n)) -> (forall l v, preserves R (py_append l v)) ->
  preserves R (pipeline_body svc topic include_voice).
Proof.
  intros Hp Hc Hs Ha. unfold pipeline_body.
  repeat match goal with
         | |- preserves _ (data_agent _ _) => apply pres_data_agent; auto
         | |- preserves _ (trend_agent _ _) => apply pres_trend_agent; auto
         | |- preserves _ (strategy_agent _ _) => apply pres_strategy_agent; auto
         | |- preserves _ (risk_agent _ _ _) => apply pres_risk_agent; auto
         | |- preserves _ (pipeline_tail _ _ _ _ _ _ _) => apply pres_pipeline_tail; auto
         | _ => pres_step
         end.
Qed.
(** The body up to the tail, for a property of effects that holds of
    every message and call of the stages other than Voice. *)
Lemma pres_pipeline_body_gen (svc : services) (topic : text) (include_voice : bool) :
  (forall tag msg, tag <> SVoice -> P (EPut tag (Some (_sse (t "log") msg)))) ->
  (forall msg, P (EPut SPipeline (Some (_sse (t "error") msg)))) ->
  (forall tag c, tag <> SVoice -> P (EChat tag c)) ->
  (forall q n, P (ESearch q n)) -> (forall l v, preserves R (py_append l v)) ->
  (forall a tr st rk, preserves R (pipeline_tail svc topic include_voice a tr st rk)) ->
  preserves R (pipeline_body svc topic include_voice).
Proof.
  intros Hl He Hc Hs Ha Ht. unfold pipeline_body.
  repeat match goal with
         | |- preserves _ (data_agent _ _) => apply pres_data_agent
         | |- preserves _ (trend_agent _ _) => apply pres_trend_agent
         | |- preserves _ (strategy_agent _ _) => apply pres_strategy_agent
         | |- preserves _ (risk_agent _ _ _) => apply pres_risk_agent
         | |- preserves _ (pipeline_tail _ _ _ _ _ _ _) => apply Ht
         | _ => pres_step
         end;
  try (intros; apply Hl || apply Hc); try discriminate; auto.
Qed.
End Preserves.

Lemma trace_ext_refl P s : trace_ext P s s.
Proof. exists []. split; [symmetry; apply app_nil_r | apply List.Forall_nil]. Qed.

Lemma trace_ext_trans P s1 s2 s3 : trace_ext P s1 s2 -> trace_ext P s2 s3 -> trace_ext P s1 s3.
Proof.
  intros [e1 [H1 F1]] [e2 [H2 F2]]. exists (e1 ++ e2). split.
  - rewrite H2, H1, app_assoc. reflexivity.
  - apply Forall_app. split; assumption.
Qed.

Lemma trace_ext_alloc P o : preserves (trace_ext P) (alloc o).
Proof. intros s r s' H. injection H as _ <-. exists []. split; [symmetry; apply app_nil_r | apply List.Forall_nil]. Qed.

Lemma trace_ext_record (P : effect -> Prop) e : P e -> preserves (trace_ext P) (record e).
Proof. intros HP s r s' H. injection H as _ <-. exists [e]. split; [reflexivity | repeat constructor; assumption]. Qed.

Lemma trace_ext_py_append P l v : preserves (trace_ext P) (py_append l v).
Proof.
  intros s r s' H. unfold py_append in H.
  destruct (st_heap s !! l) as [[xs|kvs]|]; injection H as _ <-;
    try apply trace_ext_refl.
  exists []. split; [symmetry; apply app_nil_r | apply List.Forall_nil].
Qed.

(** Every write of the pipeline body other than the final [finally] one
    is a message, never the sentinel. *)
Lemma pipeline_body_no_sentinel svc topic include_voice :
  preserves (trace_ext no_sentinel) (pipeline_body svc topic include_voice).
Proof.
  apply (pres_pipeline_body _ (trace_ext_refl _) (trace_ext_trans _) (trace_ext_alloc _)
           no_sentinel (trace_ext_record _)).
  - intros; exact I.
  - intros; exact I.
  - intros; exact I.
  - apply trace_ext_py_append.
Qed.

Lemma ends_with_bind {A B} (P : effect -> Prop) (m : M A) (f : A -> M B) :
  (forall a, ends_with P (f a)) -> ends_with P (bind m f).
Proof.
  intros Hf s b s' H. apply bind_Ok_inv in H as [a [s1 [_ H]]]. exact (Hf a _ _ _ H).
Qed.

Lemma ends_with_record (P : effect -> Prop) e : P e -> ends_with P (record e).
Proof. intros HP s a s' H. injection H as _ <-. exists (st_trace s), e. split; [reflexivity | exact HP]. Qed.

Lemma ends_with_raise {A} (P : effect -> Prop) e : ends_with P (@raise A e).
Proof. intros s a s' H. discriminate H. Qed.

(** When the body returns normally its last write is the [done] or the
    [error] event. *)
Lemma pipeline_body_ends_terminal svc topic include_voice :
  ends_with terminal (pipeline_body svc topic include_voice).
Proof.
  unfold pipeline_body.
  repeat match goal with
         | |- forall _, _ => intro
         | |- ends_with _ (bind _ _) => apply ends_with_bind
         | |- ends_with _ (match ?x with _ => _ end) => destruct x
         | |- ends_with _ (pipeline_tail _ _ _ _ _ _ _) => unfold pipeline_tail
         | |- ends_with _ (record _) => apply ends_with_record
         end;
  simpl; auto.
Qed.

Lemma queue_writes_app l1 l2 : queue_writes (l1 ++ l2) = queue_writes l1 ++ queue_writes l2.
Proof. induction l1 as [|[tag it| |] l1 IH]; simpl; rewrite ?IH; reflexivity. Qed.

Lemma queue_writes_no_sentinel l : Forall no_sentinel l -> exists ms, queue_writes l = map Some ms.
Proof.
  induction 1 as [|e l He _ [ms IH]]; [exists []; reflexivity|].
  destruct e as [tag [m|] | |]; simpl in *; try contradiction; rewrite IH; eauto.
  exists (m :: ms). reflexivity.
Qed.

Lemma map_Some_prefix {A} (a b : list A) r :
  map Some a ++ r = map Some b ++ [None] -> exists rest, b = a ++ rest.
Proof.
  revert b. induction a as [|x a IH]; intros b H; [exists b; reflexivity|].
  destruct b as [|y b]; simpl in H; [discriminate H|].
  injection H as Hxy H. subst y. destruct (IH b H) as [rest ->]. exists rest. reflexivity.
Qed.

Lemma map_Some_sentinel {A} (a b : list A) r :
  map Some a ++ None :: r = map Some b ++ [None] -> a = b /\ r = [].
Proof.
  revert b. induction a as [|x a IH]; intros b H; destruct b as [|y b]; simpl in H.
  - injection H as ->. split; reflexivity.
  - discriminate H.
  - discriminate H.
  - injection H as Hxy H. subst y. destruct (IH b H) as [-> ->]. split; reflexivity.
Qed.

Lemma chan_inv_reachable ws c : chan_reachable ws c -> chan_inv ws c.
Proof.
  induction 1 as [|c c' _ IH Hs].
  - left. split; [reflexivity|]. simpl. reflexivity.
  - inversion Hs; subst; simpl in *.
    + destruct IH as [[Hc H] | [Hc H]]; cbn in Hc, H |- *; [left | right]; split; cbn; try exact Hc;
        rewrite <- H; rewrite <- ?app_assoc; reflexivity.
    + destruct IH as [[_ H] | [Hc _]]; cbn in *; [|discriminate Hc].
      left. split; cbn; [reflexivity|]. rewrite <- H, map_app, <- app_assoc. reflexivity.
    + destruct IH as [[_ H] | [Hc _]]; cbn in *; [|discriminate Hc].
      right. split; cbn; [reflexivity|]. exact H.
Qed.

(** The [generate] loop reads the producer's messages in order, and once it
    has left on the sentinel it has seen them all and nothing happens. *)
Lemma chan_protocol (ms : list sse) c :
  chan_reachable (map Some ms ++ [None]) c ->
  (exists rest, ms = ch_seen c ++ rest) /\
  (ch_closed c = true -> ch_seen c = ms /\ forall c', ~ chan_step c c').
Proof.
  intros Hr. destruct (chan_inv_reachable _ _ Hr) as [[Hc H] | [Hc H]].
  - split; [exact (map_Some_prefix _ _ _ H) | rewrite Hc; discriminate].
  - destruct (map_Some_sentinel _ _ _ H) as [Hs Hqp].
    apply app_eq_nil in Hqp as [Hq Hp].
    split.
    + exists []. rewrite app_nil_r. symmetry. exact Hs.
    + intros _. split; [exact Hs|]. intros c' Hst. destruct c as [p q o cl]; simpl in *. subst.
      inversion Hst.
Qed.

(** The trace of a whole run: the body's messages, ending with the [done]
    or an [error] event (the body's own, or the [except] block's when the
    body raised), then the sentinel of the [finally] block. *)
Lemma run_trace_shape svc topic include_voice :
  exists pre e, run_trace svc topic include_voice = pre ++ [e; EPut SPipeline None]
    /\ Forall no_sentinel pre /\ terminal e.
Proof.
  unfold run_trace, _run_pipeline.
  destruct (pipeline_body svc topic include_voice init_state) as [r s1] eqn:E.
  destruct (pipeline_body_no_sentinel svc topic include_voice _ _ _ E) as [ext [Hext Fext]].
  simpl in Hext.
  destruct r as [u|e].
  - destruct (pipeline_body_ends_terminal svc topic include_voice _ _ _ E) as [pre [e [Hs1 He]]].
    exists pre, e. cbn. rewrite Hs1, <- app_assoc. split; [reflexivity|]. split; [|exact He].
    rewrite Hs1 in Hext. subst ext. apply Forall_app in Fext as [F _]. exact F.
  - eexists (st_trace s1), _. cbn. rewrite <- app_assoc. split; [reflexivity|].
    split; [rewrite Hext; exact Fext|]. cbn. right. reflexivity.
Qed.

(** C3: on every path the run's writes are messages followed by the
    sentinel, written once and last; the last message is the [done] or
    [error] event; the [generate] loop yields the messages in the order
    they were written (a prefix of them at any time), and once it has left
    on the sentinel it has yielded all of them and nothing more happens. *)
Theorem run_queue_protocol svc topic include_voice :
  let ws := queue_writes (run_trace svc topic include_voice) in
  exists evs m,
    ws = map Some (evs ++ [m]) ++ [None]
    /\ (sse_event m = t "done" \/ sse_event m = t "error")
    /\ forall c, chan_reachable ws c ->
         (exists rest, evs ++ [m] = ch_seen c ++ rest)
         /\ (ch_closed c = true -> ch_seen c = evs ++ [m] /\ forall c', ~ chan_step c c').
Proof.
  destruct (run_trace_shape svc topic include_voice) as [pre [e [Htr [Fpre He]]]].
  destruct (queue_writes_no_sentinel _ Fpre) as [evs Hevs].
  destruct e as [tag [m|] | |]; simpl in He; try contradiction.
  intros ws. exists evs, m.
  assert (Hws : ws = map Some (evs ++ [m]) ++ [None]).
  { unfold ws. rewrite Htr, queue_writes_app, Hevs, map_app. simpl. rewrite <- app_assoc. reflexivity. }
  split; [exact Hws|]. split; [exact He|].
  intros c Hc. rewrite Hws in Hc. exact (chan_protocol _ c Hc).
Qed.

(* ------------------------------------------------------------------ *)
(** ** Runs without the Voice stage *)

Lemma py_dumps_inv v s r s' :
  py_dumps v s = (r, s') ->
  s' = s /\ forall p, r = Ok p -> exists j, heap_json py_recursion_limit (st_heap s) v = Ok j /\ p = json_dumps j.
Proof.
  unfold py_dumps. destruct (heap_json py_recursion_limit (st_heap s) v) as [j|e]; intros H;
    injection H as <- <-; split; try reflexivity; intros p Hp; [|discriminate Hp].
  injection Hp as <-. exists j. split; reflexivity.
Qed.

Lemma res_mapM_entries f h kvs ys :
  res_mapM (fun '(k, x) => match heap_json f h x with Ok y => Ok (k, y) | Exc e => Exc e end) kvs = Ok ys ->
  Forall2 entry_rel kvs ys.
Proof.
  revert ys. induction kvs as [|[k x] kvs IH]; intros ys H; simpl in H.
  - injection H as <-. constructor.
  - destruct (heap_json f h x) as [y|e] eqn:Ex; [|discriminate H].
    destruct (res_mapM _ kvs) as [ys'|e] eqn:Er; [|discriminate H].
    injection H as <-. constructor; [|exact (IH _ eq_refl)].
    split; [reflexivity|]. simpl. intros ->. destruct f; simpl in Ex; injection Ex as <-; reflexivity.
Qed.

Lemma heap_json_dict_inv f h l kvs j :
  h !! l = Some (ODict kvs) -> heap_json f h (PRef l) = Ok j ->
  exists ys, j = JObj ys /\ Forall2 entry_rel kvs ys.
Proof.
  intros Hl Hj. destruct f as [|f]; [discriminate Hj|].
  cbn [heap_json] in Hj. rewrite Hl in Hj.
  destruct (res_mapM _ kvs) as [ys|e] eqn:E; [|discriminate Hj].
  injection Hj as <-. exists ys. split; [reflexivity|]. exact (res_mapM_entries _ _ _ _ E).
Qed.

Lemma dict_lookup_entries k kvs ys :
  Forall2 entry_rel kvs ys -> dict_lookup k kvs = Some PNone -> dict_lookup k ys = Some JNull.
Proof.
  induction 1 as [|[k1 x] [k2 y] kvs ys [Hk Hn] _ IH]; simpl in *; [discriminate|].
  subst k2. destruct (decide (k = k1)); [|exact IH].
  intros H. injection H as ->. rewrite (Hn eq_refl). reflexivity.
Qed.

Lemma trace_ext_record_inv (P : effect -> Prop) e s : P e -> trace_ext P s (snd (record e s)).
Proof. intros HP. exists [e]. split; [reflexivity | repeat constructor; assumption]. Qed.

Lemma bind_inv {A B} (m : M A) (f : A -> M B) s r s' :
  bind m f s = (r, s') ->
  (exists a s1, m s = (Ok a, s1) /\ f a s1 = (r, s')) \/ (exists e, m s = (Exc e, s') /\ r = Exc e).
Proof.
  unfold bind. destruct (m s) as [[a|e] s1]; intros H; [left; eauto|right].
  injection H as <- <-. eauto.
Qed.

Lemma pipeline_tail_novoice_eq svc topic articles trends strategy risks :
  pipeline_tail svc topic false articles trends strategy risks =
  (let! voice_script := ret PNone in
   let! report := alloc (ODict [(t "topic", PStr topic); (t "articles", articles);
                                (t "trends", trends); (t "strategy", strategy);
                                (t "risks", risks); (t "voice_script", voice_script)]) in
   do! emit SReport (E_DONE ++ t " Pipeline complete.") in
   let! payload := py_dumps (PRef report) in
   record (EPut SReport (Some (_sse (t "done") payload)))).
Proof. reflexivity. Qed.

(** The tail without Voice: the report's [voice_script] is [None]. *)
Lemma tail_novoice svc topic articles trends strategy risks :
  preserves (trace_ext novoice_effect) (pipeline_tail svc topic false articles trends strategy risks).
Proof.
  intros [h n tr0] r s' H. rewrite pipeline_tail_novoice_eq in H.
  set (kvs := [(t "topic", PStr topic); (t "articles", articles); (t "trends", trends);
               (t "strategy", strategy); (t "risks", risks); (t "voice_script", PNone)]) in H.
  apply bind_inv in H as [[a [s1 [H1 H]]] | [e [H1 _]]]; [|discriminate H1].
  injection H1 as <- <-.
  apply bind_inv in H as [[l [s2 [H2 H]]] | [e [H2 _]]]; [|discriminate H2].
  injection H2 as <- <-. cbn [st_heap st_next st_trace] in H.
  apply bind_inv in H as [[u [s3 [H3 H]]] | [e [H3 _]]]; [|discriminate H3].
  injection H3 as <- <-.
  set (s3 := St _ _ _) in H.
  set (log_done := EPut SReport (Some (_sse (t "log") (E_DONE ++ t " Pipeline complete.")))).
  assert (Hlog : novoice_effect log_done).
  { split; [discriminate | cbn; intros Habs; discriminate Habs]. }
  apply bind_inv in H as [[payload [s4 [H4 H]]] | [e [H4 ->]]].
  - destruct (py_dumps_inv _ _ _ _ H4) as [-> Hp].
    destruct (Hp payload eq_refl) as [j [Hj ->]].
    injection H as _ <-.
    assert (Hl : st_heap s3 !! n = Some (ODict kvs)) by (apply lookup_insert_eq).
    destruct (heap_json_dict_inv _ _ _ _ _ Hl Hj) as [ys [-> Hys]].
    exists [log_done; EPut SReport (Some (_sse (t "done") (json_dumps (JObj ys))))].
    split; [cbn; rewrite <- app_assoc; reflexivity|].
    constructor; [exact Hlog|]. constructor; [|constructor].
    split; [discriminate|]. intros _. exists ys. split; [reflexivity|].
    apply (dict_lookup_entries _ kvs); [exact Hys | reflexivity].
  - destruct (py_dumps_inv _ _ _ _ H4) as [-> _].
    exists [log_done]. split; [reflexivity|]. constructor; [exact Hlog | constructor].
Qed.

Lemma pipeline_body_novoice svc topic :
  preserves (trace_ext novoice_effect) (pipeline_body svc topic false).
Proof.
  apply (pres_pipeline_body_gen _ (trace_ext_refl _) (trace_ext_trans _) (trace_ext_alloc _)
           novoice_effect (trace_ext_record _)).
  - intros tag msg Htag. split; [exact Htag | cbn; intros Habs; discriminate Habs].
  - intros msg. split; [discriminate | cbn; intros Habs; discriminate Habs].
  - intros tag c Htag. split; [exact Htag | exact I].
  - intros q n. split; [discriminate | exact I].
  - apply trace_ext_py_append.
  - apply tail_novoice.
Qed.

Lemma run_trace_novoice svc topic : Forall novoice_effect (run_trace svc topic false).
Proof.
  unfold run_trace, _run_pipeline.
  destruct (pipeline_body svc topic false init_state) as [r s1] eqn:E.
  destruct (pipeline_body_novoice svc topic _ _ _ E) as [ext [Hext Fext]].
  simpl in Hext.
  assert (Hsent : novoice_effect (EPut SPipeline None)) by (split; [discriminate | exact I]).
  destruct r as [u|e]; cbn; rewrite Hext; rewrite <- ?app_assoc; apply Forall_app; (split; [exact Fext|]).
  - constructor; [exact Hsent | constructor].
  - constructor; [|constructor; [exact Hsent | constructor]].
    split; [discriminate | cbn; intros Habs; discriminate Habs].
Qed.

(** C8: a run created with [include_voice] false has no effect of the
    Voice stage (no message, no call), and the report of its [done] event
    is the [json.dumps] of a dict whose [voice_script] is [null]. *)
Theorem no_voice_run svc topic :
  let tr := run_trace svc topic false in
  Forall (fun e => effect_stage e <> SVoice) tr /\
  (forall tag m, In (EPut tag (Some m)) tr -> sse_event m = t "done" ->
     exists ys, sse_data m = escape_newlines (json_dumps (JObj ys))
                /\ dict_lookup (t "voice_script") ys = Some JNull).
Proof.
  intros tr. pose proof (run_trace_novoice svc topic) as F. split.
  - eapply Forall_impl; [exact F|]. intros e [He _]. exact He.
  - intros tag m Hin Hdone. rewrite List.Forall_forall in F.
    destruct (F _ Hin) as [_ Hm]. exact (Hm Hdone).
Qed.

(* ------------------------------------------------------------------ *)
(** ** Stages read their inputs and build new values *)

Lemma next_le_refl s : next_le s s.
Proof. unfold next_le. lia. Qed.

Lemma next_le_trans s1 s2 s3 : next_le s1 s2 -> next_le s2 s3 -> next_le s1 s3.
Proof. unfold next_le. lia. Qed.

Lemma next_le_alloc o : preserves next_le (alloc o).
Proof. intros [h n tr] r s' H. injection H as _ <-. unfold next_le. simpl. lia. Qed.

Lemma next_le_record (P : effect -> Prop) e : P e -> preserves next_le (record e).
Proof. intros _ [h n tr] r s' H. injection H as _ <-. unfold next_le. simpl. lia. Qed.

Lemma frame_refl s : frame s s.
Proof. intros Hwf. split; [exact Hwf | split; [intros l o H; exact H | lia]]. Qed.

Lemma frame_trans s1 s2 s3 : frame s1 s2 -> frame s2 s3 -> frame s1 s3.
Proof.
  intros F1 F2 Hwf. destruct (F1 Hwf) as [W2 [U1 N1]]. destruct (F2 W2) as [W3 [U2 N2]].
  split; [exact W3 | split; [intros l o H; apply U2, U1, H | lia]].
Qed.

(** [alloc] takes a free location: no existing object is touched. *)
Lemma frame_alloc o : preserves frame (alloc o).
Proof.
  intros [h n tr] r s' H. injection H as _ <-. intros Hwf. unfold heap_wf, unchanged in *.
  cbn in *. split; [|split].
  - intros l Hl. rewrite lookup_insert_ne by lia. apply Hwf. cbn. lia.
  - intros l o' Hlo. rewrite lookup_insert_ne; [exact Hlo|].
    intros Heq. subst l. rewrite (Hwf n (N.le_refl _)) in Hlo. discriminate Hlo.
  - lia.
Qed.

Lemma frame_record (P : effect -> Prop) e : P e -> preserves frame (record e).
Proof.
  intros _ [h n tr] r s' H. injection H as _ <-. intros Hwf.
  split; [exact Hwf | split; [intros l o H; exact H | simpl; lia]].
Qed.

Lemma alloc_json_fresh v s l s' :
  alloc_json v s = (Ok (PRef l), s') -> (st_next s <= l)%N.
Proof.
  destruct v as [| | | | xs | kvs]; simpl; intros H; try discriminate H;
    apply bind_Ok_inv in H as [ys [s1 [H1 H]]];
    apply bind_Ok_inv in H as [l' [s2 [H2 H]]];
    injection H as <- _; injection H2 as <- _.
  - apply (pres_mapM next_le next_le_refl next_le_trans) in H1; [exact H1|].
    intros x _. apply (pres_alloc_json _ next_le_refl next_le_trans next_le_alloc).
  - apply (pres_mapM next_le next_le_refl next_le_trans) in H1; [exact H1|].
    intros [k x] _. apply pres_bind; [exact next_le_trans | |intros; apply pres_ret, next_le_refl].
    apply (pres_alloc_json _ next_le_refl next_le_trans next_le_alloc).
Qed.

Lemma next_le_record' e : preserves next_le (record e).
Proof. exact (next_le_record (fun _ => True) e I). Qed.

Lemma nl_log tag msg : preserves next_le (log tag msg).
Proof. apply next_le_record'. Qed.

Lemma nl_py_iter v : preserves next_le (py_iter v).
Proof. exact (pres_py_iter next_le next_le_refl next_le_trans v). Qed.

Lemma nl_lines xs : preserves next_le (mapM article_line xs).
Proof.
  exact (pres_mapM next_le next_le_refl next_le_trans article_line xs
           (fun x _ => pres_article_line next_le next_le_refl next_le_trans x)).
Qed.

Lemma nl_chat svc tag system user : preserves next_le (_chat svc tag system user).
Proof.
  exact (pres_chat next_le next_le_refl next_le_trans (fun _ => True) (fun e _ => next_le_record' e)
           svc tag system user (fun _ => I)).
Qed.

Lemma nl_lift {A} (r0 : res A) : preserves next_le (lift r0).
Proof. exact (pres_lift next_le next_le_refl r0). Qed.

Lemma nl_get_items v k : preserves next_le (get_items v k).
Proof. exact (pres_get_items next_le next_le_refl next_le_trans next_le_alloc v k). Qed.

(** [result.get(...)] only succeeds on a dict, a heap object. *)
Lemma get_items_ref v k s xs s' : get_items v k s = (Ok xs, s') -> exists l, v = PRef l.
Proof.
  unfold get_items. intros H. apply bind_Ok_inv in H as [d [s1 [_ H]]].
  apply bind_Ok_inv in H as [x [s2 [H _]]].
  destruct v as [| | | |l]; try (simpl in H; discriminate H). exists l. reflexivity.
Qed.

Lemma trend_agent_new svc articles s v s' :
  trend_agent svc articles s = (Ok v, s') -> exists l, v = PRef l /\ (st_next s <= l)%N.
Proof.
  unfold trend_agent. intros H.
  apply bind_Ok_inv in H as [u1 [s1 [H1 H]]].
  apply bind_Ok_inv in H as [arts [s2 [H2 H]]].
  apply bind_Ok_inv in H as [lines [s3 [H3 H]]].
  apply bind_Ok_inv in H as [raw [s4 [H4 H]]].
  apply bind_Ok_inv in H as [jv [s5 [H5 H]]].
  apply bind_Ok_inv in H as [result [s6 [H6 H]]].
  apply bind_Ok_inv in H as [ts [s7 [H7 H]]].
  apply bind_Ok_inv in H as [u8 [s8 [H8 H]]].
  injection H as <- _.
  destruct (get_items_ref _ _ _ _ _ H7) as [l ->]. exists l. split; [reflexivity|].
  pose proof (alloc_json_fresh _ _ _ _ H6).
  pose proof (nl_log _ _ _ _ _ H1). pose proof (nl_py_iter _ _ _ _ H2).
  pose proof (nl_lines _ _ _ _ H3). pose proof (nl_chat _ _ _ _ _ _ _ H4).
  pose proof (nl_lift _ _ _ _ H5). unfold next_le in *. lia.
Qed.

Lemma strategy_agent_new svc trend_data s v s' :
  strategy_agent svc trend_data s = (Ok v, s') -> exists l, v = PRef l /\ (st_next s <= l)%N.
Proof.
  unfold strategy_agent. intros H.
  apply bind_Ok_inv in H as [u1 [s1 [H1 H]]].
  apply bind_Ok_inv in H as [ts [s2 [H2 H]]].
  apply bind_Ok_inv in H as [ss [s3 [H3 H]]].
  apply bind_Ok_inv in H as [raw [s4 [H4 H]]].
  apply bind_Ok_inv in H as [jv [s5 [H5 H]]].
  apply bind_Ok_inv in H as [result [s6 [H6 H]]].
  apply bind_Ok_inv in H as [os [s7 [H7 H]]].
  apply bind_Ok_inv in H as [u8 [s8 [H8 H]]].
  injection H as <- _.
  destruct (get_items_ref _ _ _ _ _ H7) as [l ->]. exists l. split; [reflexivity|].
  pose proof (alloc_json_fresh _ _ _ _ H6).
  pose proof (nl_log _ _ _ _ _ H1). pose proof (nl_get_items _ _ _ _ _ H2).
  pose proof (nl_get_items _ _ _ _ _ H3). pose proof (nl_chat _ _ _ _ _ _ _ H4).
  pose proof (nl_lift _ _ _ _ H5). unfold next_le in *. lia.
Qed.

Lemma risk_agent_new svc trend_data strategy_data s v s' :
  risk_agent svc trend_data strategy_data s = (Ok v, s') -> exists l, v = PRef l /\ (st_next s <= l)%N.
Proof.
  unfold risk_agent. intros H.
  apply bind_Ok_inv in H as [u1 [s1 [H1 H]]].
  apply bind_Ok_inv in H as [ts [s2 [H2 H]]].
  apply bind_Ok_inv in H as [rs [s3 [H3 H]]].
  apply bind_Ok_inv in H as [raw [s4 [H4 H]]].
  apply bind_Ok_inv in H as [jv [s5 [H5 H]]].
  apply bind_Ok_inv in H as [result [s6 [H6 H]]].
  apply bind_Ok_inv in H as [ks [s7 [H7 H]]].
  apply bind_Ok_inv in H as [u8 [s8 [H8 H]]].
  injection H as <- _.
  destruct (get_items_ref _ _ _ _ _ H7) as [l ->]. exists l. split; [reflexivity|].
  pose proof (alloc_json_fresh _ _ _ _ H6).
  pose proof (nl_log _ _ _ _ _ H1). pose proof (nl_get_items _ _ _ _ _ H2).
  pose proof (nl_get_items _ _ _ _ _ H3). pose proof (nl_chat _ _ _ _ _ _ _ H4).
  pose proof (nl_lift _ _ _ _ H5). unfold next_le in *. lia.
Qed.

Lemma frame_record' e : preserves frame (record e).
Proof. exact (frame_record (fun _ => True) e I). Qed.

Lemma frame_trend_agent svc a : preserves frame (trend_agent svc a).
Proof.
  exact (pres_trend_agent frame frame_refl frame_trans frame_alloc (fun _ => True)
           (fun e _ => frame_record' e) svc a (fun _ => I) (fun _ => I)).
Qed.

Lemma frame_strategy_agent svc a : preserves frame (strategy_agent svc a).
Proof.
  exact (pres_strategy_agent frame frame_refl frame_trans frame_alloc (fun _ => True)
           (fun e _ => frame_record' e) svc a (fun _ => I) (fun _ => I)).
Qed.

Lemma frame_risk_agent svc a b : preserves frame (risk_agent svc a b).
Proof.
  exact (pres_risk_agent frame frame_refl frame_trans frame_alloc (fun _ => True)
           (fun e _ => frame_record' e) svc a b (fun _ => I) (fun _ => I)).
Qed.

Lemma frame_voice_agent svc brief : preserves frame (voice_agent svc brief).
Proof.
  exact (pres_voice_agent frame frame_refl frame_trans (fun _ => True)
           (fun e _ => frame_record' e) svc brief (fun _ => I) (fun _ => I)).
Qed.

Lemma frame_pipeline_tail svc topic include_voice a tr st rk :
  preserves frame (pipeline_tail svc topic include_voice a tr st rk).
Proof.
  exact (pres_pipeline_tail frame frame_refl frame_trans frame_alloc (fun _ => True)
           (fun e _ => frame_record' e) svc topic include_voice a tr st rk
           (fun _ => I) (fun _ => I) (fun _ => I)).
Qed.

(** C9: from a well-formed heap, the Trend, Strategy and Risk stages, the
    Voice stage and the assembly of the report leave every existing object
    (the articles, the trend, strategy and risk dicts and everything they
    contain) as it was; the Trend, Strategy and Risk stages return a dict
    allocated during the call. *)
Theorem stages_read_only svc s topic include_voice brief articles trends strategy risks :
  heap_wf s ->
  (forall r s', trend_agent svc articles s = (r, s') -> unchanged s s' /\ new_value s r) /\
  (forall r s', strategy_agent svc trends s = (r, s') -> unchanged s s' /\ new_value s r) /\
  (forall r s', risk_agent svc trends strategy s = (r, s') -> unchanged s s' /\ new_value s r) /\
  (forall r s', voice_agent svc brief s = (r, s') -> unchanged s s') /\
  (forall r s', pipeline_tail svc topic include_voice articles trends strategy risks s = (r, s') ->
                unchanged s s').
Proof.
  intros Hwf. split; [|split; [|split; [|split]]]; intros r s' H.
  - split; [exact (proj1 (proj2 (frame_trend_agent _ _ _ _ _ H Hwf)))|].
    intros v ->. exact (trend_agent_new _ _ _ _ _ H).
  - split; [exact (proj1 (proj2 (frame_strategy_agent _ _ _ _ _ H Hwf)))|].
    intros v ->. exact (strategy_agent_new _ _ _ _ _ H).
  - split; [exact (proj1 (proj2 (frame_risk_agent _ _ _ _ _ _ H Hwf)))|].
    intros v ->. exact (risk_agent_new _ _ _ _ _ _ H).
  - exact (proj1 (proj2 (frame_voice_agent _ _ _ _ _ H Hwf))).
  - exact (proj1 (proj2 (frame_pipeline_tail _ _ _ _ _ _ _ _ _ _ H Hwf))).
Qed.

Lemma stages_read_only_witness :
  heap_wf staged_state /\
  (let '(r, s') := trend_agent sample_services (PRef 0) staged_state in
   unchanged staged_state s' /\ new_value staged_state r) /\
  (let '(r, s') := risk_agent sample_services (PRef 2) (PRef 5) staged_state in
   unchanged staged_state s' /\ new_value staged_state r) /\
  (let '(r, s') := pipeline_tail sample_services (t "chips") true (PRef 0) (PRef 2) (PRef 5) (PRef 6)
                     staged_state in
   unchanged staged_state s').
Proof.
  assert (H : heap_wf staged_state).
  { intros l Hl. cbn [st_heap st_next staged_state] in *.
    rewrite !lookup_insert_ne by lia. apply lookup_empty. }
  split; [exact H|]. split; [|split].
  - destruct (trend_agent sample_services (PRef 0) staged_state) as [r s'] eqn:E.
    exact (proj1 (stages_read_only sample_services staged_state (t "chips") true [] (PRef 0) (PRef 2) (PRef 5)
                    (PRef 6) H) r s' E).
  - destruct (risk_agent sample_services (PRef 2) (PRef 5) staged_state) as [r s'] eqn:E.
    exact (proj1 (proj2 (proj2 (stages_read_only sample_services staged_state (t "chips") true [] (PRef 0)
                                  (PRef 2) (PRef 5) (PRef 6) H))) r s' E).
  - destruct (pipeline_tail sample_services (t "chips") true (PRef 0) (PRef 2) (PRef 5) (PRef 6) staged_state)
      as [r s'] eqn:E.
    exact (proj2 (proj2 (proj2 (proj2 (stages_read_only sample_services staged_state (t "chips") true [] (PRef 0)
                                         (PRef 2) (PRef 5) (PRef 6) H)))) r s' E).
Defined.

(* ------------------------------------------------------------------ *)
(** ** The Data stage *)

Lemma heap_wf_lt s l o : heap_wf s -> st_heap s !! l = Some o -> (l < st_next s)%N.
Proof.
  intros Hwf Hl. destruct (N.lt_ge_cases l (st_next s)) as [Hlt|Hge]; [exact Hlt|].
  rewrite (Hwf l Hge) in Hl. discriminate Hl.
Qed.

Lemma chat_state svc tag system user s r s' :
  _chat svc tag system user s = (r, s') ->
  st_heap s' = st_heap s /\ st_next s' = st_next s.
Proof.
  unfold _chat, bind, record. destruct (reka_chat svc _); intros H; injection H as _ <-; split; reflexivity.
Qed.

(** One iteration of the Data loop appends the dict of its hit to the
    articles list and touches nothing else. *)
Lemma data_item_step svc n item s xs done u s' :
  heap_wf s -> st_heap s !! n = Some (OList xs) -> Forall2 (article_of (st_heap s)) xs done ->
  data_item svc n item s = (Ok u, s') ->
  heap_wf s' /\ exists x, st_heap s' !! n = Some (OList (xs ++ [x]))
                          /\ Forall2 (article_of (st_heap s')) (xs ++ [x]) (done ++ [item]).
Proof.
  intros Hwf Hn Hxs H. unfold data_item in H.
  apply bind_Ok_inv in H as [summary [s1 [H1 H]]].
  destruct (chat_state _ _ _ _ _ _ _ H1) as [Hh1 Hn1].
  apply bind_Ok_inv in H as [m [s2 [H2 H]]].
  injection H2 as <- <-.
  apply bind_Ok_inv in H as [u3 [s3 [H3 H]]].
  pose proof (heap_wf_lt _ _ _ Hwf Hn) as Hnlt.
  assert (Hm : st_heap s !! st_next s = None) by (apply Hwf; lia).
  set (dict := ODict _) in H3.
  assert (Hmn : st_next s1 <> n) by (rewrite Hn1; lia).
  unfold py_append in H3. cbn [st_heap st_next st_trace] in H3.
  rewrite lookup_insert_ne in H3 by congruence. rewrite Hh1, Hn in H3.
  injection H3 as _ <-.
  unfold log, record in H. injection H as _ <-. cbn [st_heap st_next].
  rewrite Hn1 in *. split; [|exists (PRef (st_next s)); split].
  - unfold heap_wf. cbn [st_heap st_next]. intros l Hl.
    rewrite !lookup_insert_ne by lia. apply Hwf. lia.
  - apply lookup_insert_eq.
  - apply Forall2_app.
    + eapply Forall2_impl; [exact Hxs|]. intros x it [a [sm [-> Ha]]]. exists a, sm. split; [reflexivity|].
      assert (Hna : n <> a) by (intros Heq; rewrite <- Heq, Hn in Ha; discriminate Ha).
      assert (Hma : st_next s <> a) by (intros Heq; rewrite <- Heq, Hm in Ha; discriminate Ha).
      rewrite !lookup_insert_ne by assumption. exact Ha.
    + constructor; [|constructor]. exists (st_next s), summary. split; [reflexivity|].
      rewrite lookup_insert_ne by lia. apply lookup_insert_eq.
Qed.

Lemma data_loop svc n items : forall s xs done s',
  heap_wf s -> st_heap s !! n = Some (OList xs) -> Forall2 (article_of (st_heap s)) xs done ->
  iterM (data_item svc n) items s = (Ok tt, s') ->
  heap_wf s' /\ exists ys, st_heap s' !! n = Some (OList ys)
                           /\ Forall2 (article_of (st_heap s')) ys (done ++ items).
Proof.
  induction items as [|it items IH]; intros s xs done s' Hwf Hn Hxs H; simpl in H.
  - injection H as <-. rewrite app_nil_r. split; [exact Hwf|]. exists xs. split; assumption.
  - apply bind_Ok_inv in H as [u [s1 [H1 H]]].
    destruct (data_item_step _ _ _ _ _ _ _ _ Hwf Hn Hxs H1) as [Hwf1 [x [Hn1 Hxs1]]].
    replace (done ++ it :: items) with ((done ++ [it]) ++ items) by (rewrite <- app_assoc; reflexivity).
    exact (IH _ _ _ _ Hwf1 Hn1 Hxs1 H).
Qed.

(** C7: when the Data stage returns, its value is a list of at most
    [MAX_ARTICLES] article dicts, the [i]-th built from the [i]-th of the
    first [MAX_ARTICLES] search hits, in the order the search returned
    them. *)
Theorem data_agent_articles svc topic s hits :
  heap_wf s -> tavily_search svc topic MAX_ARTICLES = Ok hits ->
  match data_agent svc topic s with
  | (Ok v, s') =>
    exists l xs, v = PRef l /\ st_heap s' !! l = Some (OList xs)
                 /\ (length xs <= MAX_ARTICLES)%nat
                 /\ Forall2 (article_of (st_heap s')) xs (firstn MAX_ARTICLES hits)
  | (Exc _, _) => True
  end.
Proof.
  intros Hwf Hts. destruct (data_agent svc topic s) as [[v|e] s'] eqn:H; [|exact I].
  unfold data_agent in H.
  apply bind_Ok_inv in H as [u1 [s1 [H1 H]]].
  pose proof (proj1 (frame_record' _ _ _ _ H1 Hwf)) as Hwf1.
  apply bind_Ok_inv in H as [u2 [s2 [H2 H]]].
  pose proof (proj1 (frame_record' _ _ _ _ H2 Hwf1)) as Hwf2.
  apply bind_Ok_inv in H as [raw [s3 [H3 H]]].
  unfold lift in H3. rewrite Hts in H3. injection H3 as <- <-.
  destruct hits as [|h0 hs].
  - apply bind_Ok_inv in H as [u4 [s4 [H4 H]]].
    pose proof (proj1 (frame_record' _ _ _ _ H4 Hwf2)) as Hwf4.
    apply bind_Ok_inv in H as [l [s5 [H5 H]]].
    injection H as <- <-. injection H5 as <- <-.
    exists (st_next s4), []. split; [reflexivity|]. split; [apply lookup_insert_eq|].
    split; [simpl; lia | constructor].
  - apply bind_Ok_inv in H as [n [s4 [H4 H]]].
    pose proof (proj1 (frame_alloc _ _ _ _ H4 Hwf2)) as Hwf4.
    assert (Hn : st_heap s4 !! n = Some (OList [])) by (injection H4 as <- <-; apply lookup_insert_eq).
    apply bind_Ok_inv in H as [u5 [s5 [H5 H]]].
    injection H as <- <-. destruct u5.
    destruct (data_loop _ _ _ _ _ [] _ Hwf4 Hn (List.Forall2_nil _) H5) as [_ [ys [Hys Hart]]].
    exists n, ys. split; [reflexivity|]. split; [exact Hys|]. split; [|exact Hart].
    rewrite (Forall2_length _ _ _ Hart). apply firstn_le_length.
Qed.

Lemma data_agent_articles_witness :
  heap_wf init_state /\ tavily_search sample_services (t "chips") MAX_ARTICLES = Ok sample_hits /\
  match data_agent sample_services (t "chips") init_state with
  | (Ok v, s') =>
    exists l xs, v = PRef l /\ st_heap s' !! l = Some (OList xs)
                 /\ (length xs <= MAX_ARTICLES)%nat
                 /\ Forall2 (article_of (st_heap s')) xs (firstn MAX_ARTICLES sample_hits)
  | (Exc _, _) => True
  end.
Proof.
  assert (H1 : heap_wf init_state) by (intros l _; reflexivity).
  assert (H2 : tavily_search sample_services (t "chips") MAX_ARTICLES = Ok sample_hits) by reflexivity.
  split; [exact H1|]. split; [exact H2|].
  exact (data_agent_articles sample_services (t "chips") init_state sample_hits H1 H2).
Defined.

(* ------------------------------------------------------------------ *)
(** ** Runs whose structured answers are all malformed *)

Lemma wp_eq {A} (m : M A) Q s : wp m Q s -> exists a s', m s = (Ok a, s') /\ Q a s'.
Proof. unfold wp. destruct (m s) as [[a|e] s']; [eauto | contradiction]. Qed.

Lemma wp_of_eq {A} (m : M A) (Q : A -> state -> Prop) s a s' : m s = (Ok a, s') -> Q a s' -> wp m Q s.
Proof. intros H HQ. unfold wp. rewrite H. exact HQ. Qed.

Lemma wp_mono {A} (m : M A) (Q Q' : A -> state -> Prop) s :
  wp m Q s -> (forall a s', Q a s' -> Q' a s') -> wp m Q' s.
Proof. unfold wp. destruct (m s) as [[a|e] s']; auto. Qed.

Lemma wp_bind {A B} (m : M A) (f : A -> M B) Q s :
  wp m (fun a s1 => wp (f a) Q s1) s -> wp (bind m f) Q s.
Proof. unfold wp, bind. destruct (m s) as [[a|e] s1]; auto. Qed.

Lemma wp_ret {A} (a : A) (Q : A -> state -> Prop) s : Q a s -> wp (ret a) Q s.
Proof. intros H. exact H. Qed.

Lemma wp_pres {A} (R : state -> state -> Prop) (m : M A) Q s :
  preserves R m -> wp m Q s -> wp m (fun a s' => R s s' /\ Q a s') s.
Proof.
  intros HR. unfold wp. destruct (m s) as [[a|e] s'] eqn:E; [|auto].
  intros HQ. split; [exact (HR _ _ _ E) | exact HQ].
Qed.

Lemma wp_record e (Q : unit -> state -> Prop) s :
  (forall s', st_heap s' = st_heap s -> st_next s' = st_next s -> st_trace s' = st_trace s ++ [e] ->
              Q tt s') -> wp (record e) Q s.
Proof. intros H. apply H; reflexivity. Qed.

Lemma wp_log tag msg (Q : unit -> state -> Prop) s :
  (forall s', st_heap s' = st_heap s -> st_next s' = st_next s ->
              st_trace s' = st_trace s ++ [EPut tag (Some (_sse (t "log") msg))] -> Q tt s') ->
  wp (log tag msg) Q s.
Proof. apply wp_record. Qed.

Lemma wp_alloc o (Q : N -> state -> Prop) s :
  heap_wf s ->
  (forall s', heap_wf s' -> unchanged s s' -> st_heap s' !! st_next s = Some o ->
              (st_next s < st_next s')%N -> st_trace s' = st_trace s -> Q (st_next s) s') ->
  wp (alloc o) Q s.
Proof.
  intros Hwf H.
  assert (E : alloc o s = (Ok (st_next s), St (<[st_next s := o]> (st_heap s)) (N.succ (st_next s)) (st_trace s)))
    by reflexivity.
  destruct (frame_alloc _ _ _ _ E Hwf) as [W [U _]].
  apply (wp_of_eq _ _ _ _ _ E). apply H; [exact W | exact U | apply lookup_insert_eq | simpl; lia | reflexivity].
Qed.

Lemma wp_lift {A} (r : res A) a (Q : A -> state -> Prop) s : r = Ok a -> Q a s -> wp (lift r) Q s.
Proof. intros -> H. exact H. Qed.

Lemma wp_py_iter_list l xs (Q : list pv -> state -> Prop) s :
  st_heap s !! l = Some (OList xs) -> Q xs s -> wp (py_iter (PRef l)) Q s.
Proof. intros Hl H. unfold wp, py_iter, bind, read. rewrite Hl. exact H. Qed.

Lemma wp_py_get_dict l kvs k d (Q : pv -> state -> Prop) s :
  st_heap s !! l = Some (ODict kvs) ->
  Q (match dict_lookup k kvs with Some x => x | None => d end) s -> wp (py_get (PRef l) k d) Q s.
Proof. intros Hl H. unfold wp, py_get, bind, read. rewrite Hl. exact H. Qed.

Lemma wp_py_getitem_dict l kvs k x (Q : pv -> state -> Prop) s :
  st_heap s !! l = Some (ODict kvs) -> dict_lookup k kvs = Some x -> Q x s -> wp (py_getitem (PRef l) k) Q s.
Proof. intros Hl Hk H. unfold wp, py_getitem, bind, read. rewrite Hl. cbv beta iota. rewrite Hk. exact H. Qed.

Lemma all_str_map ss : all_str (map PStr ss) = Some ss.
Proof. induction ss as [|x ss IH]; simpl; [reflexivity | rewrite IH; reflexivity]. Qed.

Lemma wp_py_join_list sep l ss (Q : text -> state -> Prop) s :
  st_heap s !! l = Some (OList (map PStr ss)) -> Q (join sep ss) s -> wp (py_join sep (PRef l)) Q s.
Proof.
  intros Hl H. unfold py_join. apply wp_bind. apply (wp_py_iter_list _ _ _ _ Hl).
  unfold wp. rewrite all_str_map. exact H.
Qed.

Lemma wp_log_enum tag prefix items (Q : unit -> state -> Prop) s :
  (forall s', st_heap s' = st_heap s -> st_next s' = st_next s -> Q tt s') ->
  wp (log_enum tag prefix items) Q s.
Proof.
  unfold log_enum. generalize 1%nat as i. revert s.
  induction items as [|x items IH]; intros s i H; simpl.
  - apply wp_ret. apply H; reflexivity.
  - apply wp_bind. apply wp_log. intros s1 Hh1 Hn1 _. apply IH.
    intros s2 Hh2 Hn2. apply H; congruence.
Qed.

Lemma wp_py_append l xs v (Q : unit -> state -> Prop) s :
  st_heap s !! l = Some (OList xs) ->
  Q tt (St (<[l := OList (xs ++ [v])]> (st_heap s)) (st_next s) (st_trace s)) ->
  wp (py_append l v) Q s.
Proof. intros Hl H. unfold wp, py_append. rewrite Hl. exact H. Qed.

Lemma wp_py_dumps v j (Q : text -> state -> Prop) s :
  heap_json py_recursion_limit (st_heap s) v = Ok j -> Q (json_dumps j) s -> wp (py_dumps v) Q s.
Proof. intros Hj H. unfold wp, py_dumps. rewrite Hj. exact H. Qed.

Lemma heap_wf_same s s' : st_heap s' = st_heap s -> st_next s' = st_next s -> heap_wf s -> heap_wf s'.
Proof. intros Hh Hn Hwf l Hl. rewrite Hh. apply Hwf. rewrite <- Hn. exact Hl. Qed.

Lemma unchanged_refl s : unchanged s s.
Proof. intros l o H. exact H. Qed.

Lemma unchanged_same s s' : st_heap s' = st_heap s -> unchanged s s'.
Proof. intros Hh l o H. rewrite Hh. exact H. Qed.

Lemma unchanged_trans s1 s2 s3 : unchanged s1 s2 -> unchanged s2 s3 -> unchanged s1 s3.
Proof. intros U1 U2 l o H. apply U2, U1, H. Qed.

Lemma str_list_mono s s' v : unchanged s s' -> str_list (st_heap s) v -> str_list (st_heap s') v.
Proof. intros U [l [ss [-> Hl]]]. exists l, ss. split; [reflexivity | apply U, Hl]. Qed.

Lemma str_dict_mono s s' keys v : unchanged s s' -> str_dict (st_heap s) keys v -> str_dict (st_heap s') keys v.
Proof.
  intros U [l [vs [-> [Hl F]]]]. exists l, vs. split; [reflexivity|]. split; [apply U, Hl|].
  eapply Forall2_impl; [exact F|]. intros k x. apply str_list_mono, U.
Qed.

Lemma article_dict_mono s s' x : unchanged s s' -> article_dict (st_heap s) x -> article_dict (st_heap s') x.
Proof. intros U [a [hd [src [sm [-> Ha]]]]]. exists a, hd, src, sm. split; [reflexivity | apply U, Ha]. Qed.

Lemma article_list_mono s s' v : unchanged s s' -> article_list (st_heap s) v -> article_list (st_heap s') v.
Proof.
  intros U [l [xs [-> [Hl [Hne F]]]]]. exists l, xs. split; [reflexivity|]. split; [apply U, Hl|].
  split; [exact Hne|]. eapply Forall_impl; [exact F|]. intros x. apply article_dict_mono, U.
Qed.

Lemma trace_ext_same (P : effect -> Prop) s s1 s2 :
  trace_ext P s s1 -> st_trace s2 = st_trace s1 -> trace_ext P s s2.
Proof. intros [ext [He F]] H2. exists ext. split; [rewrite H2; exact He | exact F]. Qed.

Lemma trace_ext_snoc (P : effect -> Prop) s s1 s2 e :
  trace_ext P s s1 -> st_trace s2 = st_trace s1 ++ [e] -> P e -> trace_ext P s s2.
Proof.
  intros [ext [He F]] H2 Pe. exists (ext ++ [e]). split.
  - rewrite H2, He, app_assoc. reflexivity.
  - apply Forall_app. split; [exact F | constructor; [exact Pe | constructor]].
Qed.

Lemma progress_log tag msg : progress_effect (EPut tag (Some (_sse (t "log") msg))).
Proof. split; reflexivity. Qed.

Lemma progress_chat tag c : progress_effect (EChat tag c).
Proof. split; reflexivity. Qed.

Lemma progress_search q n : progress_effect (ESearch q n).
Proof. split; reflexivity. Qed.

Lemma mapM_alloc_strs ss s : mapM alloc_json (map JStr ss) s = (Ok (map PStr ss), s).
Proof.
  induction ss as [|x ss IH]; [reflexivity|].
  cbn [map mapM]. unfold bind at 1. cbn [alloc_json]. unfold ret at 1. unfold bind. rewrite IH. reflexivity.
Qed.

Lemma wp_alloc_strs ss (Q : pv -> state -> Prop) s :
  heap_wf s ->
  (forall l s', heap_wf s' -> unchanged s s' -> st_heap s' !! l = Some (OList (map PStr ss)) -> Q (PRef l) s') ->
  wp (alloc_json (JArr (map JStr ss))) Q s.
Proof.
  intros Hwf H. cbn [alloc_json]. apply wp_bind.
  apply (wp_of_eq _ _ _ _ _ (mapM_alloc_strs ss s)).
  apply wp_bind. apply wp_alloc; [exact Hwf|]. intros s' W U Hl _ _. apply wp_ret. apply H; assumption.
Qed.

Lemma res_mapM_ok {A B} (g : A -> res B) xs :
  (forall x, In x xs -> exists y, g x = Ok y) -> exists ys, res_mapM g xs = Ok ys.
Proof.
  induction xs as [|x xs IH]; intros H; simpl; [eauto|].
  destruct (H x (or_introl eq_refl)) as [y ->].
  destruct IH as [ys ->]; [intros; apply H; right; assumption|]. eauto.
Qed.

Lemma Forall2_in_r {A B} (R : A -> B -> Prop) xs ys y : Forall2 R xs ys -> In y ys -> exists x, R x y.
Proof.
  induction 1 as [|x y' xs ys Hr _ IH]; simpl; [contradiction|].
  intros [<-|Hin]; [eauto | exact (IH Hin)].
Qed.

Lemma res_mapM_strs f h ss : res_mapM (heap_json f h) (map PStr ss) = Ok (map JStr ss).
Proof. induction ss as [|x ss IH]; [reflexivity|]. simpl. rewrite IH. destruct f; reflexivity. Qed.

Lemma heap_json_str_list f h v : str_list h v -> exists j, heap_json (S f) h v = Ok j.
Proof.
  intros [l [ss [-> Hl]]]. cbn [heap_json]. rewrite Hl.
  assert (Hm : exists ys, res_mapM (heap_json f h) (map PStr ss) = Ok ys).
  { apply res_mapM_ok. intros x Hx. apply in_map_iff in Hx as [c [<- _]]. destruct f; eexists; reflexivity. }
  destruct Hm as [ys ->]. eauto.
Qed.

Lemma heap_json_str_dict f h keys v : str_dict h keys v -> exists j, heap_json (S (S f)) h v = Ok j.
Proof.
  intros [l [vs [-> [Hl F]]]]. cbn [heap_json]. rewrite Hl.
  match goal with |- context [res_mapM ?g ?xs] =>
    assert (Hm : exists ys, res_mapM g xs = Ok ys) end.
  { apply res_mapM_ok. intros [k x] Hin. apply in_combine_r in Hin.
    destruct (Forall2_in_r _ _ _ _ F Hin) as [_ Hx].
    cbv beta iota. destruct Hx as [l' [ss [-> Hl']]]. rewrite Hl', res_mapM_strs. eexists; reflexivity. }
  destruct Hm as [ys ->]. eexists; reflexivity.
Qed.

Lemma heap_json_article_list f h v : article_list h v -> exists j, heap_json (S (S f)) h v = Ok j.
Proof.
  intros [l [xs [-> [Hl [_ F]]]]]. cbn [heap_json]. rewrite Hl.
  match goal with |- context [res_mapM ?g ?xs] =>
    assert (Hm : exists ys, res_mapM g xs = Ok ys) end.
  { apply res_mapM_ok. intros x Hin. rewrite List.Forall_forall in F.
    destruct (F x Hin) as [a [hd [src [sm [-> Ha]]]]].
    cbn [heap_json]. cbv beta iota. rewrite Ha. destruct f; eexists; reflexivity. }
  destruct Hm as [ys ->]. eexists; reflexivity.
Qed.

Lemma dict_get_str h keys v k :
  str_dict h keys v -> In k keys ->
  exists l kvs x, v = PRef l /\ h !! l = Some (ODict kvs) /\ dict_lookup k kvs = Some x /\ str_list h x.
Proof.
  intros [l [vs [-> [Hl F]]]] Hk. exists l, (combine keys vs).
  cut (exists x, dict_lookup k (combine keys vs) = Some x /\ str_list h x).
  { intros [x [Hx Hs]]. exists x. auto. }
  clear Hl. induction F as [|k' x keys vs Hx F IH]; [contradiction|].
  simpl. destruct (decide (k = k')) as [_|Hne]; [eauto|].
  apply IH. destruct Hk as [->|Hk]; [congruence | exact Hk].
Qed.

Lemma heap_json_ref f h l :
  heap_json (S f) h (PRef l) =
  match h !! l with
  | Some (OList xs) =>
    match res_mapM (heap_json f h) xs with Ok ys => Ok (JArr ys) | Exc e => Exc e end
  | Some (ODict kvs) =>
    match res_mapM (fun '(k, x) => match heap_json f h x with Ok y => Ok (k, y) | Exc e => Exc e end) kvs with
    | Ok ys => Ok (JObj ys)
    | Exc e => Exc e
    end
  | None => Exc (Exn TypeError (t "dangling reference"))
  end.
Proof. reflexivity. Qed.

(** The report dict of [_run_pipeline] can be encoded. *)
Lemma heap_json_report f h r topic a tr st rk vs :
  h !! r = Some (ODict [(t "topic", PStr topic); (t "articles", a); (t "trends", tr);
                        (t "strategy", st); (t "risks", rk); (t "voice_script", vs)]) ->
  article_list h a -> str_dict h TREND_KEYS tr -> str_dict h STRATEGY_KEYS st -> str_dict h RISK_KEYS rk ->
  (vs = PNone \/ exists x, vs = PStr x) ->
  exists j, heap_json (S (S (S f))) h (PRef r) = Ok j.
Proof.
  intros Hr Ha Ht Hs Hk Hv. rewrite heap_json_ref, Hr.
  match goal with |- context [res_mapM ?g ?xs] =>
    assert (Hm : exists ys, res_mapM g xs = Ok ys) end.
  { apply res_mapM_ok. intros [k x] Hin.
    assert (Hx : exists j, heap_json (S (S f)) h x = Ok j).
    { simpl in Hin. destruct Hin as [E|[E|[E|[E|[E|[E|[]]]]]]]; injection E as <- <-.
      - eexists; reflexivity.
      - exact (heap_json_article_list f h a Ha).
      - exact (heap_json_str_dict f h _ tr Ht).
      - exact (heap_json_str_dict f h _ st Hs).
      - exact (heap_json_str_dict f h _ rk Hk).
      - destruct Hv as [->|[y ->]]; eexists; reflexivity. }
    destruct Hx as [j Hj]. cbv beta iota. rewrite Hj. eexists; reflexivity. }
  destruct Hm as [ys ->]. eexists; reflexivity.
Qed.

Lemma extract_malformed fb raw : malformed raw -> extract_with fb raw = Ok (fb raw).
Proof. intros [e [He Hv]]. unfold extract_with. rewrite He, Hv. reflexivity. Qed.

Lemma wp_alloc_members d s :
  heap_wf s ->
  wp (mapM (fun '((k, x) : text * json) => let! y := alloc_json x in ret (k, y))
           (map (fun '((k, xs) : text * list text) => (k, JArr (map JStr xs))) d))
     (fun ys s' => heap_wf s' /\ unchanged s s' /\
        exists vs, ys = combine (map fst d) vs /\ Forall2 (fun _ x => str_list (st_heap s') x) (map fst d) vs) s.
Proof.
  revert s. induction d as [|[k xs] d IH]; intros s Hwf.
  - apply wp_ret. split; [exact Hwf|]. split; [apply unchanged_refl|]. exists []. split; constructor.
  - cbn [map mapM]. apply wp_bind. apply wp_bind. apply wp_alloc_strs; [exact Hwf|].
    intros l s1 W1 U1 Hl1. apply wp_ret. apply wp_bind.
    eapply wp_mono; [apply (IH s1 W1)|]. intros ys s2 [W2 [U2 [vs [-> F]]]].
    apply wp_ret. split; [exact W2|]. split; [exact (unchanged_trans _ _ _ U1 U2)|].
    exists (PRef l :: vs). split; [reflexivity|]. constructor; [|exact F].
    exists l, xs. split; [reflexivity | apply U2, Hl1].
Qed.

Lemma wp_alloc_shape d (Q : pv -> state -> Prop) s :
  heap_wf s ->
  (forall v s', heap_wf s' -> unchanged s s' -> str_dict (st_heap s') (map fst d) v -> Q v s') ->
  wp (alloc_json (shape_json d)) Q s.
Proof.
  intros Hwf H. unfold shape_json. cbn [alloc_json]. apply wp_bind.
  eapply wp_mono; [apply (wp_alloc_members d s Hwf)|]. intros ys s1 [W1 [U1 [vs [-> F]]]].
  apply wp_bind. apply wp_alloc; [exact W1|]. intros s2 W2 U2 Hl2 _ _. apply wp_ret.
  apply H; [exact W2 | exact (unchanged_trans _ _ _ U1 U2)|].
  exists (st_next s1), vs. split; [reflexivity|]. split; [exact Hl2|].
  eapply Forall2_impl; [exact F|]. intros k x. apply str_list_mono, U2.
Qed.

Lemma wp_get_items keys k v (Q : list pv -> state -> Prop) s :
  heap_wf s -> str_dict (st_heap s) keys v -> In k keys ->
  (forall ss s', heap_wf s' -> unchanged s s' -> st_trace s' = st_trace s -> Q (map PStr ss) s') ->
  wp (get_items v k) Q s.
Proof.
  intros Hwf Hd Hk H. unfold get_items. apply wp_bind. apply wp_alloc; [exact Hwf|].
  intros s1 W1 U1 _ _ T1. apply wp_bind.
  destruct (dict_get_str _ _ _ _ (str_dict_mono _ _ _ _ U1 Hd) Hk) as [l [kvs [x [-> [Hl [Hx Hs]]]]]].
  apply (wp_py_get_dict _ _ _ _ _ _ Hl). rewrite Hx.
  destruct Hs as [l' [ss [-> Hl']]]. apply (wp_py_iter_list _ _ _ _ Hl'). apply H; assumption.
Qed.

Lemma article_line_ok x (Q : text -> state -> Prop) s :
  article_dict (st_heap s) x -> (forall line, Q line s) -> wp (article_line x) Q s.
Proof.
  intros [a [hd [src [sm [-> Ha]]]]] H. unfold article_line.
  apply wp_bind. eapply (wp_py_getitem_dict _ _ _ _ _ _ Ha); [reflexivity|].
  apply wp_bind. eapply (wp_py_getitem_dict _ _ _ _ _ _ Ha); [reflexivity|].
  apply wp_bind. eapply (wp_py_getitem_dict _ _ _ _ _ _ Ha); [reflexivity|].
  apply wp_ret, H.
Qed.

Lemma article_lines_ok xs s :
  Forall (article_dict (st_heap s)) xs -> wp (mapM article_line xs) (fun _ s' => s' = s) s.
Proof.
  induction 1 as [|x xs Hx _ IH]; [apply wp_ret; reflexivity|].
  cbn [mapM]. apply wp_bind. apply article_line_ok; [exact Hx|]. intros line.
  apply wp_bind. eapply wp_mono; [exact IH|]. intros ys s' ->. apply wp_ret. reflexivity.
Qed.

Lemma same_state s s' :
  st_heap s' = st_heap s -> st_next s' = st_next s -> heap_wf s -> heap_wf s' /\ unchanged s s'.
Proof. intros Hh Hn Hwf. split; [exact (heap_wf_same _ _ Hh Hn Hwf) | exact (unchanged_same _ _ Hh)]. Qed.

Section Malformed.
Variable svc : services.
(** Every call to the reasoning service succeeds, with an answer the
    extractor cannot decode. *)
Hypothesis Hchat : forall content, exists c, reka_chat svc content = Ok c /\ malformed (py_strip c).

Lemma wp_chat tag system user (Q : text -> state -> Prop) s :
  (forall c s', malformed c -> st_heap s' = st_heap s -> st_next s' = st_next s -> Q c s') ->
  wp (_chat svc tag system user) Q s.
Proof.
  intros H. unfold _chat. apply wp_bind. apply wp_record. intros s1 Hh Hn _.
  destruct (Hchat (t "System Instruction: " ++ system ++ NL ++ NL ++ t "User Question: " ++ user))
    as [c [Hc Hm]].
  rewrite Hc. apply wp_ret. apply H; assumption.
Qed.

Lemma wp_trend_agent articles s :
  heap_wf s -> article_list (st_heap s) articles ->
  wp (trend_agent svc articles)
     (fun v s' => heap_wf s' /\ unchanged s s' /\ str_dict (st_heap s') TREND_KEYS v) s.
Proof.
  intros Hwf [l [xs [-> [Hl [_ F]]]]]. unfold trend_agent.
  apply wp_bind. apply wp_log. intros s1 Hh1 Hn1 _.
  destruct (same_state _ _ Hh1 Hn1 Hwf) as [W1 U1].
  apply wp_bind. apply (wp_py_iter_list l xs); [rewrite Hh1; exact Hl|].
  apply wp_bind. eapply wp_mono; [apply article_lines_ok; rewrite Hh1; exact F|]. intros lines s2 ->.
  apply wp_bind. apply wp_chat. intros raw s3 Hm Hh3 Hn3.
  destruct (same_state _ _ Hh3 Hn3 W1) as [W3 U3].
  apply wp_bind. apply (wp_lift _ (trend_fallback raw)); [apply extract_malformed, Hm|].
  apply wp_bind.
  change (trend_fallback raw) with (shape_json [(t "trends", [raw]); (t "sentiment_shifts", [PARSE_SENTINEL])]).
  apply wp_alloc_shape; [exact W3|]. intros v s4 W4 U4 D4.
  apply wp_bind. apply (wp_get_items _ _ _ _ _ W4 D4); [left; reflexivity|]. intros ts s5 W5 U5 _.
  apply wp_bind. apply wp_log_enum. intros s6 Hh6 Hn6. apply wp_ret.
  destruct (same_state _ _ Hh6 Hn6 W5) as [W6 U6].
  split; [exact W6|]. split.
  - repeat (eapply unchanged_trans; [eassumption|]). apply unchanged_refl.
  - apply (str_dict_mono s5); [exact U6|]. apply (str_dict_mono s4); [exact U5 | exact D4].
Qed.

Lemma wp_strategy_agent tr s :
  heap_wf s -> str_dict (st_heap s) TREND_KEYS tr ->
  wp (strategy_agent svc tr)
     (fun v s' => heap_wf s' /\ unchanged s s' /\ str_dict (st_heap s') STRATEGY_KEYS v) s.
Proof.
  intros Hwf Dt. unfold strategy_agent.
  apply wp_bind. apply wp_log. intros s1 Hh1 Hn1 _.
  destruct (same_state _ _ Hh1 Hn1 Hwf) as [W1 U1].
  pose proof (str_dict_mono _ _ _ _ U1 Dt) as Dt1.
  apply wp_bind. apply (wp_get_items _ _ _ _ _ W1 Dt1); [left; reflexivity|]. intros ts s2 W2 U2 _.
  pose proof (str_dict_mono _ _ _ _ U2 Dt1) as Dt2.
  apply wp_bind. apply (wp_get_items _ _ _ _ _ W2 Dt2); [right; left; reflexivity|]. intros ss s3 W3 U3 _.
  apply wp_bind. apply wp_chat. intros raw s4 Hm Hh4 Hn4.
  destruct (same_state _ _ Hh4 Hn4 W3) as [W4 U4].
  apply wp_bind. apply (wp_lift _ (strategy_fallback raw)); [apply extract_malformed, Hm|].
  apply wp_bind.
  change (strategy_fallback raw)
    with (shape_json [(t "opportunities", [raw]); (t "recommendations", [PARSE_SENTINEL])]).
  apply wp_alloc_shape; [exact W4|]. intros v s5 W5 U5 D5.
  apply wp_bind. apply (wp_get_items _ _ _ _ _ W5 D5); [left; reflexivity|]. intros os s6 W6 U6 _.
  apply wp_bind. apply wp_log_enum. intros s7 Hh7 Hn7. apply wp_ret.
  destruct (same_state _ _ Hh7 Hn7 W6) as [W7 U7].
  split; [exact W7|]. split.
  - repeat (eapply unchanged_trans; [eassumption|]). apply unchanged_refl.
  - apply (str_dict_mono s6); [exact U7|]. apply (str_dict_mono s5); [exact U6 | exact D5].
Qed.

Lemma wp_risk_agent tr st s :
  heap_wf s -> str_dict (st_heap s) TREND_KEYS tr -> str_dict (st_heap s) STRATEGY_KEYS st ->
  wp (risk_agent svc tr st)
     (fun v s' => heap_wf s' /\ unchanged s s' /\ str_dict (st_heap s') RISK_KEYS v) s.
Proof.
  intros Hwf Dt Ds. unfold risk_agent.
  apply wp_bind. apply wp_log. intros s1 Hh1 Hn1 _.
  destruct (same_state _ _ Hh1 Hn1 Hwf) as [W1 U1].
  pose proof (str_dict_mono _ _ _ _ U1 Dt) as Dt1.
  apply wp_bind. apply (wp_get_items _ _ _ _ _ W1 Dt1); [left; reflexivity|]. intros ts s2 W2 U2 _.
  pose proof (str_dict_mono _ _ _ _ (unchanged_trans _ _ _ U1 U2) Ds) as Ds2.
  apply wp_bind. apply (wp_get_items _ _ _ _ _ W2 Ds2); [right; left; reflexivity|]. intros rs s3 W3 U3 _.
  apply wp_bind. apply wp_chat. intros raw s4 Hm Hh4 Hn4.
  destruct (same_state _ _ Hh4 Hn4 W3) as [W4 U4].
  apply wp_bind. apply (wp_lift _ (risk_fallback raw)); [apply extract_malformed, Hm|].
  apply wp_bind.
  change (risk_fallback raw)
    with (shape_json [(t "risks", [raw]); (t "weak_signals", [PARSE_SENTINEL]);
                      (t "uncertainties", [PARSE_SENTINEL])]).
  apply wp_alloc_shape; [exact W4|]. intros v s5 W5 U5 D5.
  apply wp_bind. apply (wp_get_items _ _ _ _ _ W5 D5); [left; reflexivity|]. intros ks s6 W6 U6 _.
  apply wp_bind. apply wp_log_enum. intros s7 Hh7 Hn7. apply wp_ret.
  destruct (same_state _ _ Hh7 Hn7 W6) as [W7 U7].
  split; [exact W7|]. split.
  - repeat (eapply unchanged_trans; [eassumption|]). apply unchanged_refl.
  - apply (str_dict_mono s6); [exact U7|]. apply (str_dict_mono s5); [exact U6 | exact D5].
Qed.

Lemma wp_voice_agent brief s :
  heap_wf s -> wp (voice_agent svc brief) (fun _ s' => heap_wf s' /\ unchanged s s') s.
Proof.
  intros Hwf. unfold voice_agent. apply wp_bind. apply wp_log. intros s1 Hh1 Hn1 _.
  apply wp_chat. intros c s2 _ Hh2 Hn2.
  destruct (same_state _ _ Hh1 Hn1 Hwf) as [W1 U1]. destruct (same_state _ _ Hh2 Hn2 W1) as [W2 U2].
  split; [exact W2 | exact (unchanged_trans _ _ _ U1 U2)].
Qed.

Lemma wp_data_item n it xs s :
  heap_wf s -> st_heap s !! n = Some (OList xs) -> wp (data_item svc n it) (fun _ _ => True) s.
Proof.
  intros Hwf Hn. unfold data_item. cbv zeta.
  apply wp_bind. apply wp_chat. intros summary s1 _ Hh1 Hn1.
  destruct (same_state _ _ Hh1 Hn1 Hwf) as [W1 U1].
  apply wp_bind. apply wp_alloc; [exact W1|]. intros s2 W2 U2 _ _ _.
  apply wp_bind. apply (wp_py_append n xs); [apply U2, U1, Hn|].
  apply wp_log. intros. exact I.
Qed.

Lemma data_loop_ok n items : forall s xs done,
  heap_wf s -> st_heap s !! n = Some (OList xs) -> Forall2 (article_of (st_heap s)) xs done ->
  exists s', iterM (data_item svc n) items s = (Ok tt, s').
Proof.
  induction items as [|it items IH]; intros s xs done Hwf Hn Hxs; [exists s; reflexivity|].
  destruct (wp_eq _ _ _ (wp_data_item n it xs s Hwf Hn)) as [u [s1 [E _]]]. destruct u.
  destruct (data_item_step svc n it s xs done tt s1 Hwf Hn Hxs E) as [W1 [x [Hn1 F1]]].
  destruct (IH s1 _ _ W1 Hn1 F1) as [s2 E2]. exists s2.
  cbn [iterM]. unfold bind. rewrite E. exact E2.
Qed.

Lemma wp_data_agent topic h0 hs s :
  heap_wf s -> tavily_search svc topic MAX_ARTICLES = Ok (h0 :: hs) ->
  wp (data_agent svc topic) (fun v s' => heap_wf s' /\ article_list (st_heap s') v) s.
Proof.
  intros Hwf Hts. unfold data_agent.
  apply wp_bind. apply wp_log. intros s1 Hh1 Hn1 _.
  destruct (same_state _ _ Hh1 Hn1 Hwf) as [W1 _].
  apply wp_bind. apply wp_record. intros s2 Hh2 Hn2 _.
  destruct (same_state _ _ Hh2 Hn2 W1) as [W2 _].
  apply wp_bind. apply (wp_lift _ (h0 :: hs)); [exact Hts|]. cbv beta iota.
  apply wp_bind. apply wp_alloc; [exact W2|]. intros s3 W3 _ Hl3 _ _.
  apply wp_bind.
  destruct (data_loop_ok (st_next s2) (firstn MAX_ARTICLES (h0 :: hs)) s3 [] []
              W3 Hl3 (List.Forall2_nil _)) as [s4 E4].
  apply (wp_of_eq _ _ _ _ _ E4). apply wp_ret.
  destruct (data_loop svc _ _ s3 [] [] s4 W3 Hl3 (List.Forall2_nil _) E4) as [W4 [ys [Hys F]]].
  split; [exact W4|]. exists (st_next s2), ys. split; [reflexivity|]. split; [exact Hys|]. split.
  - intros ->. inversion F.
  - clear Hys. induction F as [|x it ys items Hx _ IH]; constructor; [|exact IH].
    destruct Hx as [a [sm [-> Ha]]]. do 4 eexists. split; [reflexivity | exact Ha].
Qed.
End Malformed.

Lemma pipeline_tail_split svc topic include_voice articles trends strategy risks :
  pipeline_tail svc topic include_voice articles trends strategy risks =
  (let! voice_script := tail_voice svc topic include_voice trends strategy risks in
   let! report := alloc (ODict [(t "topic", PStr topic); (t "articles", articles);
                                (t "trends", trends); (t "strategy", strategy);
                                (t "risks", risks); (t "voice_script", voice_script)]) in
   do! emit SReport (E_DONE ++ t " Pipeline complete.") in
   let! payload := py_dumps (PRef report) in
   record (EPut SReport (Some (_sse (t "done") payload)))).
Proof. reflexivity. Qed.

Lemma ends_done_after s s1 s' : trace_ext progress_effect s s1 -> ends_done s1 s' -> ends_done s s'.
Proof.
  intros [e1 [H1 F1]] [e2 [m [H2 [F2 Hm]]]]. exists (e1 ++ e2), m. split; [|split; [|exact Hm]].
  - rewrite H2, H1, <- !app_assoc. reflexivity.
  - apply Forall_app. split; assumption.
Qed.

Lemma trace_ext_log s s' tag msg :
  st_trace s' = st_trace s ++ [EPut tag (Some (_sse (t "log") msg))] -> trace_ext progress_effect s s'.
Proof. intros H. apply (trace_ext_snoc _ s s s' _ (trace_ext_refl _ _) H), progress_log. Qed.

Lemma pres_tail_voice svc topic include_voice tr st rk :
  preserves (trace_ext progress_effect) (tail_voice svc topic include_voice tr st rk).
Proof.
  destruct include_voice; [|apply (pres_ret _ (trace_ext_refl _))].
  unfold tail_voice. cbv zeta.
  repeat match goal with
         | |- forall _, _ => intro
         | |- preserves _ (bind _ _) => apply (pres_bind _ (trace_ext_trans _))
         | |- preserves _ (ret _) => apply (pres_ret _ (trace_ext_refl _))
         | |- preserves _ (emit _ _) => apply (trace_ext_record _), progress_log
         | |- preserves _ (alloc _) => apply trace_ext_alloc
         | |- preserves _ (py_get _ _ _) => apply (pres_py_get _ (trace_ext_refl _) (trace_ext_trans _))
         | |- preserves _ (py_join _ _) => apply (pres_py_join _ (trace_ext_refl _) (trace_ext_trans _))
         | |- preserves _ (voice_agent _ _) =>
           apply (pres_voice_agent _ (trace_ext_refl _) (trace_ext_trans _) progress_effect (trace_ext_record _));
             [intros; apply progress_log | intros; apply progress_chat]
         end.
Qed.

Lemma wp_get_join {B} keys v k d sep (f : text -> M B) (Q : B -> state -> Prop) s :
  str_dict (st_heap s) keys v -> In k keys -> (forall j, wp (f j) Q s) ->
  wp (bind (py_get v k d) (fun x => bind (py_join sep x) f)) Q s.
Proof.
  intros Hd Hk H. destruct (dict_get_str _ _ _ _ Hd Hk) as [l [kvs [x [-> [Hl [Hx [l' [ss [-> Hl']]]]]]]]].
  apply wp_bind. apply (wp_py_get_dict _ _ _ _ _ _ Hl). rewrite Hx.
  apply wp_bind. apply (wp_py_join_list _ _ _ _ _ Hl'). apply H.
Qed.

Section Malformed_run.
Variable svc : services.
Hypothesis Hchat : forall content, exists c, reka_chat svc content = Ok c /\ malformed (py_strip c).

Lemma wp_tail_voice topic include_voice tr st rk s :
  heap_wf s -> str_dict (st_heap s) TREND_KEYS tr -> str_dict (st_heap s) STRATEGY_KEYS st ->
  str_dict (st_heap s) RISK_KEYS rk ->
  wp (tail_voice svc topic include_voice tr st rk)
     (fun vs s' => heap_wf s' /\ unchanged s s' /\ (vs = PNone \/ exists x, vs = PStr x)) s.
Proof.
  intros Hwf Dt Ds Dr.
  destruct include_voice;
    [|apply wp_ret; split; [exact Hwf|]; split; [apply unchanged_refl | left; reflexivity]].
  unfold tail_voice. cbv zeta.
  apply wp_bind. apply wp_log. intros s1 Hh1 Hn1 _.
  destruct (same_state _ _ Hh1 Hn1 Hwf) as [W1 U1].
  apply wp_bind. apply wp_alloc; [exact W1|]. intros s2 W2 U2 _ _ _.
  pose proof (unchanged_trans _ _ _ U1 U2) as U02.
  apply (wp_get_join TREND_KEYS); [exact (str_dict_mono _ _ _ _ U02 Dt) | left; reflexivity|]. intros j1.
  apply wp_bind. apply wp_alloc; [exact W2|]. intros s3 W3 U3 _ _ _.
  pose proof (unchanged_trans _ _ _ U02 U3) as U03.
  apply (wp_get_join STRATEGY_KEYS); [exact (str_dict_mono _ _ _ _ U03 Ds) | left; reflexivity|]. intros j2.
  apply wp_bind. apply wp_alloc; [exact W3|]. intros s4 W4 U4 _ _ _.
  pose proof (unchanged_trans _ _ _ U03 U4) as U04.
  apply (wp_get_join RISK_KEYS); [exact (str_dict_mono _ _ _ _ U04 Dr) | left; reflexivity|]. intros j3.
  apply wp_bind. eapply wp_mono; [apply (wp_voice_agent svc Hchat _ _ W4)|].
  intros script s5 [W5 U5]. apply wp_ret.
  split; [exact W5|]. split; [exact (unchanged_trans _ _ _ U04 U5) | right; eauto].
Qed.

Lemma wp_pipeline_tail topic include_voice a tr st rk s :
  heap_wf s -> article_list (st_heap s) a -> str_dict (st_heap s) TREND_KEYS tr ->
  str_dict (st_heap s) STRATEGY_KEYS st -> str_dict (st_heap s) RISK_KEYS rk ->
  wp (pipeline_tail svc topic include_voice a tr st rk) (fun _ s' => ends_done s s') s.
Proof.
  intros Hwf Da Dt Ds Dr. rewrite pipeline_tail_split. apply wp_bind.
  eapply wp_mono; [eapply wp_pres; [apply pres_tail_voice | apply wp_tail_voice; assumption]|].
  intros vs s1 [T1 [W1 [U1 Hvs]]].
  apply wp_bind. apply wp_alloc; [exact W1|]. intros s2 W2 U2 Hr2 _ T2.
  apply wp_bind. apply wp_log. intros s3 Hh3 Hn3 T3.
  pose proof (unchanged_trans _ _ _ (unchanged_trans _ _ _ U1 U2) (unchanged_same _ _ Hh3)) as U03.
  destruct (heap_json_report 997 (st_heap s3) (st_next s1) topic a tr st rk vs) as [j Hj].
  { rewrite Hh3. exact Hr2. }
  { exact (article_list_mono _ _ _ U03 Da). }
  { exact (str_dict_mono _ _ _ _ U03 Dt). }
  { exact (str_dict_mono _ _ _ _ U03 Ds). }
  { exact (str_dict_mono _ _ _ _ U03 Dr). }
  { exact Hvs. }
  apply wp_bind. apply (wp_py_dumps _ j); [exact Hj|].
  apply wp_record. intros s4 _ _ T4.
  pose proof (trace_ext_snoc _ _ _ _ _ (trace_ext_same _ _ _ _ T1 T2) T3 (progress_log _ _)) as [ext [He F]].
  exists ext, (_sse (t "done") (json_dumps j)). split; [|split; [exact F | reflexivity]].
  rewrite T4, He, <- app_assoc. reflexivity.
Qed.

Lemma wp_pipeline_body topic include_voice h0 hs s :
  heap_wf s -> tavily_search svc topic MAX_ARTICLES = Ok (h0 :: hs) ->
  wp (pipeline_body svc topic include_voice) (fun _ s' => ends_done s s') s.
Proof.
  intros Hwf Hts. unfold pipeline_body.
  apply wp_bind. apply wp_log. intros s1 Hh1 Hn1 T1.
  destruct (same_state _ _ Hh1 Hn1 Hwf) as [W1 _].
  apply wp_bind. apply wp_log. intros s2 Hh2 Hn2 T2.
  destruct (same_state _ _ Hh2 Hn2 W1) as [W2 _].
  apply wp_bind. eapply wp_mono.
  { eapply wp_pres.
    - exact (pres_data_agent _ (trace_ext_refl _) (trace_ext_trans _) (trace_ext_alloc _) progress_effect
               (trace_ext_record _) svc topic (fun _ => progress_log _ _) (fun _ => progress_chat _ _)
               progress_search (trace_ext_py_append _)).
    - exact (wp_data_agent svc Hchat topic h0 hs s2 W2 Hts). }
  intros a s3 [T3 [W3 Da]].
  pose proof Da as [l [xs [-> [Hl [Hne _]]]]].
  apply wp_bind. unfold py_is_empty_list. apply wp_bind. apply (wp_py_iter_list _ _ _ _ Hl). apply wp_ret.
  destruct xs as [|x xs]; [contradiction|]. cbv beta iota.
  apply wp_bind. apply wp_log. intros s4 Hh4 Hn4 T4.
  destruct (same_state _ _ Hh4 Hn4 W3) as [W4 U4].
  apply wp_bind. eapply wp_mono.
  { eapply wp_pres.
    - exact (pres_trend_agent _ (trace_ext_refl _) (trace_ext_trans _) (trace_ext_alloc _) progress_effect
               (trace_ext_record _) svc _ (fun _ => progress_log _ _) (fun _ => progress_chat _ _)).
    - exact (wp_trend_agent svc Hchat _ s4 W4 (article_list_mono _ _ _ U4 Da)). }
  intros tr s5 [T5 [W5 [U5 Dt]]].
  apply wp_bind. apply wp_log. intros s6 Hh6 Hn6 T6.
  destruct (same_state _ _ Hh6 Hn6 W5) as [W6 U6].
  apply wp_bind. eapply wp_mono.
  { eapply wp_pres.
    - exact (pres_strategy_agent _ (trace_ext_refl _) (trace_ext_trans _) (trace_ext_alloc _) progress_effect
               (trace_ext_record _) svc _ (fun _ => progress_log _ _) (fun _ => progress_chat _ _)).
    - exact (wp_strategy_agent svc Hchat _ s6 W6 (str_dict_mono _ _ _ _ U6 Dt)). }
  intros st s7 [T7 [W7 [U7 Ds]]].
  apply wp_bind. apply wp_log. intros s8 Hh8 Hn8 T8.
  destruct (same_state _ _ Hh8 Hn8 W7) as [W8 U8].
  apply wp_bind. eapply wp_mono.
  { eapply wp_pres.
    - exact (pres_risk_agent _ (trace_ext_refl _) (trace_ext_trans _) (trace_ext_alloc _) progress_effect
               (trace_ext_record _) svc _ _ (fun _ => progress_log _ _) (fun _ => progress_chat _ _)).
    - exact (wp_risk_agent svc Hchat _ _ s8 W8
               (str_dict_mono _ _ _ _ (unchanged_trans _ _ _ (unchanged_trans _ _ _ U6 U7) U8) Dt)
               (str_dict_mono _ _ _ _ U8 Ds)). }
  intros rk s9 [T9 [W9 [U9 Dr]]].
  pose proof (unchanged_trans _ _ _ U8 U9) as U79.
  pose proof (unchanged_trans _ _ _ (unchanged_trans _ _ _ U6 U7) U79) as U59.
  pose proof (unchanged_trans _ _ _ (unchanged_trans _ _ _ U4 U5) U59) as U39.
  eapply wp_mono.
  { apply wp_pipeline_tail; [exact W9 | exact (article_list_mono _ _ _ U39 Da)
      | exact (str_dict_mono _ _ _ _ U59 Dt) | exact (str_dict_mono _ _ _ _ U79 Ds) | exact Dr]. }
  intros u s' Hd. apply (ends_done_after s s9 s'); [|exact Hd].
  eapply trace_ext_trans; [apply (trace_ext_log _ _ _ _ T1)|].
  eapply trace_ext_trans; [apply (trace_ext_log _ _ _ _ T2)|].
  eapply trace_ext_trans; [exact T3|].
  eapply trace_ext_trans; [apply (trace_ext_log _ _ _ _ T4)|].
  eapply trace_ext_trans; [exact T5|].
  eapply trace_ext_trans; [apply (trace_ext_log _ _ _ _ T6)|].
  eapply trace_ext_trans; [exact T7|].
  eapply trace_ext_trans; [apply (trace_ext_log _ _ _ _ T8)|].
  exact T9.
Qed.
End Malformed_run.

Lemma count_events_app kind l1 l2 :
  count_events kind (l1 ++ l2) = (count_events kind l1 + count_events kind l2)%nat.
Proof. unfold count_events. rewrite filter_app, length_app. reflexivity. Qed.

Lemma count_events_progress kind l :
  (forall e, progress_effect e -> is_event kind e = false) -> Forall progress_effect l ->
  count_events kind l = 0%nat.
Proof.
  intros H. unfold count_events. induction 1 as [|x l Hx _ IH]; [reflexivity|].
  rewrite filter_cons, decide_False; [exact IH|]. rewrite (H x Hx). discriminate.
Qed.

Lemma run_trace_done_tail m kind :
  sse_event m = t "done" ->
  count_events kind [EPut SReport (Some m); EPut SPipeline None] =
  if bool_decide (t "done" = t kind) then 1%nat else 0%nat.
Proof.
  intros Hm. unfold count_events. rewrite !filter_cons, filter_nil. cbn [is_event]. rewrite Hm.
  destruct (bool_decide (t "done" = t kind)); cbn.
  - rewrite decide_True by reflexivity. rewrite decide_False by discriminate. reflexivity.
  - rewrite decide_False by discriminate. rewrite decide_False by discriminate. reflexivity.
Qed.




(* ------------------------------------------------------------------ *)
(** ** Stripping and code fences *)

Lemma rev_append_nil (l : text) : rev_append l [] = rev l.
Proof. symmetry. apply rev_alt. Qed.

Lemma py_strip_rev (s : text) : py_strip s = rev (lstrip (rev (lstrip s))).
Proof. unfold py_strip. rewrite !rev_append_nil. reflexivity. Qed.

Lemma lstrip_length (s : text) : (length (lstrip s) <= length s)%nat.
Proof. induction s as [|c s IH]; simpl; [lia|]. destruct (py_isspace c); simpl; lia. Qed.

Lemma lstrip_idem (s : text) : lstrip (lstrip s) = lstrip s.
Proof.
  induction s as [|c s IH]; simpl; [reflexivity|].
  destruct (py_isspace c) eqn:E; [exact IH|]. simpl. rewrite E. reflexivity.
Qed.

Lemma lstrip_split (s : text) : exists p, s = p ++ lstrip s /\ forallb py_isspace p = true.
Proof.
  induction s as [|c s IH]; simpl; [exists []; auto|].
  destruct (py_isspace c) eqn:E.
  - destruct IH as [p [Hp Hs]]. exists (c :: p). simpl. rewrite E, Hs. split; [|reflexivity].
    rewrite <- Hp. reflexivity.
  - exists []. auto.
Qed.

Lemma lstrip_app_nonspace (s r : text) (c : Z) :
  py_isspace c = false -> lstrip (s ++ c :: r) = lstrip s ++ c :: r.
Proof.
  intros Hc. induction s as [|d s IH]; simpl; [rewrite Hc; reflexivity|].
  destruct (py_isspace d); [exact IH | reflexivity].
Qed.

Lemma lstrip_prefix (a b : text) : lstrip (a ++ b) = a ++ b -> lstrip a = a.
Proof.
  destruct a as [|c a]; [reflexivity|]. simpl. destruct (py_isspace c) eqn:E; [|reflexivity].
  intros H. exfalso. pose proof (lstrip_length (a ++ b)) as L. rewrite H in L. simpl in L. lia.
Qed.

(** [str.strip] is idempotent. *)
Lemma py_strip_idem (s : text) : py_strip (py_strip s) = py_strip s.
Proof.
  rewrite !py_strip_rev.
  set (u := lstrip s). set (w := lstrip (rev u)).
  destruct (lstrip_split (rev u)) as [p [Hp _]]. fold w in Hp.
  assert (Hu : u = rev w ++ rev p) by (rewrite <- rev_app_distr, <- Hp, rev_involutive; reflexivity).
  assert (Hy : lstrip (rev w) = rev w).
  { apply (lstrip_prefix _ (rev p)). rewrite <- Hu. apply lstrip_idem. }
  rewrite Hy, rev_involutive. unfold w. rewrite lstrip_idem. reflexivity.
Qed.

Lemma py_strip_lstrip (s : text) : py_strip (lstrip s) = py_strip s.
Proof. rewrite !py_strip_rev, lstrip_idem. reflexivity. Qed.

(** A text that starts and ends with a non-space is its own strip. *)
Lemma py_strip_nonspace_ends (c d : Z) (m : text) :
  py_isspace c = false -> py_isspace d = false -> py_strip (c :: m ++ [d]) = c :: m ++ [d].
Proof.
  intros Hc Hd. rewrite py_strip_rev.
  replace (lstrip (c :: m ++ [d])) with (c :: m ++ [d]) by (simpl; rewrite Hc; reflexivity).
  replace (rev (c :: m ++ [d])) with (d :: rev m ++ [c])
    by (simpl; rewrite rev_app_distr; reflexivity).
  replace (lstrip (d :: rev m ++ [c])) with (d :: rev m ++ [c]) by (simpl; rewrite Hd; reflexivity).
  change (d :: rev m ++ [c]) with ([d] ++ rev m ++ [c]).
  rewrite !rev_app_distr, rev_involutive. reflexivity.
Qed.

Lemma lstrip_nonspace (c : Z) (r : text) : py_isspace c = false -> lstrip (c :: r) = c :: r.
Proof. intros Hc. simpl. rewrite Hc. reflexivity. Qed.

Lemma py_strip_app_fence (s : text) : py_strip (s ++ t "```") = lstrip s ++ t "```".
Proof.
  rewrite py_strip_rev. change (t "```") with (96 :: [96; 96]).
  rewrite lstrip_app_nonspace by reflexivity. rewrite rev_app_distr.
  change (rev (96 :: [96; 96])) with (96 :: [96; 96]). simpl app at 1.
  rewrite lstrip_nonspace by reflexivity.
  change (96 :: 96 :: 96 :: rev (lstrip s)) with ([96; 96; 96] ++ rev (lstrip s)).
  rewrite rev_app_distr, rev_involutive. reflexivity.
Qed.

Lemma startswith_nil (s : text) : startswith s [] = true.
Proof. destruct s; reflexivity. Qed.

Lemma endswith_fence (x : text) : endswith (x ++ t "```") (t "```") = true.
Proof.
  unfold endswith. rewrite !rev_append_nil, rev_app_distr.
  change (t "```") with [96; 96; 96]. simpl. apply startswith_nil.
Qed.

Lemma firstn_fence (x : text) : firstn (length (x ++ t "```") - 3) (x ++ t "```") = x.
Proof.
  rewrite length_app. change (length (t "```")) with 3%nat.
  replace (length x + 3 - 3)%nat with (length x) by lia.
  rewrite firstn_app, firstn_all, Nat.sub_diag. simpl. apply app_nil_r.
Qed.

Lemma startswith_fence_json (s : text) :
  startswith (s ++ t "```") (t "json") = startswith s (t "json").
Proof.
  change (t "json") with [106; 115; 111; 110]. change (t "```") with [96; 96; 96].
  destruct s as [|a [|b [|c [|d s]]]]; simpl; rewrite ?andb_false_r, ?startswith_nil; reflexivity.
Qed.

(** The part of [_parse_json] after the fences are found: the text handed
    to [json.loads] is the strip of the text between them. *)
Lemma parse_json_unfenced (s : text) :
  startswith (py_strip s) (t "```") = false -> endswith (py_strip s) (t "```") = false ->
  _parse_json s = json_loads (py_strip s).
Proof. intros H1 H2. unfold _parse_json. rewrite H1, H2. reflexivity. Qed.

Lemma parse_json_after_open (x : text) :
  json_loads (if endswith (py_strip (x ++ t "```")) (t "```")
              then py_strip (firstn (length (py_strip (x ++ t "```")) - 3) (py_strip (x ++ t "```")))
              else py_strip (x ++ t "```"))
  = json_loads (py_strip x).
Proof.
  rewrite py_strip_app_fence, endswith_fence, firstn_fence, py_strip_lstrip. reflexivity.
Qed.

Lemma py_strip_fenced (m : text) : py_strip (t "```" ++ m ++ t "```") = t "```" ++ m ++ t "```".
Proof.
  assert (E : t "```" ++ m ++ t "```" = 96 :: (96 :: 96 :: m ++ [96; 96]) ++ [96]).
  { change (t "```") with [96; 96; 96]. simpl. rewrite <- app_assoc. reflexivity. }
  rewrite E. apply py_strip_nonspace_ends; reflexivity.
Qed.

Lemma startswith_fence_app (r : text) : startswith (t "```" ++ r) (t "```") = true.
Proof. change (t "```") with [96; 96; 96]. simpl. apply startswith_nil. Qed.

Lemma startswith_json_app (r : text) : startswith (t "json" ++ r) (t "json") = true.
Proof. change (t "json") with [106; 115; 111; 110]. simpl. apply startswith_nil. Qed.

Lemma skipn_fence (r : text) : skipn 3 (t "```" ++ r) = r.
Proof. reflexivity. Qed.

Lemma skipn_json (r : text) : skipn 4 (t "json" ++ r) = r.
Proof. reflexivity. Qed.

(** an answer wrapped in a [```json] fence decodes exactly as the text
    inside the fence does, when that text is not itself fenced. *)
Theorem parse_json_json_fence (s : text) :
  startswith (py_strip s) (t "```") = false -> endswith (py_strip s) (t "```") = false ->
  _parse_json (t "```json" ++ s ++ t "```") = _parse_json s.
Proof.
  intros H1 H2. rewrite (parse_json_unfenced s H1 H2).
  change (t "```json") with (t "```" ++ t "json"). rewrite <- app_assoc.
  rewrite (app_assoc (t "json") s (t "```")).
  unfold _parse_json. cbv zeta.
  rewrite py_strip_fenced, startswith_fence_app, skipn_fence, <- (app_assoc (t "json") s).
  rewrite startswith_json_app, skipn_json.
  apply parse_json_after_open.
Qed.

Lemma parse_json_json_fence_witness :
  startswith (py_strip (tj "{'k': [1]}")) (t "```") = false /\
  endswith (py_strip (tj "{'k': [1]}")) (t "```") = false /\
  _parse_json (t "```json" ++ tj "{'k': [1]}" ++ t "```") = _parse_json (tj "{'k': [1]}").
Proof.
  assert (H1 : startswith (py_strip (tj "{'k': [1]}")) (t "```") = false) by (vm_compute; reflexivity).
  assert (H2 : endswith (py_strip (tj "{'k': [1]}")) (t "```") = false) by (vm_compute; reflexivity).
  split; [exact H1|]. split; [exact H2|]. exact (parse_json_json_fence _ H1 H2).
Defined.

(** the same for a bare [```] fence, when the text inside does not
    start with [json]. *)
Theorem parse_json_bare_fence (s : text) :
  startswith (py_strip s) (t "```") = false -> endswith (py_strip s) (t "```") = false ->
  startswith s (t "json") = false ->
  _parse_json (t "```" ++ s ++ t "```") = _parse_json s.
Proof.
  intros H1 H2 H3. rewrite (parse_json_unfenced s H1 H2).
  unfold _parse_json. cbv zeta.
  rewrite py_strip_fenced, startswith_fence_app, skipn_fence, startswith_fence_json, H3.
  apply parse_json_after_open.
Qed.

Lemma parse_json_bare_fence_witness :
  startswith (py_strip (tj "['up', 'down']")) (t "```") = false /\
  endswith (py_strip (tj "['up', 'down']")) (t "```") = false /\
  startswith (tj "['up', 'down']") (t "json") = false /\
  _parse_json (t "```" ++ tj "['up', 'down']" ++ t "```") = _parse_json (tj "['up', 'down']").
Proof.
  assert (H1 : startswith (py_strip (tj "['up', 'down']")) (t "```") = false) by (vm_compute; reflexivity).
  assert (H2 : endswith (py_strip (tj "['up', 'down']")) (t "```") = false) by (vm_compute; reflexivity).
  assert (H3 : startswith (tj "['up', 'down']") (t "json") = false) by (vm_compute; reflexivity).
  split; [exact H1|]. split; [exact H2|]. split; [exact H3|]. exact (parse_json_bare_fence _ H1 H2 H3).
Defined.

(* ------------------------------------------------------------------ *)
(** ** SSE framing *)

Lemma escape_newlines_no_nl (s : text) : ~ In 10 (escape_newlines s).
Proof.
  induction s as [|c s IH]; simpl; [tauto|].
  destruct (Z.eqb_spec c 10) as [->|Hc]; simpl.
  - intros [H|[H|H]]; [lia|lia|exact (IH H)].
  - intros [H|H]; [lia|exact (IH H)].
Qed.

Lemma escape_newlines_id (s : text) : ~ In 10 s -> escape_newlines s = s.
Proof.
  induction s as [|c s IH]; simpl; intros Hn; [reflexivity|].
  destruct (Z.eqb_spec c 10) as [->|Hc]; [exfalso; tauto|].
  rewrite IH by tauto. reflexivity.
Qed.

Lemma escape_newlines_in (c : Z) (s : text) :
  In c (escape_newlines s) -> In c s \/ c = 92 \/ c = 110.
Proof.
  induction s as [|d s IH]; simpl; [tauto|].
  destruct (Z.eqb_spec d 10) as [->|Hd]; simpl.
  - intros [H|[H|H]]; [right; left; lia|right; right; lia|].
    destruct (IH H) as [H'|H']; tauto.
  - intros [H|H]; [left; left; exact H|]. destruct (IH H) as [H'|H']; tauto.
Qed.

Lemma escape_newlines_no_cr (s : text) : ~ In 13 s -> ~ In 13 (escape_newlines s).
Proof. intros Hn H. destruct (escape_newlines_in 13 s H) as [H'|[H'|H']]; [exact (Hn H')|lia|lia]. Qed.

Lemma filter_line_end_none (s : text) : ~ In 10 s -> ~ In 13 s -> List.filter is_line_end s = [].
Proof.
  induction s as [|c s IH]; intros Hn Hr; [reflexivity|].
  cbn [List.filter]. unfold is_line_end at 1.
  destruct (Z.eqb_spec c 10) as [->|H10]; [exfalso; apply Hn; left; reflexivity|].
  destruct (Z.eqb_spec c 13) as [->|H13]; [exfalso; apply Hr; left; reflexivity|].
  simpl. apply IH; simpl in *; tauto.
Qed.

(** an SSE message whose event name holds no line break and whose data
    holds no CR is one frame: the payload holds no LF and no CR (data
    without LF is sent as it is), so the wire text has exactly three line
    terminators, all LF: the event line's and the blank line closing the
    frame.  (A CR in the data is sent as it is and ends a line.) *)
Theorem sse_single_frame (event data : text) :
  ~ In 10 event -> ~ In 13 event -> ~ In 13 data ->
  ~ In 10 (sse_data (_sse event data)) /\ ~ In 13 (sse_data (_sse event data)) /\
  (~ In 10 data -> sse_data (_sse event data) = data) /\
  List.filter is_line_end (sse_wire (_sse event data)) = [10; 10; 10].
Proof.
  intros He Hr Hd. split; [apply escape_newlines_no_nl|].
  split; [exact (escape_newlines_no_cr data Hd)|]. split; [apply escape_newlines_id|].
  unfold sse_wire, _sse. cbn [sse_event sse_data].
  rewrite !List.filter_app, (filter_line_end_none event He Hr),
    (filter_line_end_none (escape_newlines data) (escape_newlines_no_nl data) (escape_newlines_no_cr data Hd)).
  reflexivity.
Qed.

Lemma sse_single_frame_witness :
  ~ In 10 (t "log") /\ ~ In 13 (t "log") /\ ~ In 13 [65; 10; 66] /\
  List.filter is_line_end (sse_wire (_sse (t "log") [65; 10; 66])) = [10; 10; 10].
Proof.
  assert (H1 : ~ In 10 (t "log")).
  { change (t "log") with [108; 111; 103]. simpl. intuition discriminate. }
  assert (H2 : ~ In 13 (t "log")).
  { change (t "log") with [108; 111; 103]. simpl. intuition discriminate. }
  assert (H3 : ~ In 13 [65; 10; 66]) by (simpl; intuition discriminate).
  split; [exact H1|]. split; [exact H2|]. split; [exact H3|].
  exact (proj2 (proj2 (proj2 (sse_single_frame _ [65; 10; 66] H1 H2 H3)))).
Defined.

(* ------------------------------------------------------------------ *)
(** ** [json.dumps] writes ASCII only *)

Lemma hex_digit_printable (n : Z) : 0 <= n < 16 -> printable (hex_digit n) = true.
Proof.
  intros H. unfold hex_digit, printable.
  destruct (Z.ltb_spec n 10); apply andb_true_intro; split; apply Z.leb_le; lia.
Qed.

Lemma u_escape_printable (u : Z) : forallb printable (u_escape u) = true.
Proof.
  unfold u_escape. simpl.
  rewrite !hex_digit_printable by (apply Z.mod_pos_bound; lia). reflexivity.
Qed.

Lemma ascii_escape_char_printable (c : Z) : forallb printable (ascii_escape_char c) = true.
Proof.
  unfold ascii_escape_char.
  destruct ((32 <=? c) && (c <=? 126) && negb (c =? 92) && negb (c =? 34)) eqn:E.
  - simpl. rewrite andb_true_r. unfold printable.
    apply andb_prop in E as [E _]. apply andb_prop in E as [E _]. apply andb_prop in E as [E1 E2].
    rewrite E1, E2. reflexivity.
  - repeat match goal with |- context [if ?b then _ else _] => destruct b end;
      rewrite ?forallb_app, ?u_escape_printable; reflexivity.
Qed.

Lemma encode_str_printable (s : text) : forallb printable (encode_str s) = true.
Proof.
  unfold encode_str. rewrite !forallb_app. simpl.
  induction s as [|c s IH]; simpl; [reflexivity|].
  rewrite forallb_app, ascii_escape_char_printable. exact IH.
Qed.

Lemma join_printable (sep : text) (xs : list text) :
  forallb printable sep = true -> forallb (forallb printable) xs = true ->
  forallb printable (join sep xs) = true.
Proof.
  intros Hs. induction xs as [|x [|y ys] IH]; simpl; [reflexivity| rewrite andb_true_r; auto|].
  intros H. apply andb_prop in H as [Hx H]. rewrite !forallb_app, Hx, Hs. apply IH, H.
Qed.

(** [json.dumps] with its default [ensure_ascii] writes printable ASCII
    only: every non-ASCII or control character of a string is escaped. *)
Theorem json_dumps_printable (v : json) :
  lexemes_printable v = true -> forallb printable (json_dumps v) = true.
Proof.
  induction v as [| b | lex | s | xs IH | kvs IH] using json_ind'; simpl; intros H.
  - reflexivity.
  - destruct b; reflexivity.
  - exact H.
  - apply encode_str_printable.
  - rewrite !forallb_app. simpl. rewrite andb_true_r.
    apply join_printable; [reflexivity|]. apply forallb_forall. intros y Hy.
    apply in_map_iff in Hy as [x [<- Hx]].
    rewrite List.Forall_forall in IH. apply IH; [exact Hx|].
    rewrite forallb_forall in H. apply H, Hx.
  - rewrite !forallb_app. simpl. rewrite andb_true_r.
    apply join_printable; [reflexivity|]. apply forallb_forall. intros y Hy.
    apply in_map_iff in Hy as [[k x] [<- Hx]].
    rewrite List.Forall_forall in IH.
    change (forallb printable (encode_str k ++ t ": " ++ json_dumps x) = true).
    rewrite !forallb_app, encode_str_printable.
    rewrite forallb_forall in H. exact (IH (k, x) Hx (H (k, x) Hx)).
Qed.

Lemma json_dumps_printable_witness :
  lexemes_printable (JObj [(t "k", JArr [JNum (t "1.5e3"); JStr [233; 10]])]) = true /\
  forallb printable (json_dumps (JObj [(t "k", JArr [JNum (t "1.5e3"); JStr [233; 10]])])) = true.
Proof.
  assert (H : lexemes_printable (JObj [(t "k", JArr [JNum (t "1.5e3"); JStr [233; 10]])]) = true)
    by (vm_compute; reflexivity).
  split; [exact H|]. exact (json_dumps_printable _ H).
Defined.

(* ------------------------------------------------------------------ *)
(** ** Stage helpers *)

(** [_chat] makes exactly one call of the reasoning service, leaves the
    objects alone, and returns an answer that stripping does not change. *)
Theorem chat_answer_stripped (svc : services) (tag : stage) (system user : text) (s : state)
    (r : text) (s' : state) :
  _chat svc tag system user s = (Ok r, s') ->
  py_strip r = r /\ st_heap s' = st_heap s /\ st_next s' = st_next s /\
  exists content, st_trace s' = st_trace s ++ [EChat tag content].
Proof.
  unfold _chat, bind, record. destruct (reka_chat svc _) as [c|e] eqn:E; simpl.
  - intros H. injection H as <- <-. split; [apply py_strip_idem|].
    split; [reflexivity|]. split; [reflexivity|]. eexists. reflexivity.
  - discriminate.
Qed.

Lemma chat_answer_stripped_witness :
  exists r s',
    _chat sample_services SData (t "Be brief.") (t "Summarise.") init_state = (Ok r, s') /\
    py_strip r = r /\ st_heap s' = st_heap init_state.
Proof.
  assert (H : exists r s', _chat sample_services SData (t "Be brief.") (t "Summarise.") init_state = (Ok r, s'))
    by (eexists _, _; reflexivity).
  destruct H as [r [s' H]]. exists r, s'. split; [exact H|].
  destruct (chat_answer_stripped _ _ _ _ _ _ _ H) as [H1 [H2 _]]. split; [exact H1 | exact H2].
Defined.

(** [result.get(key, [])] on a dict without [key] iterates over the
    fresh empty default: no item, and no [KeyError]. *)
Theorem get_items_missing_key (l : N) (kvs : list (text * pv)) (key : text) (s : state) :
  heap_wf s -> st_heap s !! l = Some (ODict kvs) -> dict_lookup key kvs = None ->
  get_items (PRef l) key s =
    (Ok [], St (<[st_next s := OList []]> (st_heap s)) (N.succ (st_next s)) (st_trace s)).
Proof.
  intros Hwf Hl Hk. pose proof (heap_wf_lt s l _ Hwf Hl) as Hlt.
  cbv beta iota zeta delta [get_items bind alloc py_get py_iter read ret]. cbn [st_heap st_next st_trace].
  rewrite lookup_insert_ne by lia. rewrite Hl, Hk. cbn [st_heap]. rewrite lookup_insert_eq. reflexivity.
Qed.

Lemma get_items_missing_key_witness :
  heap_wf (St (<[0%N := ODict [(t "trends", PNone)]]> ∅) 1 []) /\
  get_items (PRef 0) (t "sentiment_shifts") (St (<[0%N := ODict [(t "trends", PNone)]]> ∅) 1 []) =
    (Ok [], St (<[1%N := OList []]> (<[0%N := ODict [(t "trends", PNone)]]> ∅)) 2 []).
Proof.
  assert (H1 : heap_wf (St (<[0%N := ODict [(t "trends", PNone)]]> ∅) 1 [])).
  { intros l Hl. cbn [st_heap st_next] in *. rewrite lookup_insert_ne by lia. apply lookup_empty. }
  assert (H2 : st_heap (St (<[0%N := ODict [(t "trends", PNone)]]> ∅) 1 []) !! 0%N =
               Some (ODict [(t "trends", PNone)])) by reflexivity.
  assert (H3 : dict_lookup (t "sentiment_shifts") [(t "trends", PNone)] = None) by (vm_compute; reflexivity).
  split; [exact H1|]. exact (get_items_missing_key _ _ _ _ H1 H2 H3).
Defined.

Lemma iter_enum_logs (tag : stage) (f : nat -> pv -> text) (i : nat) (xs : list pv) (s : state) :
  iter_enum (fun j x => log tag (f j x)) i xs s =
  (Ok tt, St (st_heap s) (st_next s)
             (st_trace s ++ imap (fun j x => EPut tag (Some (_sse (t "log") (f (i + j)%nat x)))) xs)).
Proof.
  revert i s. induction xs as [|x xs IH]; intros i [h n tr]; simpl.
  - rewrite app_nil_r. reflexivity.
  - unfold bind, log, record. simpl. rewrite IH. simpl. rewrite <- app_assoc, Nat.add_0_r.
    do 4 f_equal. apply imap_ext. intros j y _. simpl. rewrite Nat.add_succ_r. reflexivity.
Qed.

Lemma imap_map {A B C} (f : nat -> B -> C) (g : A -> B) (l : list A) :
  imap f (map g l) = imap (fun i x => f i (g x)) l.
Proof. revert f. induction l as [|x l IH]; intros f; simpl; [reflexivity|]. rewrite IH. reflexivity. Qed.

(** the [enumerate(..., 1)] logging loop of the stages, on a list of
    strings that, like the prefix, hold no surrogate code point (so that
    its [print] does not raise), returns normally and writes one log event
    per item, in order: the prefix, the item's number counted from 1, [": "]
    and the string. *)
Theorem log_enum_numbered (tag : stage) (prefix : text) (ss : list text) (s : state) :
  no_surrogate prefix = true -> Forall (fun x => no_surrogate x = true) ss ->
  log_enum tag prefix (map PStr ss) s =
  (Ok tt, St (st_heap s) (st_next s)
             (st_trace s ++ imap (fun i x => EPut tag (Some (_sse (t "log")
                                   (prefix ++ nat_text (S i) ++ t ": " ++ x)))) ss)).
Proof. intros _ _. unfold log_enum. rewrite iter_enum_logs, imap_map. reflexivity. Qed.

Lemma log_enum_numbered_witness :
  no_surrogate (t "  Trend ") = true /\ Forall (fun x => no_surrogate x = true) [t "AI chips"; t "Edge AI"] /\
  log_enum STrend (t "  Trend ") (map PStr [t "AI chips"; t "Edge AI"]) init_state =
  (Ok tt, St ∅ 0 [EPut STrend (Some (_sse (t "log") (t "  Trend 1: AI chips")));
                  EPut STrend (Some (_sse (t "log") (t "  Trend 2: Edge AI")))]).
Proof.
  assert (H1 : no_surrogate (t "  Trend ") = true) by (vm_compute; reflexivity).
  assert (H2 : Forall (fun x => no_surrogate x = true) [t "AI chips"; t "Edge AI"]).
  { repeat constructor. }
  split; [exact H1|]. split; [exact H2|].
  rewrite (log_enum_numbered STrend _ _ init_state H1 H2). vm_compute. reflexivity.
Defined.

(** an accepted request (status 200) answers with the fresh run id,
    registers an empty queue under it, so that [stream] on that id now
    opens an event stream, and starts one pipeline thread whose topic is
    the non-empty stripped topic. *)
Theorem start_run_accepted (data : json) (fresh_id : text) (sv : server) (resp : response) (sv' : server) :
  start_run data fresh_id sv = (Ok resp, sv') -> status resp = 200 ->
  body resp = JObj [(t "run_id", JStr fresh_id)] /\
  runs sv' = <[fresh_id := []]> (runs sv) /\
  stream fresh_id sv' = EventStream fresh_id (t "text/event-stream")
    [(t "Cache-Control", t "no-cache"); (t "X-Accel-Buffering", t "no")] /\
  exists topic include_voice,
    topic <> [] /\ py_strip topic = topic /\
    threads sv' = threads sv ++ [(fresh_id, topic, include_voice)].
Proof.
  unfold start_run. destruct data as [| | | | |kvs]; try discriminate. cbv zeta.
  destruct (match dict_lookup (t "topic") kvs with Some v => v | None => JStr [] end)
    as [| | |raw| |]; try discriminate.
  destruct (py_strip raw) as [|c cs] eqn:E.
  - intros H. injection H as <- <-. simpl. discriminate.
  - intros H _. injection H as <- <-. simpl. split; [reflexivity|].
    split; [reflexivity|]. split.
    + unfold stream. simpl. rewrite lookup_insert_eq. reflexivity.
    + eexists (c :: cs), _. split; [discriminate|]. split; [|reflexivity].
      rewrite <- E. apply py_strip_idem.
Qed.

Lemma start_run_accepted_witness :
  start_run (JObj [(t "topic", JStr (t " EV batteries "))]) (t "id-1") (Server ∅ []) =
    (Ok (Response 200 (JObj [(t "run_id", JStr (t "id-1"))])),
     Server (<[t "id-1" := []]> ∅) [(t "id-1", t "EV batteries", true)]) /\
  status (Response 200 (JObj [(t "run_id", JStr (t "id-1"))])) = 200 /\
  runs (Server (<[t "id-1" := []]> ∅) [(t "id-1", t "EV batteries", true)]) = <[t "id-1" := []]> ∅.
Proof.
  assert (H1 : start_run (JObj [(t "topic", JStr (t " EV batteries "))]) (t "id-1") (Server ∅ []) =
    (Ok (Response 200 (JObj [(t "run_id", JStr (t "id-1"))])),
     Server (<[t "id-1" := []]> ∅) [(t "id-1", t "EV batteries", true)])) by (vm_compute; reflexivity).
  assert (H2 : status (Response 200 (JObj [(t "run_id", JStr (t "id-1"))])) = 200) by reflexivity.
  split; [exact H1|]. split; [exact H2|].
  exact (proj1 (proj2 (start_run_accepted _ _ _ _ _ H1 H2))).
Defined.

(** [include_voice] defaults to on, and any non-empty string turns it on,
    ["false"] included ([bool] of a non-empty string is [True]). *)
Theorem start_run_include_voice_string (kvs : list (text * json)) (raw : text) (fresh_id : text) (sv : server) :
  dict_lookup (t "topic") kvs = Some (JStr raw) -> py_strip raw <> [] ->
  (dict_lookup (t "include_voice") kvs = None \/
   exists s, dict_lookup (t "include_voice") kvs = Some (JStr s) /\ s <> []) ->
  start_run (JObj kvs) fresh_id sv =
    (Ok (Response 200 (JObj [(t "run_id", JStr fresh_id)])),
     Server (<[fresh_id := []]> (runs sv)) (threads sv ++ [(fresh_id, py_strip raw, true)])).
Proof.
  intros Ht Hs Hv. unfold start_run. cbv zeta. rewrite Ht.
  destruct (py_strip raw) as [|c cs] eqn:E; [congruence|].
  destruct Hv as [Hv | [s [Hv Hne]]]; rewrite Hv; [reflexivity|].
  simpl. rewrite (bool_decide_eq_false_2 _ Hne). reflexivity.
Qed.

Lemma start_run_include_voice_string_witness :
  dict_lookup (t "topic") [(t "topic", JStr (t "AI chips")); (t "include_voice", JStr (t "false"))] =
    Some (JStr (t "AI chips")) /\
  py_strip (t "AI chips") <> [] /\
  start_run (JObj [(t "topic", JStr (t "AI chips")); (t "include_voice", JStr (t "false"))]) (t "id-1")
    (Server ∅ []) =
    (Ok (Response 200 (JObj [(t "run_id", JStr (t "id-1"))])),
     Server (<[t "id-1" := []]> ∅) ([] ++ [(t "id-1", py_strip (t "AI chips"), true)])).
Proof.
  assert (H1 : dict_lookup (t "topic") [(t "topic", JStr (t "AI chips")); (t "include_voice", JStr (t "false"))] =
    Some (JStr (t "AI chips"))) by (vm_compute; reflexivity).
  assert (H2 : py_strip (t "AI chips") <> []) by (vm_compute; discriminate).
  assert (H3 : dict_lookup (t "include_voice") [(t "topic", JStr (t "AI chips")); (t "include_voice", JStr (t "false"))] = None \/
    exists s, dict_lookup (t "include_voice") [(t "topic", JStr (t "AI chips")); (t "include_voice", JStr (t "false"))] = Some (JStr s) /\ s <> []).
  { right. exists (t "false"). split; [vm_compute; reflexivity | vm_compute; discriminate]. }
  split; [exact H1|]. split; [exact H2|].
  exact (start_run_include_voice_string _ _ _ (Server ∅ []) H1 H2 H3).
Defined.

(** a request body that decodes to a JSON value other than an object, or
    to an object whose topic is present and not a string, makes the route
    raise [AttributeError] (Flask answers 500) and registers nothing. *)
Theorem start_run_type_errors (data : json) (fresh_id : text) (sv : server) :
  (forall kvs, data <> JObj kvs) \/
  (exists kvs v, data = JObj kvs /\ dict_lookup (t "topic") kvs = Some v /\ forall s, v <> JStr s) ->
  exists msg, start_run data fresh_id sv = (Exc (Exn AttributeError msg), sv).
Proof.
  intros [H | [kvs [v [-> [Hk Hv]]]]].
  - destruct data as [| | | | |kvs]; try (eexists; reflexivity). exfalso. exact (H kvs eq_refl).
  - unfold start_run. cbv zeta. rewrite Hk.
    destruct v as [| | |s| |]; try (eexists; reflexivity). exfalso. exact (Hv s eq_refl).
Qed.

Lemma start_run_type_errors_witness :
  exists msg, start_run (JArr [JStr (t "topic")]) (t "id-1") (Server ∅ []) =
    (Exc (Exn AttributeError msg), Server ∅ []).
Proof.
  apply start_run_type_errors. left. intros kvs. discriminate.
Defined.

Lemma generate_messages (run_id : text) (ms : list sse) (rest : list (option sse)) (sv : server) :
  generate run_id (map Some ms ++ None :: rest) sv =
    (ms, true, Server (delete run_id (runs sv)) (threads sv)).
Proof. induction ms as [|m ms IH]; simpl; [reflexivity|]. rewrite IH. reflexivity. Qed.

(** a client streaming a registered run receives an event stream that
    yields every message the pipeline writes, in order, and closes on the
    sentinel; the run id is then dropped from the table, so streaming it
    again answers 404. *)
Theorem stream_whole_run (svc : services) (topic : text) (include_voice : bool) (run_id : text) (sv : server) :
  runs sv !! run_id <> None ->
  stream run_id sv = EventStream run_id (t "text/event-stream")
    [(t "Cache-Control", t "no-cache"); (t "X-Accel-Buffering", t "no")] /\
  exists ms,
    queue_writes (run_trace svc topic include_voice) = map Some ms ++ [None] /\
    generate run_id (queue_writes (run_trace svc topic include_voice)) sv =
      (ms, true, Server (delete run_id (runs sv)) (threads sv)) /\
    stream run_id (Server (delete run_id (runs sv)) (threads sv)) = PlainResponse 404 (t "Unknown run_id").
Proof.
  intros Hr. split.
  { unfold stream. destruct (runs sv !! run_id); [reflexivity | congruence]. }
  destruct (run_trace_shape svc topic include_voice) as [pre [e [Htr [Fpre He]]]].
  destruct (queue_writes_no_sentinel _ Fpre) as [evs Hevs].
  destruct e as [tag [m|] | |]; simpl in He; try contradiction.
  exists (evs ++ [m]).
  assert (Hws : queue_writes (run_trace svc topic include_voice) = map Some (evs ++ [m]) ++ [None]).
  { rewrite Htr, queue_writes_app, Hevs, map_app. simpl. rewrite <- app_assoc. reflexivity. }
  split; [exact Hws|]. split; [rewrite Hws; apply generate_messages|].
  unfold stream. simpl. rewrite lookup_delete_eq. reflexivity.
Qed.

Lemma stream_whole_run_witness :
  runs (Server (<[t "id-1" := []]> ∅) []) !! t "id-1" <> None /\
  stream (t "id-1") (Server (<[t "id-1" := []]> ∅) []) = EventStream (t "id-1") (t "text/event-stream")
    [(t "Cache-Control", t "no-cache"); (t "X-Accel-Buffering", t "no")].
Proof.
  assert (H : runs (Server (<[t "id-1" := []]> ∅) []) !! t "id-1" <> None) by (vm_compute; discriminate).
  split; [exact H|]. exact (proj1 (stream_whole_run sample_services (t "EV batteries") true _ _ H)).
Defined.





Lemma join_app (sep : text) (xs ys : list text) :
  xs <> [] -> ys <> [] -> join sep (xs ++ ys) = join sep xs ++ sep ++ join sep ys.
Proof.
  intros Hx Hy. induction xs as [|x [|x' xs] IH]; [congruence| |].
  - simpl. destruct ys; [congruence|reflexivity].
  - change ((x :: x' :: xs) ++ ys) with (x :: ((x' :: xs) ++ ys)).
    cbn [join]. simpl app at 1. rewrite IH by discriminate. cbn [join]. rewrite <- !app_assoc. reflexivity.
Qed.

Ltac nonempty_lines :=
  let Hc := fresh in intros Hc; apply (f_equal (@length text)) in Hc;
  rewrite ?length_app in Hc; simpl in Hc; lia.

Lemma render_report_lines (topic now : text) (articles trends strategy risks : pv) (s : state) :
  exists c : res (list text) * state,
    (forall L s1, c = (Ok L, s1) -> L <> []) /\
    forall voice_script,
      render_report topic now articles trends strategy risks voice_script s =
        (match fst c with
         | Ok L => Ok (join NL (L ++ match voice_script with
                                     | Some ((_ :: _) as v) => [E_MIC ++ t "  VOICE BRIEFING"; SEP; v; []]
                                     | _ => []
                                     end ++
                                [DOUBLE_BAR 60; t "  End of Report"; DOUBLE_BAR 60; []]))
         | Exc e => Exc e
         end, snd c).
Proof.
  unfold render_report, bind. cbv zeta.
  repeat match goal with
         | |- context [match ?m ?s0 with _ => _ end] =>
           let x := fresh "x" in let e := fresh "e" in let s1 := fresh "s" in
           destruct (m s0) as [[x|e] s1];
           [|exists (Exc e, s1); split; [discriminate | reflexivity]]
         end.
  eexists (Ok (_ ++ [[]]), _). split.
  - intros L sL H. injection H as <- _. nonempty_lines.
  - intros vs. cbn [fst snd]. unfold ret. rewrite !app_assoc. reflexivity.
Qed.

(** the voice section of the report is printed only for a non-empty
    script: with no script or an empty one the report is the same, and a
    non-empty script adds exactly its heading, a rule, the script and a
    blank line before the closing banner. *)
Theorem render_voice_section (topic now : text) (articles trends strategy risks : pv) (s : state)
    (r0 : text) (s' : state) :
  render_report topic now articles trends strategy risks None s = (Ok r0, s') ->
  exists pre,
    r0 = pre ++ NL ++ DOUBLE_BAR 60 ++ NL ++ t "  End of Report" ++ NL ++ DOUBLE_BAR 60 ++ NL /\
    render_report topic now articles trends strategy risks (Some []) s = (Ok r0, s') /\
    forall v, v <> [] ->
      render_report topic now articles trends strategy risks (Some v) s =
        (Ok (pre ++ NL ++ E_MIC ++ t "  VOICE BRIEFING" ++ NL ++ SEP ++ NL ++ v ++ NL ++ NL ++
             DOUBLE_BAR 60 ++ NL ++ t "  End of Report" ++ NL ++ DOUBLE_BAR 60 ++ NL), s').
Proof.
  destruct (render_report_lines topic now articles trends strategy risks s) as [[[L|e] s1] [HL Hr]].
  2:{ rewrite Hr. discriminate. }
  rewrite !Hr. cbn [fst snd]. cbv beta iota. intros H. injection H as <- <-.
  pose proof (HL L s1 eq_refl) as HL'.
  exists (join NL L). split; [|split; [reflexivity|]].
  - rewrite join_app by (assumption || discriminate). cbn [join]. rewrite app_nil_r. reflexivity.
  - intros [|c v] Hv; [congruence|]. rewrite Hr. cbn [fst snd]. cbv beta iota.
    rewrite join_app by (assumption || discriminate). rewrite join_app by discriminate.
    cbn [join]. rewrite !app_nil_r, <- !app_assoc. reflexivity.
Qed.

Lemma render_voice_section_witness :
  exists r0 s',
    render_report (t "chips") (t "2025-01-01 09:00") (PRef 0) (PRef 1) (PRef 1) (PRef 1) None
      (St (<[0%N := OList []]> (<[1%N := ODict []]> ∅)) 2 []) = (Ok r0, s') /\
    render_report (t "chips") (t "2025-01-01 09:00") (PRef 0) (PRef 1) (PRef 1) (PRef 1) (Some [])
      (St (<[0%N := OList []]> (<[1%N := ODict []]> ∅)) 2 []) = (Ok r0, s').
Proof.
  assert (H : exists r0 s',
    render_report (t "chips") (t "2025-01-01 09:00") (PRef 0) (PRef 1) (PRef 1) (PRef 1) None
      (St (<[0%N := OList []]> (<[1%N := ODict []]> ∅)) 2 []) = (Ok r0, s')) by (eexists _, _; reflexivity).
  destruct H as [r0 [s' H]]. exists r0, s'. split; [exact H|].
  destruct (render_voice_section _ _ _ _ _ _ _ _ _ H) as [pre [_ [H2 _]]]. exact H2.
Defined.

Lemma article_block_full (x : pv) (s : state) :
  full_article (st_heap s) x -> exists lines, article_block x s = (Ok lines, s).
Proof.
  intros [a [kvs [-> [Ha Hk]]]]. unfold first_missing, ARTICLE_KEYS in Hk.
  destruct (dict_lookup (t "headline") kvs) as [hd|] eqn:E1; [|discriminate Hk].
  destruct (dict_lookup (t "source") kvs) as [src|] eqn:E2; [|discriminate Hk].
  destruct (dict_lookup (t "summary") kvs) as [sm|] eqn:E3; [|discriminate Hk].
  assert (W : wp (article_block (PRef a)) (fun _ s' => s' = s) s).
  { unfold article_block.
    apply wp_bind. eapply (wp_py_getitem_dict _ _ _ _ _ _ Ha); [exact E1|].
    apply wp_bind. eapply (wp_py_getitem_dict _ _ _ _ _ _ Ha); [exact E2|].
    apply wp_bind. eapply (wp_py_getitem_dict _ _ _ _ _ _ Ha); [exact E3|].
    apply wp_ret. reflexivity. }
  destruct (wp_eq _ _ _ W) as [lines [s' [E ->]]]. exists lines. exact E.
Qed.

Lemma article_block_missing (a : N) (kvs : list (text * pv)) (k : text) (s : state) :
  st_heap s !! a = Some (ODict kvs) -> first_missing ARTICLE_KEYS kvs = Some k ->
  article_block (PRef a) s = (Exc (Exn KeyError k), s).
Proof.
  intros Ha Hk. unfold first_missing, ARTICLE_KEYS in Hk.
  unfold article_block, py_getitem, bind, read, ret, raise.
  rewrite Ha. cbv beta iota zeta.
  destruct (dict_lookup (t "headline") kvs) eqn:E1; [|injection Hk as <-; reflexivity].
  rewrite Ha. cbv beta iota zeta.
  destruct (dict_lookup (t "source") kvs) eqn:E2; [|injection Hk as <-; reflexivity].
  rewrite Ha. cbv beta iota zeta.
  destruct (dict_lookup (t "summary") kvs) eqn:E3; [|injection Hk as <-; reflexivity].
  discriminate Hk.
Qed.

(** the report needs the three fields of every article: when an
    article dict lacks [headline], [source] or [summary], and the articles
    before it are dicts holding all three, rendering raises [KeyError] for
    the first missing key, in the order headline, source, summary, and
    builds nothing. *)
Theorem render_missing_field (topic now : text) (l : N) (pre : list pv) (a : N) (post : list pv)
    (kvs : list (text * pv)) (k : text) (trends strategy risks : pv) (voice_script : option text)
    (s : state) :
  st_heap s !! l = Some (OList (pre ++ PRef a :: post)) ->
  Forall (full_article (st_heap s)) pre ->
  st_heap s !! a = Some (ODict kvs) ->
  first_missing ARTICLE_KEYS kvs = Some k ->
  render_report topic now (PRef l) trends strategy risks voice_script s = (Exc (Exn KeyError k), s).
Proof.
  intros Hl Hpre Ha Hk.
  pose proof (article_block_missing a kvs k s Ha Hk) as Hb.
  assert (Hm : mapM article_block (pre ++ PRef a :: post) s = (Exc (Exn KeyError k), s)).
  { clear Hl. induction Hpre as [|x xs Hx _ IH]; cbn [app mapM]; unfold bind.
    - rewrite Hb. reflexivity.
    - destruct (article_block_full x s Hx) as [lines ->]. rewrite IH. reflexivity. }
  unfold render_report. cbv zeta. unfold bind at 1, py_iter, bind at 1, read. rewrite Hl.
  unfold ret at 1. unfold bind at 1. rewrite Hm. reflexivity.
Qed.

Lemma render_missing_field_witness :
  st_heap incomplete_articles_state !! 0%N = Some (OList ([PRef 1] ++ PRef 2 :: [])) /\
  Forall (full_article (st_heap incomplete_articles_state)) [PRef 1] /\
  st_heap incomplete_articles_state !! 2%N = Some (ODict [(t "headline", PStr (t "Chip demand")); (t "summary", PNone)]) /\
  first_missing ARTICLE_KEYS [(t "headline", PStr (t "Chip demand")); (t "summary", PNone)] = Some (t "source") /\
  render_report (t "chips") (t "2025-01-01 09:00") (PRef 0) (PRef 3) (PRef 3) (PRef 3) None incomplete_articles_state =
    (Exc (Exn KeyError (t "source")), incomplete_articles_state).
Proof.
  assert (H1 : st_heap incomplete_articles_state !! 0%N = Some (OList ([PRef 1] ++ PRef 2 :: []))) by reflexivity.
  assert (H2 : Forall (full_article (st_heap incomplete_articles_state)) [PRef 1]).
  { constructor; [|constructor]. exists 1%N, [(t "headline", PNum (t "7")); (t "source", PNone); (t "summary", PStr [])].
    split; [reflexivity|]. split; [reflexivity|]. vm_compute. reflexivity. }
  assert (H3 : st_heap incomplete_articles_state !! 2%N =
                 Some (ODict [(t "headline", PStr (t "Chip demand")); (t "summary", PNone)])) by reflexivity.
  assert (H4 : first_missing ARTICLE_KEYS [(t "headline", PStr (t "Chip demand")); (t "summary", PNone)] =
                 Some (t "source")) by (vm_compute; reflexivity).
  split; [exact H1|]. split; [exact H2|]. split; [exact H3|]. split; [exact H4|].
  exact (render_missing_field _ _ _ _ _ _ _ _ (PRef 3) (PRef 3) (PRef 3) None _ H1 H2 H3 H4).
Defined.





Lemma trace_ext_silent {A} (P : effect -> Prop) (m : M A) :
  preserves (trace_ext P) m -> preserves (trace_ext P) (silent m).
Proof.
  intros Hm s r s' H. unfold silent in H. destruct (m s) as [r1 s1] eqn:E.
  injection H as _ <-. destruct (Hm _ _ _ E) as [ext [Hext Fext]].
  exists (List.filter (fun e => negb (is_put e)) ext). cbn [st_trace]. split.
  - rewrite Hext, skipn_app, skipn_all, Nat.sub_diag. reflexivity.
  - apply List.Forall_forall. intros x Hx. apply filter_In in Hx as [Hx _].
    rewrite List.Forall_forall in Fext. exact (Fext x Hx).
Qed.

Lemma trace_ext_article_block (P : effect -> Prop) (a : pv) : preserves (trace_ext P) (article_block a).
Proof.
  unfold article_block.
  apply (pres_bind _ (trace_ext_trans _)); [apply (pres_py_getitem _ (trace_ext_refl _) (trace_ext_trans _))|]; intros.
  apply (pres_bind _ (trace_ext_trans _)); [apply (pres_py_getitem _ (trace_ext_refl _) (trace_ext_trans _))|]; intros.
  apply (pres_bind _ (trace_ext_trans _)); [apply (pres_py_getitem _ (trace_ext_refl _) (trace_ext_trans _))|]; intros.
  apply (pres_ret _ (trace_ext_refl _)).
Qed.

Lemma trace_ext_render_report (P : effect -> Prop) topic now articles trends strategy risks voice_script :
  preserves (trace_ext P) (render_report topic now articles trends strategy risks voice_script).
Proof.
  unfold render_report. cbv zeta.
  repeat match goal with
         | |- forall _, _ => intro
         | |- preserves _ (bind _ _) => apply (pres_bind _ (trace_ext_trans _))
         | |- preserves _ (ret _) => apply (pres_ret _ (trace_ext_refl _))
         | |- preserves _ (py_iter _) => apply (pres_py_iter _ (trace_ext_refl _) (trace_ext_trans _))
         | |- preserves _ (mapM _ _) =>
           apply (pres_mapM _ (trace_ext_refl _) (trace_ext_trans _)); intros; apply trace_ext_article_block
         | |- preserves _ (get_items _ _) =>
           apply (pres_get_items _ (trace_ext_refl _) (trace_ext_trans _) (trace_ext_alloc _))
         end.
Qed.

(** without the voice option the command line never runs the Voice
    stage: no effect of the run belongs to it. *)
Theorem cli_without_voice (svc : services) (now topic : text) :
  preserves (trace_ext (fun e => effect_stage e <> SVoice)) (run_pipeline svc now topic false).
Proof.
  unfold run_pipeline.
  pose proof (trace_ext_refl (fun e => effect_stage e <> SVoice)) as Rr.
  pose proof (trace_ext_trans (fun e => effect_stage e <> SVoice)) as Rt.
  pose proof (trace_ext_alloc (fun e => effect_stage e <> SVoice)) as Ra.
  pose proof (trace_ext_record (fun e => effect_stage e <> SVoice)) as Rc.
  apply (pres_bind _ Rt); [apply trace_ext_silent; apply (pres_data_agent _ Rr Rt Ra _ Rc);
    [intros; discriminate .. | apply trace_ext_py_append]|]. intros articles.
  apply (pres_bind _ Rt); [apply (pres_py_is_empty_list _ Rr Rt)|]. intros [|]; [apply (pres_ret _ Rr)|].
  apply (pres_bind _ Rt); [apply trace_ext_silent; apply (pres_trend_agent _ Rr Rt Ra _ Rc); intros; discriminate|].
  intros trends.
  apply (pres_bind _ Rt); [apply trace_ext_silent; apply (pres_strategy_agent _ Rr Rt Ra _ Rc); intros; discriminate|].
  intros strategy.
  apply (pres_bind _ Rt); [apply trace_ext_silent; apply (pres_risk_agent _ Rr Rt Ra _ Rc); intros; discriminate|].
  intros risks.
  apply (pres_bind _ Rt); [apply (pres_ret _ Rr)|]. intros vs.
  apply trace_ext_render_report.
Qed.
